(** * ts-jest: the transformer, its session registry and the TypeScript compiler session

    A shallow embedding of [TsJestTransformer] (the transformer module: registry
    [_configsFor], [process], [processAsync], [processWithTs], [getCacheKey]) and
    of [TsCompiler] (src/legacy/compiler/ts-compiler.ts: [getResolvedModules],
    [getCompiledOutput], [_updateMemoryCache] and the language-service host).

    JavaScript objects that are shared by reference (the [Map] objects handed
    over by jest, the compilers, the dependency-graph maps) live in heaps that
    are indexed by their reference; methods are computations in a state and
    exception monad.  The TypeScript module, node's [fs] and [path], and the
    helpers of the repository that the two source files import are collected in
    records of oracle functions. *)

From Stdlib Require Import Ascii String.
From stdpp Require Import pretty.
From stdpp Require Import base strings list option.
Open Scope string_scope.

(** ** JavaScript [Map] objects

    A [Map] keeps its keys in insertion order; [set] on a present key keeps the
    key's position. *)
Module JsMap.
Section Ops.
Context {V : Type}.

Definition t := list (string * V).

Definition empty : t := [].

Fixpoint get (m : t) (k : string) : option V :=
  match m with
  | [] => None
  | (k', v) :: r => if decide (k' = k) then Some v else get r k
  end.

Definition has (m : t) (k : string) : bool :=
  match get m k with Some _ => true | None => false end.

Fixpoint set (m : t) (k : string) (v : V) : t :=
  match m with
  | [] => [(k, v)]
  | (k', v') :: r => if decide (k' = k) then (k, v) :: r else (k', v') :: set r k v
  end.

Definition size (m : t) : nat := length m.

Definition keys (m : t) : list string := map fst m.

Definition entries (m : t) : list (string * V) := m.

End Ops.
Arguments t : clear implicits.
End JsMap.

(** ** Values thrown and returned *)

Record Diagnostic := {
  diag_code : nat;
  diag_messageText : string;
}.

(** The errors the two modules throw.  [CannotProcessFile] and
    [UnableToRequireDefinitionFile] stand for the interpolated messages of
    [Errors], and carry the file name that is interpolated into them. *)
Inductive Exn :=
| CannotProcessFile (file : string)
| UnableToRequireDefinitionFile (file : string)
| TSError (diagnostics : list Diagnostic)
| ENOENT (path : string)
| TypeError (what : string).

(** The messages handed to the logger at the levels [warn], [info] and
    [error]; [debug] and [trace] calls are not recorded. *)
Inductive Message :=
| GotJsFileButAllowJsFalse (path : string)
| CannotProcessFileReturnOriginal (file : string)
| UsingModernNodeResolution
| InvalidModuleKindForEsm
| GlobalsTsJestConfigOption
| NoMatchingConfigSet
| GotUnknownFileTypeWithBabel (path : string)
| GotUnknownFileTypeWithoutBabel (path : string).

Inductive ServiceQuery :=
| ProgramQuery | EmitOutputQuery | SemanticDiagnosticsQuery | SyntacticDiagnosticsQuery.

(** What a call leaves behind besides its result: logger calls, the queries
    answered by the language service, and the diagnostics handed to the
    reporting policy ([configSet.raiseDiagnostics]). *)
Inductive Event :=
| Warn (m : Message)
| Info (m : Message)
| LogError (m : Message)
| Service (q : ServiceQuery) (fileName : string)
| Raise (diagnostics : list Diagnostic) (filePath : string).

Inductive Result (A : Type) :=
| Ok (a : A)
| Throw (e : Exn).
Arguments Ok {A} a.
Arguments Throw {A} e.

(** ** The monad of methods: state passing with exceptions.  The state that a
    method has reached when it throws is kept. *)
Definition M (S A : Type) : Type := S -> Result A * S.

Definition ret {S A} (a : A) : M S A := fun s => (Ok a, s).

Definition bind {S A B} (m : M S A) (k : A -> M S B) : M S B :=
  fun s => match m s with
           | (Ok a, s') => k a s'
           | (Throw e, s') => (Throw e, s')
           end.

Definition throw {S A} (e : Exn) : M S A := fun s => (Throw e, s).

Definition gets {S A} (f : S -> A) : M S A := fun s => (Ok (f s), s).

Definition modify {S} (f : S -> S) : M S unit := fun s => (Ok tt, f s).

Declare Scope method_scope.
Delimit Scope method_scope with method.
Notation "x <- m ;; k" := (bind m (fun x => k))
  (at level 100, m at next level, right associativity) : method_scope.
Notation "m ;;; k" := (bind m (fun _ => k))
  (at level 100, right associativity) : method_scope.
Open Scope method_scope.

(** [Array.prototype.forEach] and [for ... of] over a list whose elements are
    fixed when the loop starts. *)
Fixpoint forEach {S A} (l : list A) (f : A -> M S unit) : M S unit :=
  match l with
  | [] => ret tt
  | x :: r => f x ;;; forEach r f
  end.

(** ** TypeScript's data *)

(** [ts.ModuleKind], a numeric enum. *)
Inductive ModuleKind :=
| MK_None | CommonJS | AMD | UMD | System | ES2015 | ES2020 | ES2022 | ESNext
| Node16 | NodeNext | Preserve.

Inductive ModuleResolutionKind := Classic | Node10 | MR_Node16 | MR_NodeNext | Bundler.

#[global] Instance ModuleKind_eq_dec : EqDecision ModuleKind.
Proof. solve_decision. Defined.

(** The compiler options the two modules read or write; [otherOptions] stands
    for the remaining ones, which are only copied. *)
Record CompilerOptions := {
  module : option ModuleKind;
  moduleResolution : option ModuleResolutionKind;
  esModuleInterop : option bool;
  customConditions : option (list string);
  allowJs : option bool;
  sourceMap : option bool;
  co_isolatedModules : option bool;
  otherOptions : string;
}.

Record ParsedCommandLine := {
  options : CompilerOptions;
  fileNames : list string;
}.

Record OutputFile := {
  of_name : string;
  of_text : string;
}.

Record EmitOutput := {
  emitSkipped : bool;
  outputFiles : list OutputFile;
}.

Record ResolvedModuleFull := {
  resolvedFileName : string;
  isExternalLibraryImport : bool;
}.

Record TranspileOptions := {
  to_fileName : string;
  to_compilerOptions : CompilerOptions;
  to_reportDiagnostics : option bool;
}.

Record TranspileOutput := {
  outputText : string;
  to_diagnostics : option (list Diagnostic);
  sourceMapText : option string;
}.

(** What the language service can see of its host through the callbacks of
    [serviceHost]: [getProjectVersion], [getScriptFileNames] and
    [getScriptVersion] (the version cache), the script snapshots (the content
    cache) and [getCompilationSettings]. *)
Record HostView := {
  hv_projectVersion : nat;
  hv_scriptVersions : JsMap.t nat;
  hv_scriptSnapshots : JsMap.t (option string);
  hv_compilationSettings : CompilerOptions;
}.

(** The TypeScript module ([configSet.compilerModule], and the [ts] import of
    the transformer): the functions the two source files call.
    [preProcessFile] gives the file names of the [importedFiles] of
    [ts.preProcessFile(text, true, true)], [resolveModuleName] the
    [resolvedModule] of [ts.resolveModuleName].  A language service answers a
    query for a file after asking its host for the snapshots of the scripts
    [scriptsRequested] names. *)
Record TTypeScript := {
  preProcessFile : option string -> list string;
  resolveModuleName : string -> string -> CompilerOptions -> option ResolvedModuleFull;
  transpileModule : string -> TranspileOptions -> TranspileOutput;
  sys_readFile : string -> option string;
  scriptsRequested : HostView -> ServiceQuery -> string -> list string;
  getEmitOutput : HostView -> string -> EmitOutput;
  getSemanticDiagnostics : HostView -> string -> list Diagnostic;
  getSyntacticDiagnostics : HostView -> string -> list Diagnostic;
}.

(** ** jest's data *)

(** An object literal with string values, as its key/value pairs; the spread
    [{...a, ...b}] copies [a] and then sets every pair of [b]. *)
Definition spread {V} (a b : JsMap.t V) : JsMap.t V :=
  fold_left (fun m kv => JsMap.set m (fst kv) (snd kv)) b a.

(** [TsJestTransformerOptions], and the [ts-jest] entry of [globals]. *)
Definition TsJestOptions := JsMap.t string.

Record Globals := {
  tsJestGlobals : option TsJestOptions;
  otherGlobals : string;
}.

(** The fields of a jest project configuration the transformer reads. *)
Record ProjectConfig := {
  globals : option Globals;
  cacheDirectory : option string;
  otherFields : string;
}.

(** A live configuration object: [===] compares [obj_ref], the serialized form
    depends on [obj_fields] alone. *)
Record ConfigObject := {
  obj_ref : nat;
  obj_fields : ProjectConfig;
}.

Record TransformerConfig := {
  tc_useESM : bool;
}.

(** [TsJestTransformOptions]; [cacheFS] is the reference of a [Map] object. *)
Record TsJestTransformOptions := {
  config : ConfigObject;
  cacheFS : nat;
  supportsStaticESM : bool;
  instrument : option bool;
  transformerConfig : TransformerConfig;
}.

Record TransformedSource := {
  ts_code : string;
  ts_map : option string;
}.

Record CompiledOutput := {
  code : string;
  diagnostics : option (list Diagnostic);
}.

(** The [babel-jest] transformer of a configuration, with its two contracts. *)
Record BabelJest := {
  babel_process : string -> string -> TsJestTransformOptions -> TransformedSource;
  babel_processAsync : string -> string -> TsJestTransformOptions -> TransformedSource;
}.

(** [ConfigSet] (./config/config-set): the members the two modules use.
    [raiseDiagnostics] gives the error the reporting policy throws, if it
    throws; [createTsError] is [TSError]. *)
Record ConfigSet := {
  compilerModule : TTypeScript;
  parsedTsConfig : ParsedCommandLine;
  isolatedModules : bool;
  useESM : bool;
  cwd : string;
  rootDir : string;
  tsCacheDir : option string;
  cacheSuffix : string;
  isTestFile : string -> bool;
  shouldReportDiagnostics : string -> bool;
  raiseDiagnostics : list Diagnostic -> string -> option Exn;
  shouldStringifyContent : string -> bool;
  babelJestTransformer : option BabelJest;
}.

(** [TsJestHooksMap.afterProcess]: [None] when the hook returns a falsy value. *)
Record TsJestHooksMap := {
  afterProcess : option (string -> string -> TsJestTransformOptions -> TransformedSource -> option TransformedSource);
}.

(** ** The environment: node, and what the two modules import from the rest of
    the repository.

    [mtimeMs p] is [statSync(p).mtimeMs.toString()], [None] when the file does
    not exist ([statSync] throws, [existsSync] is false). *)
Record Env := {
  ts : TTypeScript;
  normalize : string -> string;
  basename : string -> string;
  path_sep : ascii;
  path_resolve : string -> string -> string;
  mtimeMs : string -> option string;
  argv : list string;
  TS_JEST_HOOKS : option string;
  importer_tryTheseOr : string -> TsJestHooksMap;
  sha1 : list string -> string;
  stringify : ProjectConfig -> string;
  stringifyText : string -> string;
  updateOutput : string -> string -> option string -> string;
  JS_JSX_REGEX : string -> bool;
  TS_TSX_REGEX : string -> bool;
  isModernNodeModuleKind : option ModuleKind -> bool;
  tsTranspileModule : string -> TranspileOptions -> TranspileOutput;
  newConfigSet : ProjectConfig -> ConfigSet;
}.

(** The environment after the modification times have changed. *)
Definition with_mtimeMs (mtimeMs' : string -> option string) (env : Env) : Env :=
  {| ts := ts env; normalize := normalize env; basename := basename env; path_sep := path_sep env;
     path_resolve := path_resolve env; mtimeMs := mtimeMs'; argv := argv env;
     TS_JEST_HOOKS := TS_JEST_HOOKS env; importer_tryTheseOr := importer_tryTheseOr env;
     sha1 := sha1 env; stringify := stringify env; stringifyText := stringifyText env;
     updateOutput := updateOutput env; JS_JSX_REGEX := JS_JSX_REGEX env;
     TS_TSX_REGEX := TS_TSX_REGEX env; isModernNodeModuleKind := isModernNodeModuleKind env;
     tsTranspileModule := tsTranspileModule env; newConfigSet := newConfigSet env |}.

Definition existsSync (env : Env) (p : string) : bool :=
  match mtimeMs env p with Some _ => true | None => false end.

(** Modelled from the spec: the constant [DECLARATION_TYPE_EXT] of ../constants,
    the declaration extension. *)
Definition DECLARATION_TYPE_EXT : string := ".d.ts".

(** A string is falsy when it is [undefined] or empty. *)
Definition truthy (s : option string) : bool :=
  match s with
  | Some (String _ _) => true
  | _ => false
  end.

Definition is_true_opt (b : option bool) : bool :=
  match b with Some true => true | _ => false end.

(** ** The compiler session: [TsCompiler] *)

(** [StringMap]: a [Map] whose values may be [undefined]. *)
Definition StringMap := JsMap.t (option string).

Definition StringMap_get (m : StringMap) (k : string) : option string :=
  match JsMap.get m k with Some v => v | None => None end.

(** The fields of a [TsCompiler].  [runtimeCacheFS] and [_runtimeCacheFS] are
    references of [Map] objects that jest owns; the two caches are the
    compiler's own.  [_cachedReadFile] is the cache of
    [memoize(this._ts.sys.readFile)]; [_languageService] and
    [_moduleResolutionHost] say whether the field is defined. *)
Record TsCompiler := {
  configSet : ConfigSet;
  runtimeCacheFS : nat;
  _runtimeCacheFS : nat;
  _initialCompilerOptions : CompilerOptions;
  _compilerOptions : CompilerOptions;
  _parsedTsConfig : ParsedCommandLine;
  _fileContentCache : option StringMap;
  _fileVersionCache : option (JsMap.t nat);
  _cachedReadFile : option (JsMap.t (option string));
  _projectVersion : nat;
  _languageService : bool;
  _moduleResolutionHost : bool;
}.

(** A compiler together with the part of the process it works on: the heap of
    [Map] objects and the events so far. *)
Record CompilerState := {
  self : TsCompiler;
  maps : list StringMap;
  events : list Event;
}.

Definition with_self (f : TsCompiler -> TsCompiler) (s : CompilerState) : CompilerState :=
  {| self := f (self s); maps := maps s; events := events s |}.

Definition set_runtimeCacheFS (r : nat) (c : TsCompiler) : TsCompiler :=
  {| configSet := configSet c; runtimeCacheFS := runtimeCacheFS c; _runtimeCacheFS := r;
     _initialCompilerOptions := _initialCompilerOptions c; _compilerOptions := _compilerOptions c;
     _parsedTsConfig := _parsedTsConfig c; _fileContentCache := _fileContentCache c;
     _fileVersionCache := _fileVersionCache c; _cachedReadFile := _cachedReadFile c;
     _projectVersion := _projectVersion c; _languageService := _languageService c;
     _moduleResolutionHost := _moduleResolutionHost c |}.

Definition set_compilerOptions (o : CompilerOptions) (c : TsCompiler) : TsCompiler :=
  {| configSet := configSet c; runtimeCacheFS := runtimeCacheFS c; _runtimeCacheFS := _runtimeCacheFS c;
     _initialCompilerOptions := _initialCompilerOptions c; _compilerOptions := o;
     _parsedTsConfig := _parsedTsConfig c; _fileContentCache := _fileContentCache c;
     _fileVersionCache := _fileVersionCache c; _cachedReadFile := _cachedReadFile c;
     _projectVersion := _projectVersion c; _languageService := _languageService c;
     _moduleResolutionHost := _moduleResolutionHost c |}.

Definition set_fileContentCache (m : option StringMap) (c : TsCompiler) : TsCompiler :=
  {| configSet := configSet c; runtimeCacheFS := runtimeCacheFS c; _runtimeCacheFS := _runtimeCacheFS c;
     _initialCompilerOptions := _initialCompilerOptions c; _compilerOptions := _compilerOptions c;
     _parsedTsConfig := _parsedTsConfig c; _fileContentCache := m;
     _fileVersionCache := _fileVersionCache c; _cachedReadFile := _cachedReadFile c;
     _projectVersion := _projectVersion c; _languageService := _languageService c;
     _moduleResolutionHost := _moduleResolutionHost c |}.

Definition set_fileVersionCache (m : option (JsMap.t nat)) (c : TsCompiler) : TsCompiler :=
  {| configSet := configSet c; runtimeCacheFS := runtimeCacheFS c; _runtimeCacheFS := _runtimeCacheFS c;
     _initialCompilerOptions := _initialCompilerOptions c; _compilerOptions := _compilerOptions c;
     _parsedTsConfig := _parsedTsConfig c; _fileContentCache := _fileContentCache c;
     _fileVersionCache := m; _cachedReadFile := _cachedReadFile c;
     _projectVersion := _projectVersion c; _languageService := _languageService c;
     _moduleResolutionHost := _moduleResolutionHost c |}.

Definition set_cachedReadFile (m : option (JsMap.t (option string))) (c : TsCompiler) : TsCompiler :=
  {| configSet := configSet c; runtimeCacheFS := runtimeCacheFS c; _runtimeCacheFS := _runtimeCacheFS c;
     _initialCompilerOptions := _initialCompilerOptions c; _compilerOptions := _compilerOptions c;
     _parsedTsConfig := _parsedTsConfig c; _fileContentCache := _fileContentCache c;
     _fileVersionCache := _fileVersionCache c; _cachedReadFile := m;
     _projectVersion := _projectVersion c; _languageService := _languageService c;
     _moduleResolutionHost := _moduleResolutionHost c |}.

Definition set_projectVersion (n : nat) (c : TsCompiler) : TsCompiler :=
  {| configSet := configSet c; runtimeCacheFS := runtimeCacheFS c; _runtimeCacheFS := _runtimeCacheFS c;
     _initialCompilerOptions := _initialCompilerOptions c; _compilerOptions := _compilerOptions c;
     _parsedTsConfig := _parsedTsConfig c; _fileContentCache := _fileContentCache c;
     _fileVersionCache := _fileVersionCache c; _cachedReadFile := _cachedReadFile c;
     _projectVersion := n; _languageService := _languageService c;
     _moduleResolutionHost := _moduleResolutionHost c |}.

Definition push_event (e : Event) (s : CompilerState) : CompilerState :=
  {| self := self s; maps := maps s; events := (events s ++ [e])%list |}.

(** [Array.from(new Set(xs))]: the first occurrence of each element, in order. *)
Fixpoint setFrom (seen xs : list string) : list string :=
  match xs with
  | [] => []
  | x :: r => if bool_decide (x ∈ seen) then setFrom seen r else x :: setFrom (x :: seen) r
  end.

Definition includes (l : list string) (x : string) : bool := bool_decide (x ∈ l).

Fixpoint mapM {S A B} (f : A -> M S B) (l : list A) : M S (list B) :=
  match l with
  | [] => ret []
  | x :: r => y <- f x ;; ys <- mapM f r ;; ret (y :: ys)
  end.

Record DepGraphInfo := {
  dg_fileContent : string;
  dg_resolvedModuleNames : list string;
}.

(** [TsJestCompileOptions]; [getCompiledOutput] only reads the entries of
    [depGraphs]. *)
Record TsJestCompileOptions := {
  depGraphs : JsMap.t DepGraphInfo;
  opt_supportsStaticESM : bool;
  watchMode : bool;
}.

Section TsCompilerMethods.
Variable env : Env.

(** [this._ts] *)
Definition _ts (c : TsCompiler) : TTypeScript := compilerModule (configSet c).

Definition getMap (r : nat) : M CompilerState StringMap :=
  fun s => match maps s !! r with
           | Some m => (Ok m, s)
           | None => (Throw (TypeError "Map"), s)
           end.

Definition setMapEntry (r : nat) (k : string) (v : option string) : M CompilerState unit :=
  fun s => match maps s !! r with
           | Some m => (Ok tt, {| self := self s; maps := <[r := JsMap.set m k v]> (maps s); events := events s |})
           | None => (Throw (TypeError "Map"), s)
           end.

(** A call of [this._cachedReadFile], the memoized [sys.readFile]. *)
Definition cachedReadFile (memo : JsMap.t (option string)) (p : string) : M CompilerState (option string) :=
  match JsMap.get memo p with
  | Some r => ret r
  | None =>
      c <- gets self ;;
      let r := sys_readFile (_ts c) p in
      modify (with_self (set_cachedReadFile (Some (JsMap.set memo p r)))) ;;;
      ret r
  end.

(** The two caches; they are defined when the language service is. *)
Definition fileContentCache : M CompilerState StringMap :=
  c <- gets self ;;
  match _fileContentCache c with
  | Some m => ret m
  | None => throw (TypeError "_fileContentCache")
  end.

Definition fileVersionCache : M CompilerState (JsMap.t nat) :=
  c <- gets self ;;
  match _fileVersionCache c with
  | Some m => ret m
  | None => throw (TypeError "_fileVersionCache")
  end.

Definition setContent (fileName : string) (contents : option string) : M CompilerState unit :=
  m <- fileContentCache ;;
  modify (with_self (set_fileContentCache (Some (JsMap.set m fileName contents)))).

Definition setVersion (fileName : string) (v : nat) : M CompilerState unit :=
  m <- fileVersionCache ;;
  modify (with_self (set_fileVersionCache (Some (JsMap.set m fileName v)))).

Definition _getFileContentFromCache (filePath : string) : M CompilerState (option string) :=
  let normalizedFilePath := normalize env filePath in
  c <- gets self ;;
  m <- getMap (_runtimeCacheFS c) ;;
  let resolvedFileContent := StringMap_get m normalizedFilePath in
  if truthy resolvedFileContent then ret resolvedFileContent
  else
    match _moduleResolutionHost c, _cachedReadFile c with
    | true, Some memo =>
        resolvedFileContent <- cachedReadFile memo normalizedFilePath ;;
        setMapEntry (_runtimeCacheFS c) normalizedFilePath resolvedFileContent ;;;
        ret resolvedFileContent
    | _, _ => throw (TypeError "_moduleResolutionHost")
    end.

(** [ts.resolveModuleName] probes the file system through
    [this._moduleResolutionHost]; without a host it throws. *)
Definition _resolveModuleName (moduleNameToResolve containingFile : string)
  : M CompilerState (option ResolvedModuleFull) :=
  c <- gets self ;;
  if _moduleResolutionHost c
  then ret (resolveModuleName (_ts c) moduleNameToResolve containingFile (_compilerOptions c))
  else throw (TypeError "_moduleResolutionHost").

Definition _getImportedModulePaths (resolvedFileContent : option string) (containingFile : string)
  : M CompilerState (list string) :=
  c <- gets self ;;
  resolved <- mapM (fun importedFile =>
                resolvedModule <- _resolveModuleName importedFile containingFile ;;
                ret (match resolvedModule with
                     | Some m =>
                         if truthy (Some (resolvedFileName m)) && negb (isExternalLibraryImport m)
                         then resolvedFileName m else ""
                     | None => ""
                     end))
              (preProcessFile (_ts c) resolvedFileContent) ;;
  ret (filter (fun resolveFileName => resolveFileName ≠ "") resolved).

(** The body of [importedModulePaths.forEach(...)].  [forEach] fixes the range
    of indices it visits before the first call of its callback, so the
    elements pushed during the loop are not visited: [visit] is what is left
    of the array as it was when the loop started, [importedModulePaths] the
    array as it is now. *)
Fixpoint expandImportedModulePaths (visit importedModulePaths : list string)
  : M CompilerState (list string) :=
  match visit with
  | [] => ret importedModulePaths
  | importedModulePath :: rest =>
      resolvedFileContent <- _getFileContentFromCache importedModulePath ;;
      nested <- _getImportedModulePaths resolvedFileContent importedModulePath ;;
      expandImportedModulePaths rest
        (importedModulePaths ++ filter (fun modulePath => modulePath ∉ importedModulePaths) nested)
  end.

Definition getResolvedModules (fileContent fileName : string) (runtimeCacheFS' : nat)
  : M CompilerState (list string) :=
  c <- gets self ;;
  m <- getMap (runtimeCacheFS c) ;;
  (if decide (JsMap.size m = 0)
   then modify (with_self (set_runtimeCacheFS runtimeCacheFS'))
   else ret tt) ;;;
  direct <- _getImportedModulePaths (Some fileContent) fileName ;;
  let importedModulePaths := setFrom [] direct in
  expandImportedModulePaths importedModulePaths importedModulePaths.

Definition fixupCompilerOptionsForModuleKind (compilerOptions : CompilerOptions) (isEsm : bool)
  : CompilerOptions :=
  let moduleResolution' := Node10 in
  if negb isEsm then
    {| module := Some CommonJS; moduleResolution := Some moduleResolution';
       esModuleInterop := esModuleInterop compilerOptions; customConditions := None;
       allowJs := allowJs compilerOptions; sourceMap := sourceMap compilerOptions;
       co_isolatedModules := co_isolatedModules compilerOptions;
       otherOptions := otherOptions compilerOptions |}
  else
    let moduleKind := default ESNext (module compilerOptions) in
    let modern := isModernNodeModuleKind env (Some moduleKind) in
    {| module := Some (if modern then ESNext else moduleKind);
       moduleResolution := Some moduleResolution';
       esModuleInterop := if modern then Some true else esModuleInterop compilerOptions;
       customConditions := None;
       allowJs := allowJs compilerOptions; sourceMap := sourceMap compilerOptions;
       co_isolatedModules := co_isolatedModules compilerOptions;
       otherOptions := otherOptions compilerOptions |}.

Definition _isFileInCache (fileName : string) : M CompilerState bool :=
  contents <- fileContentCache ;;
  versions <- fileVersionCache ;;
  ret (JsMap.has contents fileName && JsMap.has versions fileName
       && negb (bool_decide (JsMap.get versions fileName = Some 0))).

Definition increment_projectVersion : M CompilerState unit :=
  modify (with_self (fun c => set_projectVersion (S (_projectVersion c)) c)).

Definition _updateMemoryCache (contents : option string) (fileName : string) (isModuleKindTheSame : bool)
  : M CompilerState unit :=
  hit <- _isFileInCache fileName ;;
  shouldIncrementProjectVersion <-
    (if negb hit then
       setVersion fileName 1 ;;;
       ret true
     else
       versions <- fileVersionCache ;;
       cache <- fileContentCache ;;
       let prevVersion := default 0 (JsMap.get versions fileName) in
       let previousContents := StringMap_get cache fileName in
       changed <- (if bool_decide (previousContents ≠ contents) then
                     setVersion fileName (prevVersion + 1) ;;;
                     setContent fileName contents ;;;
                     ret true
                   else ret false) ;;
       c <- gets self ;;
       if negb (includes (fileNames (_parsedTsConfig c)) fileName) || negb isModuleKindTheSame
       then ret true
       else ret changed) ;;
  if shouldIncrementProjectVersion : bool then increment_projectVersion else ret tt.

(** *** The language-service host *)

Definition hostView (c : TsCompiler) : HostView :=
  {| hv_projectVersion := _projectVersion c;
     hv_scriptVersions := default [] (_fileVersionCache c);
     hv_scriptSnapshots := default [] (_fileContentCache c);
     hv_compilationSettings := _compilerOptions c |}.

(** [serviceHost.getScriptSnapshot]; the result is the text of the snapshot. *)
Definition getScriptSnapshot (fileName : string) : M CompilerState (option string) :=
  let normalizedFileName := normalize env fileName in
  hit <- _isFileInCache normalizedFileName ;;
  (if negb hit then
     cache <- fileContentCache ;;
     c <- gets self ;;
     m <- getMap (_runtimeCacheFS c) ;;
     fileContent <-
       match StringMap_get cache normalizedFileName with
       | Some text => ret (Some text)
       | None =>
           match StringMap_get m normalizedFileName with
           | Some text => ret (Some text)
           | None =>
               match _cachedReadFile c with
               | Some memo => cachedReadFile memo normalizedFileName
               | None => ret None
               end
           end
       end ;;
     match fileContent with
     | Some text =>
         setContent normalizedFileName (Some text) ;;;
         setVersion normalizedFileName 1
     | None => ret tt
     end
   else ret tt) ;;;
  cache <- fileContentCache ;;
  ret (StringMap_get cache normalizedFileName).

(** A query to [this._languageService]: the service takes the snapshots it
    asks for, then answers from what its host shows. *)
Definition askService {A} (q : ServiceQuery) (answer : TTypeScript -> HostView -> string -> A)
    (fileName : string) : M CompilerState A :=
  c <- gets self ;;
  forEach (scriptsRequested (_ts c) (hostView c) q fileName)
          (fun script => getScriptSnapshot script ;;; ret tt) ;;;
  c' <- gets self ;;
  modify (push_event (Service q fileName)) ;;;
  ret (answer (_ts c') (hostView c') fileName).

(** [this.configSet.raiseDiagnostics(diagnostics, filePath, this._logger)] *)
Definition raise (diagnostics : list Diagnostic) (filePath : string) : M CompilerState unit :=
  c <- gets self ;;
  modify (push_event (Raise diagnostics filePath)) ;;;
  match raiseDiagnostics (configSet c) diagnostics filePath with
  | Some e => throw e
  | None => ret tt
  end.

Definition getDiagnostics (fileName : string) : M CompilerState (list Diagnostic) :=
  c <- gets self ;;
  if shouldReportDiagnostics (configSet c) fileName then
    semantic <- askService SemanticDiagnosticsQuery getSemanticDiagnostics fileName ;;
    syntactic <- askService SyntacticDiagnosticsQuery getSyntacticDiagnostics fileName ;;
    ret (semantic ++ syntactic)%list
  else ret [].

(** [_transpileOutput]; the custom transformers it passes on are left out. *)
Definition _transpileOutput (fileContent fileName : string) : M CompilerState TranspileOutput :=
  c <- gets self ;;
  if negb (isModernNodeModuleKind env (module (_initialCompilerOptions c))) then
    ret (transpileModule (_ts c) fileContent
           {| to_fileName := fileName;
              to_compilerOptions := _compilerOptions c;
              to_reportDiagnostics := Some (shouldReportDiagnostics (configSet c) fileName) |})
  else
    ret (tsTranspileModule env fileContent
           {| to_fileName := fileName;
              to_compilerOptions := _initialCompilerOptions c;
              to_reportDiagnostics :=
                Some (if truthy (Some fileName) then shouldReportDiagnostics (configSet c) fileName
                      else false) |}).

(** The body of the watch-mode loop over [options.depGraphs.entries()]. *)
Definition reTypeCheck (fileName : string) (entry : string * DepGraphInfo) : M CompilerState unit :=
  let normalizedModuleNames := map (normalize env) (dg_resolvedModuleNames (snd entry)) in
  let fileToReTypeCheck := fst entry in
  c <- gets self ;;
  if includes normalizedModuleNames fileName
     && shouldReportDiagnostics (configSet c) fileToReTypeCheck
  then
    contents <- _getFileContentFromCache fileToReTypeCheck ;;
    _updateMemoryCache contents fileToReTypeCheck true ;;;
    semantic <- askService SemanticDiagnosticsQuery getSemanticDiagnostics fileToReTypeCheck ;;
    syntactic <- askService SyntacticDiagnosticsQuery getSyntacticDiagnostics fileToReTypeCheck ;;
    raise (semantic ++ syntactic)%list fileName
  else ret tt.

(** [getCompiledOutput] in its steps.  The first: the statements before
    [if (this._languageService)], which fix [this._compilerOptions]; the
    result is [isEsmMode]. *)
Definition prepareCompilerOptions (options : TsJestCompileOptions) : M CompilerState bool :=
  c0 <- gets self ;;
  let isEsmMode := useESM (configSet c0) && opt_supportsStaticESM options in
  modify (with_self (set_compilerOptions
            (fixupCompilerOptionsForModuleKind (_initialCompilerOptions c0) isEsmMode))) ;;;
  (if negb (is_true_opt (co_isolatedModules (_initialCompilerOptions c0)))
      && isModernNodeModuleKind env (module (_initialCompilerOptions c0))
   then modify (push_event (Warn UsingModernNodeResolution))
   else ret tt) ;;;
  ret isEsmMode.

(** The second, with the language service: the memory cache is updated, the
    service emits, the diagnostics of the file are computed and, outside ESM
    mode and when there are any, handed to the reporting policy; in watch
    mode the files that depend on this one are then checked again. *)
Definition emitAndDiagnose (fileContent fileName : string) (options : TsJestCompileOptions)
    (isEsmMode : bool) : M CompilerState (EmitOutput * list Diagnostic) :=
  c <- gets self ;;
  let moduleKind := module (_initialCompilerOptions c) in
  let currentModuleKind := module (_compilerOptions c) in
  _updateMemoryCache (Some fileContent) fileName (bool_decide (currentModuleKind = moduleKind)) ;;;
  output <- askService EmitOutputQuery getEmitOutput fileName ;;
  diagnostics' <- getDiagnostics fileName ;;
  (if negb isEsmMode && negb (bool_decide (diagnostics' = [])) then
     raise diagnostics' fileName ;;;
     if watchMode options
     then forEach (JsMap.entries (depGraphs options)) (reTypeCheck fileName)
     else ret tt
   else ret tt) ;;;
  ret (output, diagnostics').

(** The third: what is returned or thrown for the emit output. *)
Definition finishOutput (fileContent fileName : string) (output : EmitOutput)
    (diagnostics' : list Diagnostic) : M CompilerState CompiledOutput :=
  if emitSkipped output then
    if TS_TSX_REGEX env fileName then throw (CannotProcessFile fileName)
    else
      modify (push_event (Warn (CannotProcessFileReturnOriginal fileName))) ;;;
      ret {| code := fileContent; diagnostics := None |}
  else
    match outputFiles output with
    | [] => throw (UnableToRequireDefinitionFile (basename env fileName))
    | file0 :: more =>
        c <- gets self ;;
        if is_true_opt (sourceMap (_compilerOptions c)) then
          match more with
          | file1 :: _ =>
              ret {| code := updateOutput env (of_text file1) fileName (Some (of_text file0));
                     diagnostics := Some diagnostics' |}
          | [] => throw (TypeError "outputFiles[1]")
          end
        else
          ret {| code := updateOutput env (of_text file0) fileName None;
                 diagnostics := Some diagnostics' |}
    end.

(** Without a language service: the file is transpiled on its own. *)
Definition compileIsolated (fileContent fileName : string) (isEsmMode : bool)
  : M CompilerState CompiledOutput :=
  c <- gets self ;;
  (if isEsmMode && bool_decide (module (_initialCompilerOptions c) = Some CommonJS)
   then modify (push_event (LogError InvalidModuleKindForEsm))
   else ret tt) ;;;
  result <- _transpileOutput fileContent fileName ;;
  match to_diagnostics result with
  | Some ds => if shouldReportDiagnostics (configSet c) fileName then raise ds fileName else ret tt
  | None => ret tt
  end ;;;
  ret {| code := updateOutput env (outputText result) fileName (sourceMapText result);
         diagnostics := None |}.

Definition getCompiledOutput (fileContent fileName : string) (options : TsJestCompileOptions)
  : M CompilerState CompiledOutput :=
  isEsmMode <- prepareCompilerOptions options ;;
  c <- gets self ;;
  if _languageService c then
    if JS_JSX_REGEX env fileName && negb (is_true_opt (allowJs (_compilerOptions c))) then
      modify (push_event (Warn (GotJsFileButAllowJsFalse fileName))) ;;;
      ret {| code := fileContent; diagnostics := None |}
    else
      emitted <- emitAndDiagnose fileContent fileName options isEsmMode ;;
      finishOutput fileContent fileName (fst emitted) (snd emitted)
  else compileIsolated fileContent fileName isEsmMode.

(** The constructor, with [_createLanguageService]: [getProgram] makes the
    service read its host. *)
Definition newTsCompiler (configSet' : ConfigSet) (runtimeCacheFS' : nat) : TsCompiler :=
  let full := negb (isolatedModules configSet') in
  let names := filter (fun fileName => TS_TSX_REGEX env fileName = true
                                       ∧ isTestFile configSet' fileName = false)
                      (fileNames (parsedTsConfig configSet')) in
  {| configSet := configSet';
     runtimeCacheFS := runtimeCacheFS';
     _runtimeCacheFS := runtimeCacheFS';
     _initialCompilerOptions := options (parsedTsConfig configSet');
     _compilerOptions := options (parsedTsConfig configSet');
     _parsedTsConfig := parsedTsConfig configSet';
     _fileContentCache := if full then Some [] else None;
     _fileVersionCache :=
       if full then Some (fold_left (fun m fileName => JsMap.set m fileName 0) names []) else None;
     _cachedReadFile := if full then Some [] else None;
     _projectVersion := 1;
     _languageService := full;
     _moduleResolutionHost := full |}.

Definition getProgram : M CompilerState unit :=
  c <- gets self ;;
  if _languageService c then
    forEach (scriptsRequested (_ts c) (hostView c) ProgramQuery "")
            (fun script => getScriptSnapshot script ;;; ret tt)
  else ret tt.

End TsCompilerMethods.

(** *** More of the language-service host

    [serviceHost.getProjectVersion], [getScriptFileNames] and
    [getScriptVersion]; [String(n)] of a natural number is its decimal
    numeral, and the version of a file without one is [undefined]. *)
Definition getProjectVersion : M CompilerState string :=
  c <- gets self ;;
  ret (pretty (_projectVersion c)).

Definition getScriptFileNames : M CompilerState (list string) :=
  versions <- fileVersionCache ;;
  ret (JsMap.keys versions).

Definition getScriptVersion (env : Env) (fileName : string) : M CompilerState (option string) :=
  let normalizedFileName := normalize env fileName in
  versions <- fileVersionCache ;;
  let version := JsMap.get versions normalizedFileName in
  ret (match version with
       | None => None
       | Some v => Some (pretty v)
       end).

(** ** The transformer: [TsJestTransformer] *)

(** [JsonableValue] (../utils): a value kept together with its serialized
    form; setting the value serializes it again. *)
Record JsonableValue := {
  jv_value : ConfigObject;
  jv_serialized : string;
}.

Definition newJsonableValue (env : Env) (value : ConfigObject) : JsonableValue :=
  {| jv_value := value; jv_serialized := stringify env (obj_fields value) |}.

(** [CachedConfigSet]; [compiler] and [depGraphs] are references. *)
Record CachedConfigSet := {
  ccs_configSet : ConfigSet;
  ccs_jestConfig : JsonableValue;
  ccs_transformerCfgStr : string;
  ccs_compiler : nat;
  ccs_depGraphs : nat;
  ccs_watchMode : bool;
}.

(** The fields of a transformer; [_compiler] and [_transformCfgStr] are
    undefined until [_configsFor] has run. *)
Record TsJestTransformer := {
  transformerOptions : option TsJestOptions;
  _compiler : option nat;
  _transformCfgStr : option string;
  _depGraphs : nat;
  _watchMode : bool;
}.

(** The node process as the transformer [this] sees it: the static registry
    [TsJestTransformer._cachedConfigSets], the heaps of compilers, of
    dependency-graph maps and of [Map<string, string>] objects, and the
    events so far. *)
Record Process := {
  _cachedConfigSets : list CachedConfigSet;
  this : TsJestTransformer;
  heap_compilers : list TsCompiler;
  heap_depGraphs : list (JsMap.t DepGraphInfo);
  heap_maps : list StringMap;
  trace : list Event;
}.

Definition set_cachedConfigSets (l : list CachedConfigSet) (p : Process) : Process :=
  {| _cachedConfigSets := l; this := this p; heap_compilers := heap_compilers p;
     heap_depGraphs := heap_depGraphs p; heap_maps := heap_maps p; trace := trace p |}.

Definition set_this (t : TsJestTransformer) (p : Process) : Process :=
  {| _cachedConfigSets := _cachedConfigSets p; this := t; heap_compilers := heap_compilers p;
     heap_depGraphs := heap_depGraphs p; heap_maps := heap_maps p; trace := trace p |}.

Definition set_heap_depGraphs (h : list (JsMap.t DepGraphInfo)) (p : Process) : Process :=
  {| _cachedConfigSets := _cachedConfigSets p; this := this p; heap_compilers := heap_compilers p;
     heap_depGraphs := h; heap_maps := heap_maps p; trace := trace p |}.

Definition push_trace (e : Event) (p : Process) : Process :=
  {| _cachedConfigSets := _cachedConfigSets p; this := this p; heap_compilers := heap_compilers p;
     heap_depGraphs := heap_depGraphs p; heap_maps := heap_maps p; trace := (trace p ++ [e])%list |}.

(** The assignments to [this._transformCfgStr], [this._compiler],
    [this._depGraphs] and [this._watchMode] from a registry record. *)
Definition adopt (ccs : CachedConfigSet) (t : TsJestTransformer) : TsJestTransformer :=
  {| transformerOptions := transformerOptions t;
     _compiler := Some (ccs_compiler ccs);
     _transformCfgStr := Some (ccs_transformerCfgStr ccs);
     _depGraphs := ccs_depGraphs ccs;
     _watchMode := ccs_watchMode ccs |}.

Definition set_transformCfgStr (str : string) (t : TsJestTransformer) : TsJestTransformer :=
  {| transformerOptions := transformerOptions t; _compiler := _compiler t;
     _transformCfgStr := Some str; _depGraphs := _depGraphs t; _watchMode := _watchMode t |}.

Definition set_watchMode (b : bool) (t : TsJestTransformer) : TsJestTransformer :=
  {| transformerOptions := transformerOptions t; _compiler := _compiler t;
     _transformCfgStr := _transformCfgStr t; _depGraphs := _depGraphs t; _watchMode := b |}.

(** [new TsJestTransformer(transformerOptions)]: the field initializer
    allocates the transformer's own dependency-graph map. *)
Definition newTsJestTransformer (transformerOptions' : option TsJestOptions) (p : Process) : Process :=
  {| _cachedConfigSets := _cachedConfigSets p;
     this := {| transformerOptions := transformerOptions'; _compiler := None;
                _transformCfgStr := None; _depGraphs := length (heap_depGraphs p);
                _watchMode := false |};
     heap_compilers := heap_compilers p;
     heap_depGraphs := (heap_depGraphs p ++ [[]])%list;
     heap_maps := heap_maps p;
     trace := trace p |}.

(** [sourcePath.endsWith(suffix)] *)
Definition endsWith (s suffix : string) : bool :=
  let n := String.length s in
  let m := String.length suffix in
  if Nat.leb m n then bool_decide (String.substring (n - m) m s = suffix) else false.

(** [s.split(sep)] for a separator of one character. *)
Fixpoint split_from (sep : ascii) (current : string) (s : string) : list string :=
  match s with
  | EmptyString => [current]
  | String c r =>
      if Ascii.eqb c sep then current :: split_from sep "" r
      else split_from sep (current ++ String c "") r
  end.

Definition split (sep : ascii) (s : string) : list string := split_from sep "" s.

Definition CACHE_KEY_EL_SEPARATOR : string := String (ascii_of_nat 0) "".

(** The two tests of [_cachedConfigSets.find]: [cs.jestConfig.value === config]
    and [cs.jestConfig.serialized === serializedJestCfg]. *)
Definition sameObject (config' : ConfigObject) (cs : CachedConfigSet) : Prop :=
  obj_ref (jv_value (ccs_jestConfig cs)) = obj_ref config'.

Definition sameSerialized (serializedJestCfg : string) (cs : CachedConfigSet) : Prop :=
  jv_serialized (ccs_jestConfig cs) = serializedJestCfg.

#[global] Instance sameObject_dec config' cs : Decision (sameObject config' cs).
Proof. unfold sameObject. apply _. Defined.

#[global] Instance sameSerialized_dec serializedJestCfg cs :
  Decision (sameSerialized serializedJestCfg cs).
Proof. unfold sameSerialized. apply _. Defined.

Section TsJestTransformerMethods.
Variable env : Env.

Definition isNodeModule (filePath : string) : bool :=
  includes (split (path_sep env) (normalize env filePath)) "node_modules".

(** A method of [this._compiler] ([TsJestCompiler], which hands the call to
    its [TsCompiler]) run on the compiler object in the heap. *)
Definition onCompiler {A} (m : M CompilerState A) : M Process A :=
  fun p =>
    match _compiler (this p) with
    | None => (Throw (TypeError "_compiler"), p)
    | Some r =>
        match heap_compilers p !! r with
        | None => (Throw (TypeError "_compiler"), p)
        | Some c =>
            let out := m {| self := c; maps := heap_maps p; events := trace p |} in
            (fst out,
             {| _cachedConfigSets := _cachedConfigSets p; this := this p;
                heap_compilers := <[r := self (snd out)]> (heap_compilers p);
                heap_depGraphs := heap_depGraphs p;
                heap_maps := maps (snd out);
                trace := events (snd out) |})
        end
    end.

(** [this._createCompiler(configSet, cacheFS)]: the new compiler is stored and
    assigned to [this._compiler] when its constructor returns.  The record
    pushed afterwards reads [this._compiler], which is then defined. *)
Definition _createCompiler (configSet' : ConfigSet) (cacheFS' : nat) : M Process unit :=
  fun p =>
    let out := getProgram env {| self := newTsCompiler env configSet' cacheFS';
                                 maps := heap_maps p; events := trace p |} in
    match fst out with
    | Ok _ =>
        (Ok tt,
         {| _cachedConfigSets := _cachedConfigSets p;
            this := {| transformerOptions := transformerOptions (this p);
                       _compiler := Some (length (heap_compilers p));
                       _transformCfgStr := _transformCfgStr (this p);
                       _depGraphs := _depGraphs (this p); _watchMode := _watchMode (this p) |};
            heap_compilers := (heap_compilers p ++ [self (snd out)])%list;
            heap_depGraphs := heap_depGraphs p;
            heap_maps := maps (snd out);
            trace := events (snd out) |})
    | Throw e =>
        (Throw e,
         {| _cachedConfigSets := _cachedConfigSets p; this := this p;
            heap_compilers := heap_compilers p; heap_depGraphs := heap_depGraphs p;
            heap_maps := maps (snd out); trace := events (snd out) |})
    end.

(** The configuration that the new [ConfigSet] is made from. *)
Definition migratedConfig (transformerOptions' : option TsJestOptions) (config' : ProjectConfig)
  : ProjectConfig :=
  let jestGlobalsConfig :=
    default {| tsJestGlobals := None; otherGlobals := "" |} (globals config') in
  let tsJestGlobalsConfig := default [] (tsJestGlobals jestGlobalsConfig) in
  match transformerOptions' with
  | Some opts =>
      {| globals := Some {| tsJestGlobals := Some (spread tsJestGlobalsConfig opts);
                            otherGlobals := otherGlobals jestGlobalsConfig |};
         cacheDirectory := cacheDirectory config';
         otherFields := otherFields config' |}
  | None => config'
  end.

Definition _configsFor (transformOptions : TsJestTransformOptions) : M Process ConfigSet :=
  let config' := config transformOptions in
  registry <- gets _cachedConfigSets ;;
  match list_find (sameObject config') registry with
  | Some (_, ccs) =>
      modify (fun p => set_this (adopt ccs (this p)) p) ;;;
      ret (ccs_configSet ccs)
  | None =>
      let serializedJestCfg := stringify env (obj_fields config') in
      match list_find (sameSerialized serializedJestCfg) registry with
      | Some (i, serializedCcs) =>
          let patched :=
            {| ccs_configSet := ccs_configSet serializedCcs;
               ccs_jestConfig := newJsonableValue env config';
               ccs_transformerCfgStr := ccs_transformerCfgStr serializedCcs;
               ccs_compiler := ccs_compiler serializedCcs;
               ccs_depGraphs := ccs_depGraphs serializedCcs;
               ccs_watchMode := ccs_watchMode serializedCcs |} in
          modify (set_cachedConfigSets (<[i := patched]> registry)) ;;;
          modify (fun p => set_this (adopt patched (this p)) p) ;;;
          ret (ccs_configSet serializedCcs)
      | None =>
          modify (push_trace (Info NoMatchingConfigSet)) ;;;
          (match globals (obj_fields config') with
           | Some {| tsJestGlobals := Some _ |} => modify (push_trace (Warn GlobalsTsJestConfigOption))
           | _ => ret tt
           end) ;;;
          t <- gets this ;;
          let migrated := migratedConfig (transformerOptions t) (obj_fields config') in
          let configSet' := newConfigSet env migrated in
          let jest :=
            {| globals := globals migrated; cacheDirectory := None;
               otherFields := otherFields migrated |} in
          let transformCfgStr := (stringify env jest ++ cacheSuffix configSet')%string in
          modify (fun p => set_this (set_transformCfgStr transformCfgStr (this p)) p) ;;;
          _createCompiler configSet' (cacheFS transformOptions) ;;;
          modify (fun p => set_this (set_watchMode (includes (argv env) "--watch") (this p)) p) ;;;
          t' <- gets this ;;
          modify (fun p => set_cachedConfigSets
                             (_cachedConfigSets p
                              ++ [{| ccs_jestConfig := newJsonableValue env config';
                                     ccs_configSet := configSet';
                                     ccs_transformerCfgStr := transformCfgStr;
                                     ccs_compiler := default 0 (_compiler t');
                                     ccs_depGraphs := _depGraphs t';
                                     ccs_watchMode := _watchMode t' |}])%list p) ;;;
          ret configSet'
      end
  end.

Definition with_instrument (b : bool) (o : TsJestTransformOptions) : TsJestTransformOptions :=
  {| config := config o; cacheFS := cacheFS o; supportsStaticESM := supportsStaticESM o;
     instrument := Some b; transformerConfig := transformerConfig o |}.

Definition with_module (m : ModuleKind) (o : CompilerOptions) : CompilerOptions :=
  {| module := Some m; moduleResolution := moduleResolution o;
     esModuleInterop := esModuleInterop o; customConditions := customConditions o;
     allowJs := allowJs o; sourceMap := sourceMap o;
     co_isolatedModules := co_isolatedModules o; otherOptions := otherOptions o |}.

(** The dependency-graph map [this._depGraphs] refers to. *)
Definition depGraphsOfThis : M Process (JsMap.t DepGraphInfo) :=
  fun p => match heap_depGraphs p !! _depGraphs (this p) with
           | Some m => (Ok m, p)
           | None => (Throw (TypeError "_depGraphs"), p)
           end.

Definition processWithTs (sourceText sourcePath : string) (transformOptions : TsJestTransformOptions)
  : M Process CompiledOutput :=
  configs <- _configsFor transformOptions ;;
  let shouldStringifyContent' := shouldStringifyContent configs sourcePath in
  let babelJest := if shouldStringifyContent' then None else babelJestTransformer configs in
  let isDefinitionFile := endsWith sourcePath DECLARATION_TYPE_EXT in
  let isJsFile := JS_JSX_REGEX env sourcePath in
  let isTsFile := negb isDefinitionFile && TS_TSX_REGEX env sourcePath in
  if shouldStringifyContent' then
    ret {| code := ("module.exports=" ++ stringifyText env sourceText)%string; diagnostics := None |}
  else if isDefinitionFile then
    ret {| code := ""; diagnostics := None |}
  else if isJsFile || isTsFile then
    if isJsFile && isNodeModule sourcePath then
      let transpiledResult :=
        transpileModule (ts env) sourceText
          {| to_fileName := sourcePath;
             to_compilerOptions :=
               with_module (if supportsStaticESM transformOptions
                               && tc_useESM (transformerConfig transformOptions)
                            then ESNext else CommonJS)
                           (options (parsedTsConfig configs));
             to_reportDiagnostics := None |} in
      ret {| code := updateOutput env (outputText transpiledResult) sourcePath
                       (sourceMapText transpiledResult);
             diagnostics := None |}
    else
      graphs <- depGraphsOfThis ;;
      t <- gets this ;;
      onCompiler (getCompiledOutput env sourceText sourcePath
                    {| depGraphs := graphs;
                       opt_supportsStaticESM := supportsStaticESM transformOptions;
                       watchMode := _watchMode t |})
  else
    modify (push_trace (Warn (match babelJest with
                              | Some _ => GotUnknownFileTypeWithBabel sourcePath
                              | None => GotUnknownFileTypeWithoutBabel sourcePath
                              end))) ;;;
    ret {| code := sourceText; diagnostics := None |}.

Definition runTsJestHook (sourcePath sourceText : string) (transformOptions : TsJestTransformOptions)
    (compiledOutput : TransformedSource) : M Process TransformedSource :=
  hooks <- match TS_JEST_HOOKS env with
           | Some (String c f) =>
               configs <- _configsFor transformOptions ;;
               ret (Some (importer_tryTheseOr env (path_resolve env (cwd configs) (String c f))))
           | _ => ret None
           end ;;
  match hooks with
  | Some {| afterProcess := Some hook |} =>
      match hook sourceText sourcePath transformOptions compiledOutput with
      | Some newResult => ret newResult
      | None => ret compiledOutput
      end
  | _ => ret compiledOutput
  end.

Definition process (sourceText sourcePath : string) (transformOptions : TsJestTransformOptions)
  : M Process TransformedSource :=
  configs <- _configsFor transformOptions ;;
  let shouldStringifyContent' := shouldStringifyContent configs sourcePath in
  let babelJest := if shouldStringifyContent' then None else babelJestTransformer configs in
  processWithTsResult <- processWithTs sourceText sourcePath transformOptions ;;
  let result := {| ts_code := code processWithTsResult; ts_map := None |} in
  let result :=
    match babelJest with
    | Some babel => babel_process babel (ts_code result) sourcePath (with_instrument false transformOptions)
    | None => result
    end in
  runTsJestHook sourcePath sourceText transformOptions result.

(** [processAsync]; the promise it returns is settled before the caller goes
    on, so a rejection is a throw. *)
Definition processAsync (sourceText sourcePath : string) (transformOptions : TsJestTransformOptions)
  : M Process TransformedSource :=
  configs <- _configsFor transformOptions ;;
  let shouldStringifyContent' := shouldStringifyContent configs sourcePath in
  let babelJest := if shouldStringifyContent' then None else babelJestTransformer configs in
  processWithTsResult <- processWithTs sourceText sourcePath transformOptions ;;
  let result := {| ts_code := code processWithTsResult; ts_map := None |} in
  match diagnostics processWithTsResult with
  | Some (d :: ds) => throw (TSError (d :: ds))
  | _ =>
      let result :=
        match babelJest with
        | Some babel =>
            babel_processAsync babel (ts_code result) sourcePath (with_instrument false transformOptions)
        | None => result
        end in
      runTsJestHook sourcePath sourceText transformOptions result
  end.

(** [statSync(moduleName).mtimeMs.toString()] *)
Definition statSync_mtimeMs (moduleName : string) : M Process string :=
  match mtimeMs env moduleName with
  | Some t => ret t
  | None => throw (ENOENT moduleName)
  end.

Definition onoff (b : bool) : string := if b then "on" else "off".

(** The elements pushed for the resolved modules. *)
Fixpoint pushModuleElements (resolvedModuleNames : list string) (elements : list string)
  : M Process (list string) :=
  match resolvedModuleNames with
  | [] => ret elements
  | moduleName :: rest =>
      t <- statSync_mtimeMs moduleName ;;
      pushModuleElements rest
        (elements ++ [CACHE_KEY_EL_SEPARATOR; moduleName; CACHE_KEY_EL_SEPARATOR; t])
  end.

Definition setDepGraph (filePath : string) (info : DepGraphInfo) : M Process unit :=
  graphs <- depGraphsOfThis ;;
  modify (fun p => set_heap_depGraphs
                     (<[_depGraphs (this p) := JsMap.set graphs filePath info]> (heap_depGraphs p)) p).

(** The value of [resolvedModuleNames] in [getCacheKey]: the modules recorded
    for the file that still exist when the recorded content is the content
    given, and else the modules the compiler resolves, which are recorded. *)
Definition resolvedModuleNamesOf (fileContent filePath : string)
    (transformOptions : TsJestTransformOptions) : M Process (list string) :=
  graphs <- depGraphsOfThis ;;
  let fromTypeScript :=
    resolved <- onCompiler (getResolvedModules env fileContent filePath
                              (cacheFS transformOptions)) ;;
    setDepGraph filePath
      {| dg_fileContent := fileContent; dg_resolvedModuleNames := resolved |} ;;;
    ret resolved in
  match JsMap.get graphs filePath with
  | Some info =>
      if bool_decide (dg_fileContent info = fileContent)
      then ret (filter (fun moduleName => existsSync env moduleName = true)
                       (dg_resolvedModuleNames info))
      else fromTypeScript
  | None => fromTypeScript
  end.

(** The first eleven elements of [constructingCacheKeyElements]. *)
Definition firstElements (transformCfgStr rootDir' fileContent filePath : string)
    (transformOptions : TsJestTransformOptions) : list string :=
  [ transformCfgStr; CACHE_KEY_EL_SEPARATOR;
    rootDir'; CACHE_KEY_EL_SEPARATOR;
    ("instrument:" ++ onoff (default false (instrument transformOptions)))%string;
    CACHE_KEY_EL_SEPARATOR;
    ("supportsStaticESM:" ++ onoff (supportsStaticESM transformOptions))%string;
    CACHE_KEY_EL_SEPARATOR;
    fileContent; CACHE_KEY_EL_SEPARATOR;
    filePath ].

(** The array [constructingCacheKeyElements] when it is handed to [sha1]. *)
Definition cacheKeyElements (fileContent filePath : string) (transformOptions : TsJestTransformOptions)
  : M Process (list string) :=
  configs <- _configsFor transformOptions ;;
  t <- gets this ;;
  transformCfgStr <- match _transformCfgStr t with
                     | Some s => ret s
                     | None => throw (TypeError "_transformCfgStr")
                     end ;;
  let constructingCacheKeyElements :=
    firstElements transformCfgStr (rootDir configs) fileContent filePath transformOptions in
  if negb (isolatedModules configs) && truthy (tsCacheDir configs) then
    resolvedModuleNames <- resolvedModuleNamesOf fileContent filePath transformOptions ;;
    pushModuleElements resolvedModuleNames constructingCacheKeyElements
  else ret constructingCacheKeyElements.

Definition getCacheKey (fileContent filePath : string) (transformOptions : TsJestTransformOptions)
  : M Process string :=
  elements <- cacheKeyElements fileContent filePath transformOptions ;;
  ret (sha1 env elements).

End TsJestTransformerMethods.

(** ** Example worlds: a project of four files, a TypeScript module and an
    environment to run the methods in *)
Module Demo.

Definition compilerOptions (m : option ModuleKind) (js : bool) : CompilerOptions :=
  {| module := m; moduleResolution := None; esModuleInterop := None; customConditions := None;
     allowJs := if js then Some true else None; sourceMap := None; co_isolatedModules := None;
     otherOptions := "" |}.

(** A project of four files: a imports b, b imports c, c imports d. *)
Definition disk (p : string) : option string :=
  match p with
  | "/p/a.ts" => Some "import './b'"
  | "/p/b.ts" => Some "import './c'"
  | "/p/c.ts" => Some "import './d'"
  | "/p/d.ts" => Some "export {}"
  | "/p/twice.ts" => Some "import './c'; import './c'"
  | _ => None
  end.

Definition imports (text : option string) : list string :=
  match text with
  | Some "import './b'" => ["./b"]
  | Some "import './c'" => ["./c"]
  | Some "import './d'" => ["./d"]
  | Some "import './twice'" => ["./twice"]
  | Some "import './c'; import './c'" => ["./c"; "./c"]
  | Some "import './gone'" => ["./gone"]
  | Some "import './b'; import 'fs'" => ["./b"; "fs"]
  | _ => []
  end.

Definition resolve (name containing : string) (_ : CompilerOptions) : option ResolvedModuleFull :=
  match name with
  | "./b" => Some {| resolvedFileName := "/p/b.ts"; isExternalLibraryImport := false |}
  | "./c" => Some {| resolvedFileName := "/p/c.ts"; isExternalLibraryImport := false |}
  | "./d" => Some {| resolvedFileName := "/p/d.ts"; isExternalLibraryImport := false |}
  | "./twice" => Some {| resolvedFileName := "/p/twice.ts"; isExternalLibraryImport := false |}
  | "./gone" => Some {| resolvedFileName := "/p/gone.ts"; isExternalLibraryImport := false |}
  | _ => None
  end.

Definition echo (text : string) (_ : TranspileOptions) : TranspileOutput :=
  {| outputText := text; to_diagnostics := None; sourceMapText := None |}.

(** A TypeScript module whose language service reads the scripts of its host
    when the program is made and the file asked about afterwards, reports
    [diagnose f] for the file [f] and skips the emit of the files [skip] holds
    for. *)
Definition typescript (diagnose : string -> list Diagnostic) (skip : string -> bool) : TTypeScript :=
  {| preProcessFile := imports;
     resolveModuleName := resolve;
     transpileModule := echo;
     sys_readFile := disk;
     scriptsRequested := fun view q f =>
       match q with
       | ProgramQuery => JsMap.keys (hv_scriptVersions view)
       | _ => [f]
       end;
     getEmitOutput := fun _ f =>
       {| emitSkipped := skip f;
          outputFiles := if skip f then [] else [{| of_name := f; of_text := "js" |}] |};
     getSemanticDiagnostics := fun _ f => diagnose f;
     getSyntacticDiagnostics := fun _ _ => [] |}.

Definition quiet : TTypeScript := typescript (fun _ => []) (fun _ => false).

Definition configSet (tsm : TTypeScript) (co : CompilerOptions) (isolated throws : bool)
    (stringifies : string -> bool) : ConfigSet :=
  {| compilerModule := tsm;
     parsedTsConfig := {| options := co; fileNames := ["/p/a.ts"] |};
     isolatedModules := isolated; useESM := false; cwd := "/p"; rootDir := "/p";
     tsCacheDir := Some "/tmp/cache"; cacheSuffix := "";
     isTestFile := fun _ => false;
     shouldReportDiagnostics := fun _ => true;
     raiseDiagnostics := fun ds _ => if throws then Some (TSError ds) else None;
     shouldStringifyContent := stringifies;
     babelJestTransformer := None |}.

Fixpoint ones (n : nat) : string :=
  match n with
  | 0 => ""
  | S k => String "1" (ones k)
  end.

(** A digest without collisions: every element behind its length in unary. *)
Fixpoint digest (l : list string) : string :=
  match l with
  | [] => ""
  | s :: r => ones (String.length s) ++ String "0" (s ++ digest r)
  end.

Definition env (cs : ConfigSet) (mtime : string -> option string) (args : list string) : Env :=
  {| ts := compilerModule cs; normalize := fun p => p; basename := fun p => p; path_sep := "/"%char;
     path_resolve := fun _ f => f;
     mtimeMs := mtime;
     argv := args; TS_JEST_HOOKS := None;
     importer_tryTheseOr := fun _ => {| afterProcess := None |};
     sha1 := digest;
     stringify := otherFields; stringifyText := fun s => s;
     updateOutput := fun text _ _ => text;
     JS_JSX_REGEX := fun p => endsWith p ".js" || endsWith p ".jsx";
     TS_TSX_REGEX := fun p => endsWith p ".ts" || endsWith p ".tsx";
     isModernNodeModuleKind := fun m => bool_decide (m = Some Node16 \/ m = Some NodeNext);
     tsTranspileModule := echo;
     newConfigSet := fun _ => cs |}.

Definition mtime (t : string) (p : string) : option string :=
  match disk p with Some _ => Some t | None => None end.

(** A process with one [Map] object, jest's [cacheFS], and one transformer. *)
Definition start : Process :=
  newTsJestTransformer None
    {| _cachedConfigSets := [];
       this := {| transformerOptions := None; _compiler := None; _transformCfgStr := None;
                  _depGraphs := 0; _watchMode := false |};
       heap_compilers := []; heap_depGraphs := []; heap_maps := [[]]; trace := [] |}.

Definition jestConfig (r : nat) (fields : string) : ConfigObject :=
  {| obj_ref := r;
     obj_fields := {| globals := None; cacheDirectory := None; otherFields := fields |} |}.

Definition transformOptions (c : ConfigObject) : TsJestTransformOptions :=
  {| config := c; cacheFS := 0; supportsStaticESM := false; instrument := None;
     transformerConfig := {| tc_useESM := false |} |}.

(** A compiler of the project as its constructor leaves it. *)
Definition session (e : Env) (cs : ConfigSet) : CompilerState :=
  snd (getProgram e {| self := newTsCompiler e cs 0; maps := [[]]; events := [] |}).

Definition compileOptions (graphs : JsMap.t DepGraphInfo) (watch : bool) : TsJestCompileOptions :=
  {| depGraphs := graphs; opt_supportsStaticESM := false; watchMode := watch |}.

End Demo.

(** The configurations of the examples: the language service with and
    without a [module] in the tsconfig, isolated modules, a reporting policy
    that throws, and a pattern that stringifies every path. *)
Definition d2322 : Diagnostic := {| diag_code := 2322; diag_messageText := "bad" |}.

Definition full : ConfigSet :=
  Demo.configSet Demo.quiet (Demo.compilerOptions None false) false false (fun _ => false).

Definition commonjs : ConfigSet :=
  Demo.configSet Demo.quiet (Demo.compilerOptions (Some CommonJS) false) false false (fun _ => false).

Definition isolated : ConfigSet :=
  Demo.configSet Demo.quiet (Demo.compilerOptions None false) true false (fun _ => false).

Definition stringifying : ConfigSet :=
  Demo.configSet Demo.quiet (Demo.compilerOptions None false) false false (fun _ => true).

Definition noisy : ConfigSet :=
  Demo.configSet (Demo.typescript (fun f => if bool_decide (f = "/p/b.ts") then [d2322] else [])
                                  (fun _ => false))
                 (Demo.compilerOptions None false) false false (fun _ => false).

Definition skipping (throws : bool) : ConfigSet :=
  Demo.configSet (Demo.typescript (fun f => [d2322]) (fun f => negb (endsWith f ".d.ts")))
                 (Demo.compilerOptions None true) false throws (fun _ => false).

(** The configuration [noisy] with a reporting policy that leaves every file
    out. *)
Definition unreported : ConfigSet :=
  {| compilerModule := compilerModule noisy; parsedTsConfig := parsedTsConfig noisy;
     isolatedModules := false; useESM := false; cwd := cwd noisy; rootDir := rootDir noisy;
     tsCacheDir := tsCacheDir noisy; cacheSuffix := cacheSuffix noisy;
     isTestFile := isTestFile noisy;
     shouldReportDiagnostics := fun _ => false;
     raiseDiagnostics := raiseDiagnostics noisy;
     shouldStringifyContent := shouldStringifyContent noisy;
     babelJestTransformer := None |}.

Definition world (cs : ConfigSet) : Env := Demo.env cs (Demo.mtime "1") [].

Definition aConfig : TsJestTransformOptions := Demo.transformOptions (Demo.jestConfig 1 "A").

Definition bConfig : TsJestTransformOptions := Demo.transformOptions (Demo.jestConfig 2 "B").

(** The configuration A as another object with the same serialized form. *)
Definition aCopy : TsJestTransformOptions := Demo.transformOptions (Demo.jestConfig 3 "A").

(** The dependency graph recorded for a.ts. *)
Definition graphOfA : JsMap.t DepGraphInfo :=
  [("/p/a.ts", {| dg_fileContent := "import './b'";
                  dg_resolvedModuleNames := ["/p/b.ts"; "/p/c.ts"] |})].

(** The value a call returned. *)
Definition value {A} (d : A) (r : Result A) : A :=
  match r with
  | Ok a => a
  | Throw _ => d
  end.

(** The process after the configuration A was resolved, and after the cache
    key of a.ts was computed under it. *)
Definition afterResolve (cs : ConfigSet) : Process :=
  snd (_configsFor (world cs) aConfig Demo.start).

(** The registry record of A. *)
Definition recordOfA : CachedConfigSet :=
  {| ccs_jestConfig := newJsonableValue (world full) (config aConfig);
     ccs_configSet := full; ccs_transformerCfgStr := "A";
     ccs_compiler := 0; ccs_depGraphs := 0; ccs_watchMode := false |}.

Definition afterCacheKey (cs : ConfigSet) (fileContent : string) : Process :=
  snd (getCacheKey (world cs) fileContent "/p/a.ts" aConfig Demo.start).

(** The compiler after one compile of a file. *)
Definition compiledOnce (cs : ConfigSet) (fileContent fileName : string) : CompilerState :=
  snd (getCompiledOutput (world cs) fileContent fileName (Demo.compileOptions [] false)
         (Demo.session (world cs) cs)).

(** The files are touched: their modification time is 2 instead of 1. *)
Definition touched (cs : ConfigSet) : Env := with_mtimeMs (Demo.mtime "2") (world cs).

(** The compiler after the first and after the second step of a compile. *)
Definition prepared (cs : ConfigSet) (options : TsJestCompileOptions) : CompilerState :=
  snd (prepareCompilerOptions (world cs) options (Demo.session (world cs) cs)).

Definition diagnosed (cs : ConfigSet) (fileContent fileName : string)
    (options : TsJestCompileOptions) : CompilerState :=
  snd (emitAndDiagnose (world cs) fileContent fileName options false (prepared cs options)).

(** ** Notions used in the properties *)

(** The state in which the configuration of [o] is resolved to [cs]: the
    registry holds a record for the live object, and [this] has its fields. *)
Definition resolved (o : TsJestTransformOptions) (cs : ConfigSet) (p : Process) : Prop :=
  exists i ccs, list_find (sameObject (config o)) (_cachedConfigSets p) = Some (i, ccs)
                /\ ccs_configSet ccs = cs /\ adopt ccs (this p) = this p.

(** The elements pushed for resolved modules that all exist. *)
Definition moduleElements (env : Env) (resolvedModuleNames : list string) : list string :=
  flat_map (fun moduleName => [CACHE_KEY_EL_SEPARATOR; moduleName; CACHE_KEY_EL_SEPARATOR;
                               default "" (mtimeMs env moduleName)])
           resolvedModuleNames.

(** The modules recorded in the dependency graph of [this] for a file. *)
Definition recordedModules (p : Process) (filePath : string) : list string :=
  match heap_depGraphs p !! _depGraphs (this p) with
  | Some graphs =>
      match JsMap.get graphs filePath with
      | Some info => dg_resolvedModuleNames info
      | None => []
      end
  | None => []
  end.

(** The dependency graph of [this] records the content and the modules for a
    file. *)
Definition recordedFor (p : Process) (filePath fileContent : string) (L : list string) : Prop :=
  exists graphs info,
    heap_depGraphs p !! _depGraphs (this p) = Some graphs
    /\ JsMap.get graphs filePath = Some info
    /\ dg_fileContent info = fileContent /\ dg_resolvedModuleNames info = L.

(** The session of a registry record: all of it but the configuration object
    it was found by. *)
Definition sessionOf (ccs : CachedConfigSet) :=
  (ccs_configSet ccs, ccs_transformerCfgStr ccs, ccs_compiler ccs, ccs_depGraphs ccs,
   ccs_watchMode ccs).

(** Every record of the registry has a compiler that was made, and no two
    records have the same compiler. *)
Definition registry_wf (p : Process) : Prop :=
  Forall (fun ccs => ccs_compiler ccs < length (heap_compilers p)) (_cachedConfigSets p)
  /\ NoDup (map ccs_compiler (_cachedConfigSets p)).

(** The imports of a file that resolve to a file of the project: the ones
    that do not resolve, resolve to an empty name or to an external library
    are left out. *)
Definition resolvedImports (c : TsCompiler) (resolvedFileContent : option string)
    (containingFile : string) : list string :=
  omap (fun importedFile =>
          match resolveModuleName (_ts c) importedFile containingFile (_compilerOptions c) with
          | Some m =>
              if isExternalLibraryImport m then None
              else if decide (resolvedFileName m = "") then None
              else Some (resolvedFileName m)
          | None => None
          end)
       (preProcessFile (_ts c) resolvedFileContent).

(** The version of a file in the memory cache. *)
Definition versionOf (c : TsCompiler) (fileName : string) : option nat :=
  match _fileVersionCache c with
  | Some versions => JsMap.get versions fileName
  | None => None
  end.

(** The same compiler and [Map] objects, with other events so far. *)
Definition with_events (ev : list Event) (s : CompilerState) : CompilerState :=
  {| self := self s; maps := maps s; events := ev |}.

(** A method that only adds to the events, does not read them, and leaves the
    [ConfigSet] of the compiler alone: run with other events so far, it
    returns the same and adds the same events. *)
Definition Regular {A} (m : M CompilerState A) : Prop :=
  forall s, exists evs,
    events (snd (m s)) = (events s ++ evs)%list
    /\ configSet (self (snd (m s))) = configSet (self s)
    /\ forall ev0, m (with_events ev0 s) = (fst (m s), with_events (ev0 ++ evs) (snd (m s))).

(** The file is in the memory cache: [_isFileInCache]. *)
Definition inCache (c : TsCompiler) (fileName : string) : Prop :=
  exists contents versions,
    _fileContentCache c = Some contents /\ _fileVersionCache c = Some versions
    /\ JsMap.has contents fileName = true /\ JsMap.has versions fileName = true
    /\ JsMap.get versions fileName <> Some 0.

(** The state of a compiler for which a compile of the content is a repeat:
    the language service is there and its options are the ones this call
    fixes, with the module kind of the tsconfig; the file is in the memory
    cache with this content and among the file names of the tsconfig; the
    snapshots the service asks for are in the memory cache; and the call is
    not in watch mode. *)
Definition warm (env : Env) (fileContent fileName : string) (options : TsJestCompileOptions)
    (c : TsCompiler) : Prop :=
  let isEsmMode := useESM (configSet c) && opt_supportsStaticESM options in
  _languageService c = true
  /\ _compilerOptions c = fixupCompilerOptionsForModuleKind env (_initialCompilerOptions c) isEsmMode
  /\ module (_compilerOptions c) = module (_initialCompilerOptions c)
  /\ inCache c fileName
  /\ (exists contents, _fileContentCache c = Some contents
                       /\ StringMap_get contents fileName = Some fileContent)
  /\ fileName ∈ fileNames (_parsedTsConfig c)
  /\ (forall q script, script ∈ scriptsRequested (_ts c) (hostView c) q fileName ->
                       inCache c (normalize env script))
  /\ watchMode options = false.

(** The compiler and the [Map] objects are as before. *)
Definition unchanged (s s' : CompilerState) : Prop :=
  self s' = self s /\ maps s' = maps s.

(** The entry of the dependency graph of [this] for a file. *)
Definition depGraphOf (p : Process) (filePath : string) : option DepGraphInfo :=
  match heap_depGraphs p !! _depGraphs (this p) with
  | Some graphs => JsMap.get graphs filePath
  | None => None
  end.

(** A part of a string between two separators, or between a separator and an
    end of the string. *)
Definition segmentOf (sep : ascii) (x s : string) : Prop :=
  exists A B, s = (A ++ x ++ B)%string
              /\ (A = "" \/ exists A', A = (A' ++ String sep "")%string)
              /\ (B = "" \/ exists B', B = String sep B').

(** The content of the file is in the memory cache. *)
Definition cached (c : TsCompiler) (fileName : string) : Prop :=
  exists contents, _fileContentCache c = Some contents /\ JsMap.has contents fileName = true.

(** Every file with a version above 1 has its content in the memory cache. *)
Definition overlay_wf (c : TsCompiler) : Prop :=
  forall fileName v, versionOf c fileName = Some v -> 2 <= v -> cached c fileName.

(** The fields of a compiler that compiling does not assign. *)
Definition fixed (c : TsCompiler) :=
  (configSet c, _initialCompilerOptions c, _compilerOptions c, _parsedTsConfig c,
   _languageService c, _moduleResolutionHost c, runtimeCacheFS c, _runtimeCacheFS c).

(** From [s] to [s']: the fixed fields are the same, there are as many [Map]
    objects, the project version is not less, the contents in the memory cache
    are still there and, when the memory cache is well formed, it is so again
    and no version is less. *)
Definition grows (s s' : CompilerState) : Prop :=
  fixed (self s') = fixed (self s)
  /\ length (maps s') = length (maps s)
  /\ _projectVersion (self s) <= _projectVersion (self s')
  /\ (forall fileName, cached (self s) fileName -> cached (self s') fileName)
  /\ (overlay_wf (self s) ->
      overlay_wf (self s')
      /\ forall fileName v, versionOf (self s) fileName = Some v ->
                            exists v', versionOf (self s') fileName = Some v' /\ v <= v').

(** A method that takes every state to one related to it by [R], whatever it
    returns or throws. *)
Definition Keeps {S} (R : S -> S -> Prop) {A} (m : M S A) : Prop :=
  forall s, R s (snd (m s)).

(** A method after which the state has grown. *)
Definition Grows {A} (m : M CompilerState A) : Prop := Keeps grows m.

(** The events added from [s] to [s'] are not calls of the reporting policy. *)
Definition noRaise (s s' : CompilerState) : Prop :=
  exists evs, events s' = (events s ++ evs)%list
              /\ Forall (fun e => match e with Raise _ _ => False | _ => True end) evs.

(** [_isFileInCache] as a function of the two caches. *)
Definition hitIn (cache : StringMap) (versions : JsMap.t nat) (fileName : string) : bool :=
  JsMap.has cache fileName && JsMap.has versions fileName
  && negb (bool_decide (JsMap.get versions fileName = Some 0)).

(** What [this._cachedReadFile(p)] returns. *)
Definition readThrough (c : TsCompiler) (p : string) : option string :=
  match _cachedReadFile c with
  | Some memo =>
      match JsMap.get memo p with
      | Some r => r
      | None => sys_readFile (_ts c) p
      end
  | None => None
  end.

(** The content that [getScriptSnapshot] finds for a file that is not in the
    memory cache: the entry of the content cache, else the one of jest's
    cache, else what is read from the disk. *)
Definition snapshotSource (cache m : StringMap) (c : TsCompiler) (p : string) : option string :=
  match StringMap_get cache p with
  | Some text => Some text
  | None =>
      match StringMap_get m p with
      | Some text => Some text
      | None => readThrough c p
      end
  end.

(** The output of the transpiler for a file in isolated mode. *)
Definition isolatedResult (env : Env) (c : TsCompiler) (options : TsJestCompileOptions)
    (fileContent fileName : string) : TranspileOutput :=
  if negb (isModernNodeModuleKind env (module (_initialCompilerOptions c))) then
    transpileModule (_ts c) fileContent
      {| to_fileName := fileName;
         to_compilerOptions :=
           fixupCompilerOptionsForModuleKind env (_initialCompilerOptions c)
             (useESM (configSet c) && opt_supportsStaticESM options);
         to_reportDiagnostics := Some (shouldReportDiagnostics (configSet c) fileName) |}
  else
    tsTranspileModule env fileContent
      {| to_fileName := fileName;
         to_compilerOptions := _initialCompilerOptions c;
         to_reportDiagnostics :=
           Some (if truthy (Some fileName) then shouldReportDiagnostics (configSet c) fileName
                 else false) |}.

(** From [s] to [s'] the reporting policy was not called, and the [ConfigSet]
    is the same. *)
Definition calm (s s' : CompilerState) : Prop :=
  noRaise s s' /\ configSet (self s') = configSet (self s).

Definition Calm {A} (m : M CompilerState A) : Prop := Keeps calm m.

(** The compiler can resolve modules and read files: it has a module
    resolution host with its memoized [readFile], and its two references to
    jest's cache are [Map] objects. *)
Definition ready (s : CompilerState) : Prop :=
  _moduleResolutionHost (self s) = true
  /\ is_Some (_cachedReadFile (self s))
  /\ is_Some (maps s !! runtimeCacheFS (self s))
  /\ is_Some (maps s !! _runtimeCacheFS (self s)).

(** From [p] to [p']: the sessions of the registry are still there, at the
    same places; no compiler is gone; and when the registry is well formed it
    is so again. *)
Definition steady (p p' : Process) : Prop :=
  map sessionOf (_cachedConfigSets p) `prefix_of` map sessionOf (_cachedConfigSets p')
  /\ length (heap_compilers p) <= length (heap_compilers p')
  /\ (registry_wf p -> registry_wf p').

(** What follows [processWithTs] in both: the babel-jest transformer of the
    configuration (none when the content is stringified), called through one
    of its two contracts with [instrument] off, then the hook. *)
Definition postProcess (env : Env)
    (contract : BabelJest -> string -> string -> TsJestTransformOptions -> TransformedSource)
    (configs : ConfigSet) (sourceText sourcePath : string) (o : TsJestTransformOptions)
    (compiled : CompiledOutput) : M Process TransformedSource :=
  runTsJestHook env sourcePath sourceText o
    (match (if shouldStringifyContent configs sourcePath then None
            else babelJestTransformer configs) with
     | Some babel => contract babel (code compiled) sourcePath (with_instrument false o)
     | None => {| ts_code := code compiled; ts_map := None |}
     end).

(** * Properties *)

(** ** The monad *)

Lemma bind_Ok {S A B} (m : M S A) (k : A -> M S B) s a s1 :
  m s = (Ok a, s1) -> bind m k s = k a s1.
Proof. intros H. unfold bind. now rewrite H. Qed.

Lemma bind_Throw {S A B} (m : M S A) (k : A -> M S B) s e s1 :
  m s = (Throw e, s1) -> bind m k s = (Throw e, s1).
Proof. intros H. unfold bind. now rewrite H. Qed.

Lemma bind_inv_Ok {S A B} (m : M S A) (k : A -> M S B) s b s' :
  bind m k s = (Ok b, s') -> exists a s1, m s = (Ok a, s1) /\ k a s1 = (Ok b, s').
Proof.
  unfold bind. destruct (m s) as [[a|e] s1]; intros H.
  - eauto.
  - discriminate.
Qed.

Lemma bind_inv {S A B} (m : M S A) (k : A -> M S B) s r s' :
  bind m k s = (r, s') ->
  (exists a s1, m s = (Ok a, s1) /\ k a s1 = (r, s'))
  \/ (exists e, m s = (Throw e, s') /\ r = Throw e).
Proof.
  unfold bind. destruct (m s) as [[a|e] s1]; intros H.
  - eauto.
  - inversion H; subst. eauto.
Qed.

Lemma mapM_pure {S A B} (f : A -> M S B) (g : A -> B) l s :
  (forall x, f x s = (Ok (g x), s)) -> mapM f l s = (Ok (map g l), s).
Proof.
  intros H. induction l as [|x l IH]; [reflexivity|].
  cbn. unfold bind at 1. rewrite H. unfold bind at 1. now rewrite IH.
Qed.

(** ** The registry: [_configsFor] *)

Lemma set_this_id p : set_this (this p) p = p.
Proof. now destruct p. Qed.

Lemma adopt_adopt ccs t : adopt ccs (adopt ccs t) = adopt ccs t.
Proof. reflexivity. Qed.

Lemma configsFor_found env o p i ccs :
  list_find (sameObject (config o)) (_cachedConfigSets p) = Some (i, ccs) ->
  _configsFor env o p = (Ok (ccs_configSet ccs), set_this (adopt ccs (this p)) p).
Proof.
  intros H. unfold _configsFor, bind, gets. cbn.
  now rewrite H.
Qed.

Lemma resolved_configsFor env o cs p : resolved o cs p -> _configsFor env o p = (Ok cs, p).
Proof.
  intros (i & ccs & Hf & <- & Ha). rewrite (configsFor_found _ _ _ _ _ Hf), Ha.
  now rewrite set_this_id.
Qed.

Lemma createCompiler_run env cs r p res p' :
  _createCompiler env cs r p = (res, p') ->
  _cachedConfigSets p' = _cachedConfigSets p
  /\ match res with
     | Ok _ => exists c, heap_compilers p' = (heap_compilers p ++ [c])%list
                         /\ _compiler (this p') = Some (length (heap_compilers p))
     | Throw _ => heap_compilers p' = heap_compilers p
     end.
Proof.
  unfold _createCompiler. destruct (fst _); intros H; inversion H; subst; clear H; cbn; eauto.
Qed.

Lemma configsFor_resolved env o p cs p1 :
  _configsFor env o p = (Ok cs, p1) -> resolved o cs p1.
Proof.
  unfold _configsFor, bind at 1, gets. cbn.
  destruct (list_find (sameObject (config o)) _) as [[i ccs]|] eqn:Href.
  - cbn. intros H. inversion H; subst; clear H.
    exists i, ccs. cbn. auto.
  - destruct (list_find (sameSerialized _) _) as [[i sccs]|] eqn:Hser.
    + cbn. intros H. inversion H; subst; clear H. cbn.
      apply list_find_Some in Hser as (Hi & _ & _).
      eexists i, _. split.
      { apply list_find_Some. split; [|split].
        - cbn. apply list_lookup_insert_eq. now apply lookup_lt_Some in Hi.
        - reflexivity.
        - intros j y Hj Hlt. cbn in Hj. rewrite list_lookup_insert_ne in Hj by lia.
          apply list_find_None in Href. eapply Forall_lookup_1 in Href; eauto. }
      split; reflexivity.
    + intros H.
      apply bind_inv_Ok in H as (u1 & q1 & H1 & H). inversion H1; subst; clear H1.
      apply bind_inv_Ok in H as (u2 & q2 & H2 & H).
      assert (Hq2 : _cachedConfigSets q2 = _cachedConfigSets p).
      { destruct (globals _) as [[[?|] ?]|]; inversion H2; subst; reflexivity. }
      clear H2.
      apply bind_inv_Ok in H as (t & q3 & H3 & H). inversion H3; subst; clear H3.
      apply bind_inv_Ok in H as (u3 & q3' & H3 & H). inversion H3; subst; clear H3.
      apply bind_inv_Ok in H as (u4 & q4 & H4 & H).
      unfold _createCompiler in H4. destruct (fst _); inversion H4; subst; clear H4.
      apply bind_inv_Ok in H as (u5 & q5 & H5 & H). inversion H5; subst; clear H5.
      apply bind_inv_Ok in H as (t' & q6 & H6 & H). inversion H6; subst; clear H6.
      inversion H; subst; clear H. cbn.
      eexists (length (_cachedConfigSets q3)), _. split.
      { apply list_find_Some. split; [|split].
        - cbn. apply list_lookup_middle. reflexivity.
        - reflexivity.
        - intros j y Hj Hlt. cbn in Hj. rewrite lookup_app_l in Hj by lia.
          rewrite Hq2 in Hj.
          apply list_find_None in Href. eapply Forall_lookup_1 in Href; eauto. }
      split; reflexivity.
Qed.

(** Resolving a configuration a second time changes nothing and gives the
    same [ConfigSet]. *)
Lemma configsFor_stable env o p cs p1 :
  _configsFor env o p = (Ok cs, p1) -> _configsFor env o p1 = (Ok cs, p1).
Proof. intros H. eapply resolved_configsFor, configsFor_resolved, H. Qed.

Lemma resolved_same_object o o' cs p :
  obj_ref (config o') = obj_ref (config o) -> resolved o cs p -> resolved o' cs p.
Proof.
  intros Href (i & ccs & Hf & Hcs & Ha). exists i, ccs. split; [|auto].
  unfold sameObject in *.
  apply list_find_Some in Hf as (Hi & Hp & Hn).
  apply list_find_Some. split; [assumption|]. split; [congruence|].
  intros j y Hj Hlt Hy. apply (Hn j y Hj Hlt). congruence.
Qed.

(** X1: once a configuration is resolved, resolving it again through any
    options that carry the same configuration object changes nothing (the
    registry, the compiler and the dependency graphs of the transformer are
    the same) and gives the same [ConfigSet]. *)
Theorem configsFor_same_object env o o' p cs p1 :
  _configsFor env o p = (Ok cs, p1) ->
  obj_ref (config o') = obj_ref (config o) ->
  _configsFor env o' p1 = (Ok cs, p1).
Proof.
  intros H Href. apply resolved_configsFor. apply (resolved_same_object o); [assumption|].
  eapply configsFor_resolved, H.
Qed.

Lemma resolved_transformCfgStr o cs p :
  resolved o cs p -> exists s, _transformCfgStr (this p) = Some s.
Proof. intros (i & ccs & _ & _ & Ha). rewrite <- Ha. cbn. eauto. Qed.

(** What a call of [_configsFor] does to the registry and to the compilers:
    nothing, or a record is patched in place and keeps its session, or one
    record is appended for one new compiler. *)
Lemma configsFor_registry env o p r p1 :
  _configsFor env o p = (r, p1) ->
  (_cachedConfigSets p1 = _cachedConfigSets p /\ heap_compilers p1 = heap_compilers p)
  \/ (exists i sccs ccs,
        _cachedConfigSets p !! i = Some sccs /\ sessionOf ccs = sessionOf sccs
        /\ _cachedConfigSets p1 = <[i := ccs]> (_cachedConfigSets p)
        /\ heap_compilers p1 = heap_compilers p)
  \/ (exists ccs c,
        _cachedConfigSets p1 = (_cachedConfigSets p ++ [ccs])%list
        /\ ccs_compiler ccs = length (heap_compilers p)
        /\ heap_compilers p1 = (heap_compilers p ++ [c])%list).
Proof.
  unfold _configsFor, bind at 1, gets. cbn.
  destruct (list_find (sameObject (config o)) _) as [[i ccs]|] eqn:Href.
  - cbn. intros H. inversion H; subst; clear H. left. auto.
  - destruct (list_find (sameSerialized _) _) as [[i sccs]|] eqn:Hser.
    + cbn. intros H. inversion H; subst; clear H. right. left.
      apply list_find_Some in Hser as (Hi & _ & _).
      eexists i, sccs, _. split; [eassumption|]. split; [|split; reflexivity]. reflexivity.
    + intros H.
      apply bind_inv in H as [(u1 & q1 & H1 & H)|(e & H1 & _)]; [|discriminate].
      inversion H1; subst; clear H1.
      apply bind_inv in H as [(u2 & q2 & H2 & H)|(e & H2 & _)];
        [|destruct (globals _) as [[[?|] ?]|]; discriminate].
      assert (Hq2 : _cachedConfigSets q2 = _cachedConfigSets p
                    /\ heap_compilers q2 = heap_compilers p).
      { destruct (globals _) as [[[?|] ?]|]; inversion H2; subst; auto. }
      clear H2. destruct Hq2 as (Hr & Hh).
      apply bind_inv in H as [(t & q3 & H3 & H)|(e & H3 & _)]; [|discriminate].
      inversion H3; subst; clear H3.
      apply bind_inv in H as [(u3 & q3' & H3 & H)|(e & H3 & _)]; [|discriminate].
      inversion H3; subst; clear H3.
      apply bind_inv in H as [(u4 & q4 & H4 & H)|(e & H4 & _)];
        apply createCompiler_run in H4 as (Hr4 & Hres); cbn in Hr4, Hres.
      * destruct Hres as (c & Hh4 & Hc4).
        apply bind_inv in H as [(u5 & q5 & H5 & H)|(e & H5 & _)]; [|discriminate].
        inversion H5; subst; clear H5.
        apply bind_inv in H as [(t' & q6 & H6 & H)|(e & H6 & _)]; [|discriminate].
        inversion H6; subst; clear H6.
        inversion H; subst; clear H. right. right. cbn.
        eexists _, c. rewrite Hr4, Hr, Hh4, Hc4, !Hh. cbn. auto.
      * left. rewrite Hr4, Hr, Hres, Hh. auto.
Qed.

Lemma map_session_insert (l : list CachedConfigSet) i sccs ccs :
  l !! i = Some sccs -> sessionOf ccs = sessionOf sccs ->
  map sessionOf (<[i := ccs]> l) = map sessionOf l.
Proof.
  intros Hi Hs. change (sessionOf <$> <[i:=ccs]> l = sessionOf <$> l).
  rewrite list_fmap_insert, Hs. apply list_insert_id. now rewrite list_lookup_fmap, Hi.
Qed.

(** X3: the registry never evicts: after a call of [_configsFor], whatever it
    returned or threw, the sessions of the records that were there are still
    there, at the same places. *)
Theorem configsFor_never_evicts env o p :
  map sessionOf (_cachedConfigSets p)
    `prefix_of` map sessionOf (_cachedConfigSets (snd (_configsFor env o p))).
Proof.
  destruct (_configsFor env o p) as [r p1] eqn:H. cbn.
  apply configsFor_registry in H as [(-> & _)|[(i & sccs & ccs & Hi & Hs & -> & _)|(ccs & c & -> & _)]].
  - reflexivity.
  - now rewrite (map_session_insert _ _ _ _ Hi Hs).
  - rewrite map_app. now apply prefix_app_r.
Qed.

Lemma session_compiler a b : sessionOf a = sessionOf b -> ccs_compiler a = ccs_compiler b.
Proof. unfold sessionOf. intros H. now inversion H. Qed.

(** X4: the records of the registry have compilers of their own: when every
    record has a compiler that was made and no two records have the same
    compiler, this is so again after a call of [_configsFor]. *)
Theorem configsFor_distinct_compilers env o p :
  registry_wf p -> registry_wf (snd (_configsFor env o p)).
Proof.
  intros (Hlt & Hnd).
  destruct (_configsFor env o p) as [r p1] eqn:H. cbn.
  apply configsFor_registry in H
    as [(Hr & Hh)|[(i & sccs & ccs & Hi & Hs & Hr & Hh)|(ccs & c & Hr & Hc & Hh)]];
    unfold registry_wf; rewrite Hr, Hh.
  - auto.
  - split.
    + apply Forall_insert; [assumption|].
      rewrite (session_compiler _ _ Hs). eapply Forall_lookup_1 in Hlt; eauto.
    + change (NoDup (ccs_compiler <$> <[i:=ccs]> (_cachedConfigSets p))).
      rewrite list_fmap_insert, (session_compiler _ _ Hs), list_insert_id; [assumption|].
      now rewrite list_lookup_fmap, Hi.
  - split.
    + apply Forall_app. split.
      * revert Hlt. apply Forall_impl. intros x Hx. rewrite length_app. cbn. lia.
      * constructor; [|constructor]. rewrite length_app. cbn. lia.
    + rewrite map_app. apply list.NoDup_app. split; [assumption|]. split.
      * intros x Hx Hx'. cbn in Hx'. apply list_elem_of_singleton in Hx'. subst x.
        apply list_elem_of_fmap in Hx as (y & Hy & Hin).
        pose proof (proj1 (list.Forall_forall _ _) Hlt y Hin) as Hlty. cbn in Hlty. lia.
      * cbn. apply NoDup_singleton.
Qed.

(** X2: a configuration object that no record holds, with the serialized
    form of the record at [i], resolves to the [ConfigSet] of that record;
    the transformer takes the compiler, the dependency graphs and the other
    fields of the record; no compiler is made; and the record, with the same
    session, now holds the object, so that the object finds it from now on. *)
Theorem configsFor_by_serialized_form env o p i sccs :
  list_find (sameObject (config o)) (_cachedConfigSets p) = None ->
  list_find (sameSerialized (stringify env (obj_fields (config o)))) (_cachedConfigSets p)
    = Some (i, sccs) ->
  exists p1 ccs,
    _configsFor env o p = (Ok (ccs_configSet sccs), p1)
    /\ _cachedConfigSets p1 = <[i := ccs]> (_cachedConfigSets p)
    /\ sessionOf ccs = sessionOf sccs
    /\ list_find (sameObject (config o)) (_cachedConfigSets p1) = Some (i, ccs)
    /\ this p1 = adopt sccs (this p)
    /\ heap_compilers p1 = heap_compilers p /\ heap_depGraphs p1 = heap_depGraphs p.
Proof.
  intros Href Hser. unfold _configsFor, bind at 1, gets. cbn. rewrite Href, Hser. cbn.
  eexists _, _. split; [reflexivity|]. cbn.
  apply list_find_Some in Hser as (Hi & _ & _).
  split; [reflexivity|]. split; [reflexivity|]. split; [|repeat split].
  apply list_find_Some. split; [|split].
  - apply list_lookup_insert_eq. now apply lookup_lt_Some in Hi.
  - reflexivity.
  - intros j y Hj Hlt. rewrite list_lookup_insert_ne in Hj by lia.
    apply list_find_None in Href. eapply Forall_lookup_1 in Href; eauto.
Qed.

(** What [_configsFor] does when no record matches and the compiler is made. *)
Lemma configsFor_created env o p cs p1 :
  list_find (sameObject (config o)) (_cachedConfigSets p) = None ->
  list_find (sameSerialized (stringify env (obj_fields (config o)))) (_cachedConfigSets p)
    = None ->
  _configsFor env o p = (Ok cs, p1) ->
  exists ccs,
    _cachedConfigSets p1 = (_cachedConfigSets p ++ [ccs])%list
    /\ ccs_configSet ccs = cs
    /\ cs = newConfigSet env (migratedConfig (transformerOptions (this p))
                                (obj_fields (config o)))
    /\ ccs_compiler ccs = length (heap_compilers p)
    /\ ccs_depGraphs ccs = _depGraphs (this p)
    /\ ccs_watchMode ccs = includes (argv env) "--watch"
    /\ jv_value (ccs_jestConfig ccs) = config o
    /\ heap_depGraphs p1 = heap_depGraphs p
    /\ this p1 = adopt ccs (this p).
Proof.
  intros Href Hser. unfold _configsFor, bind at 1, gets. cbn. rewrite Href, Hser.
  intros H.
  apply bind_inv_Ok in H as (u1 & q1 & H1 & H). inversion H1; subst; clear H1.
  apply bind_inv_Ok in H as (u2 & q2 & H2 & H).
  assert (Hq2 : _cachedConfigSets q2 = _cachedConfigSets p
                /\ heap_compilers q2 = heap_compilers p /\ this q2 = this p
                /\ heap_depGraphs q2 = heap_depGraphs p).
  { destruct (globals _) as [[[?|] ?]|]; inversion H2; subst; auto. }
  clear H2. destruct Hq2 as (Hr & Hh & Ht & Hd).
  apply bind_inv_Ok in H as (t & q3 & H3 & H). inversion H3; subst; clear H3.
  apply bind_inv_Ok in H as (u3 & q3' & H3 & H). inversion H3; subst; clear H3.
  apply bind_inv_Ok in H as (u4 & q4 & H4 & H).
  unfold _createCompiler in H4. destruct (fst _); inversion H4; subst; clear H4.
  apply bind_inv_Ok in H as (u5 & q5 & H5 & H). inversion H5; subst; clear H5.
  apply bind_inv_Ok in H as (t' & q6 & H6 & H). inversion H6; subst; clear H6.
  inversion H; subst; clear H. cbn. rewrite Hr, Hh, Ht, Hd.
  eexists. split; [reflexivity|]. cbn. repeat split; auto.
Qed.

(** X26: when a new transformer resolves a configuration that no record of
    the registry matches, the record that is appended has a dependency-graph
    [Map] of its own: it is empty, and no record that was there has it. *)
Theorem new_transformer_own_depGraphs env transformerOptions' o p cs p1 :
  Forall (fun ccs => ccs_depGraphs ccs < length (heap_depGraphs p)) (_cachedConfigSets p) ->
  list_find (sameObject (config o)) (_cachedConfigSets p) = None ->
  list_find (sameSerialized (stringify env (obj_fields (config o)))) (_cachedConfigSets p)
    = None ->
  _configsFor env o (newTsJestTransformer transformerOptions' p) = (Ok cs, p1) ->
  exists ccs,
    _cachedConfigSets p1 = (_cachedConfigSets p ++ [ccs])%list
    /\ ccs_configSet ccs = cs
    /\ ccs_depGraphs ccs = length (heap_depGraphs p)
    /\ heap_depGraphs p1 !! ccs_depGraphs ccs = Some []
    /\ Forall (fun other => ccs_depGraphs other <> ccs_depGraphs ccs) (_cachedConfigSets p).
Proof.
  intros Hlt Href Hser H.
  apply configsFor_created in H as (ccs & Hr & Hcs & _ & _ & Hd & _ & _ & Hh & _);
    [|exact Href|exact Hser].
  cbn in Hr, Hd, Hh. exists ccs. split; [exact Hr|]. split; [exact Hcs|]. split; [exact Hd|].
  split.
  - rewrite Hh, Hd. now apply list_lookup_middle.
  - rewrite Hd. apply list.Forall_forall. intros other Hin.
    pose proof (proj1 (list.Forall_forall _ _) Hlt other Hin) as Hother. cbn in Hother. lia.
Qed.

(** ** The cache key *)

Lemma JsMap_get_set_eq {V} (m : JsMap.t V) k v : JsMap.get (JsMap.set m k v) k = Some v.
Proof.
  induction m as [|[k' v'] m IH]; cbn.
  - now rewrite decide_True.
  - destruct (decide (k' = k)); cbn.
    + now rewrite decide_True.
    + now rewrite decide_False.
Qed.

Lemma JsMap_get_set_ne {V} (m : JsMap.t V) k k' v :
  k ≠ k' -> JsMap.get (JsMap.set m k v) k' = JsMap.get m k'.
Proof.
  intros Hne. induction m as [|[k0 v0] m IH]; cbn.
  - now rewrite decide_False.
  - destruct (decide (k0 = k)) as [->|]; cbn.
    + now rewrite !decide_False.
    + destruct (decide (k0 = k')); auto.
Qed.

Lemma pushModuleElements_Ok env L acc p e p' :
  pushModuleElements env L acc p = (Ok e, p') ->
  p' = p /\ Forall (fun m => existsSync env m = true) L /\ e = (acc ++ moduleElements env L)%list.
Proof.
  revert acc. induction L as [|m L IH]; intros acc; cbn.
  - intros H. inversion H; subst. rewrite app_nil_r. auto.
  - unfold bind at 1, statSync_mtimeMs. unfold existsSync.
    destruct (mtimeMs env m) as [t|] eqn:Ht; cbn; [|discriminate].
    intros H. apply IH in H as (-> & HL & ->).
    split; [reflexivity|]. split.
    + constructor; [now rewrite Ht|assumption].
    + now rewrite <- app_assoc.
Qed.

Lemma pushModuleElements_exists env L acc p :
  Forall (fun m => existsSync env m = true) L ->
  pushModuleElements env L acc p = (Ok (acc ++ moduleElements env L)%list, p).
Proof.
  revert acc. induction L as [|m L IH]; intros acc HL; cbn.
  - now rewrite app_nil_r.
  - inversion HL as [|? ? Hm HL']; subst. unfold existsSync in Hm.
    unfold bind at 1, statSync_mtimeMs.
    destruct (mtimeMs env m) as [t|] eqn:Ht; [|discriminate]. cbn.
    rewrite IH by assumption. now rewrite <- app_assoc.
Qed.

Lemma filter_exists_id env (L : list string) :
  Forall (fun m => existsSync env m = true) L ->
  filter (fun m => existsSync env m = true) L = L.
Proof.
  induction 1 as [|m L Hm HL IH]; [reflexivity|].
  rewrite filter_cons_True by assumption. now rewrite IH.
Qed.

Lemma onCompiler_frame {A} (m : M CompilerState A) p r p' :
  onCompiler m p = (r, p') ->
  _cachedConfigSets p' = _cachedConfigSets p /\ this p' = this p
  /\ heap_depGraphs p' = heap_depGraphs p.
Proof.
  unfold onCompiler. destruct (_compiler (this p)) as [c|]; [|intros H; inversion H; auto].
  destruct (heap_compilers p !! c); intros H; inversion H; subst; cbn; auto.
Qed.

(** A call of [resolvedModuleNamesOf] whose modules all exist leaves the
    content recorded with modules of which the existing ones are its result. *)
Lemma resolvedModuleNamesOf_records env c path o q L q' :
  resolvedModuleNamesOf env c path o q = (Ok L, q') ->
  Forall (fun m => existsSync env m = true) L ->
  (exists L0, recordedFor q' path c L0 /\ L = filter (fun m => existsSync env m = true) L0)
  /\ _cachedConfigSets q' = _cachedConfigSets q /\ this q' = this q.
Proof.
  intros H HL.
  assert (Hmiss : forall g,
    heap_depGraphs q !! _depGraphs (this q) = Some g ->
    bind (onCompiler (getResolvedModules env c path (cacheFS o)))
         (fun resolved =>
            bind (setDepGraph path {| dg_fileContent := c; dg_resolvedModuleNames := resolved |})
                 (fun _ => ret resolved)) q = (Ok L, q') ->
    (exists L0, recordedFor q' path c L0 /\ L = filter (fun m => existsSync env m = true) L0)
    /\ _cachedConfigSets q' = _cachedConfigSets q /\ this q' = this q).
  { intros g Hg Hm.
    apply bind_inv_Ok in Hm as (resolved & q1 & H1 & Hm).
    apply onCompiler_frame in H1 as (Hr & Ht & Hd).
    apply bind_inv_Ok in Hm as (u & q2 & H2 & Hm). inversion Hm; subst; clear Hm.
    unfold setDepGraph, bind, depGraphsOfThis, modify in H2.
    rewrite Ht, Hd, Hg in H2. inversion H2; subst; clear H2. cbn.
    split; [|split; assumption].
    exists L. split; [|now rewrite filter_exists_id].
    eexists _, _. cbn. rewrite Ht, Hd.
    rewrite list_lookup_insert_eq by (now apply lookup_lt_Some in Hg).
    split; [reflexivity|]. rewrite JsMap_get_set_eq. auto. }
  unfold resolvedModuleNamesOf in H. unfold bind at 1, depGraphsOfThis in H.
  destruct (heap_depGraphs q !! _depGraphs (this q)) as [g|] eqn:Hg; [|discriminate].
  destruct (JsMap.get g path) as [info|] eqn:Hinfo.
  - destruct (bool_decide (dg_fileContent info = c)) eqn:Hc.
    + inversion H; subst; clear H. split; [|auto].
      exists (dg_resolvedModuleNames info). split; [|reflexivity].
      exists g, info. apply bool_decide_eq_true_1 in Hc. auto.
    + eapply Hmiss; eauto.
  - eapply Hmiss; eauto.
Qed.

(** With the content recorded, [resolvedModuleNamesOf] returns the recorded
    modules that exist and changes nothing. *)
Lemma resolvedModuleNamesOf_recorded env c path o p L0 :
  recordedFor p path c L0 ->
  resolvedModuleNamesOf env c path o p
    = (Ok (filter (fun m => existsSync env m = true) L0), p).
Proof.
  intros (g & info & Hg & Hinfo & Hc & <-).
  unfold resolvedModuleNamesOf, bind at 1, depGraphsOfThis.
  rewrite Hg, Hinfo. now rewrite bool_decide_eq_true_2.
Qed.

Lemma resolvedModuleNamesOf_again env c path o q L q' :
  resolvedModuleNamesOf env c path o q = (Ok L, q') ->
  Forall (fun m => existsSync env m = true) L ->
  resolvedModuleNamesOf env c path o q' = (Ok L, q')
  /\ _cachedConfigSets q' = _cachedConfigSets q /\ this q' = this q.
Proof.
  intros H HL.
  destruct (resolvedModuleNamesOf_records _ _ _ _ _ _ _ H HL) as ((L0 & Hrec & ->) & Hr & Ht).
  split; [|auto]. now apply resolvedModuleNamesOf_recorded.
Qed.

Lemma resolved_frame o cs p p' :
  resolved o cs p -> _cachedConfigSets p' = _cachedConfigSets p -> this p' = this p ->
  resolved o cs p'.
Proof. intros (i & ccs & ? & ? & ?) Hr Ht. exists i, ccs. now rewrite Hr, Ht. Qed.

(** What [cacheKeyElements] returns: the first elements, then those of the
    resolved modules it used, which all exist. *)
Lemma cacheKeyElements_Ok env c path o p e p1 :
  cacheKeyElements env c path o p = (Ok e, p1) ->
  exists cs q s,
    _configsFor env o p = (Ok cs, q) /\ _transformCfgStr (this q) = Some s
    /\ resolved o cs p1 /\ this p1 = this q
    /\ if negb (isolatedModules cs) && truthy (tsCacheDir cs) then
         exists L, resolvedModuleNamesOf env c path o q = (Ok L, p1)
                   /\ Forall (fun m => existsSync env m = true) L
                   /\ e = (firstElements s (rootDir cs) c path o ++ moduleElements env L)%list
       else p1 = q /\ e = firstElements s (rootDir cs) c path o.
Proof.
  unfold cacheKeyElements. intros H.
  apply bind_inv_Ok in H as (cs & q & Hc & H).
  apply bind_inv_Ok in H as (t & q' & Ht & H). inversion Ht; subst; clear Ht.
  destruct (_transformCfgStr (this q')) as [s|] eqn:Hs; [|discriminate].
  unfold bind at 1, ret at 1 in H.
  exists cs, q', s. split; [assumption|]. split; [assumption|].
  pose proof (configsFor_resolved _ _ _ _ _ Hc) as Hres.
  destruct (negb (isolatedModules cs) && truthy (tsCacheDir cs)).
  - apply bind_inv_Ok in H as (L & q2 & HL & H).
    apply pushModuleElements_Ok in H as (-> & Hex & ->).
    destruct (resolvedModuleNamesOf_again _ _ _ _ _ _ _ HL Hex) as (_ & Hr & Hthis).
    split; [eapply resolved_frame; eauto|]. split; [assumption|].
    exists L. auto.
  - inversion H; subst. auto.
Qed.

Lemma getImportedModulePaths_run content f s :
  _moduleResolutionHost (self s) = true ->
  _getImportedModulePaths content f s = (Ok (resolvedImports (self s) content f), s).
Proof.
  intros Hhost. unfold _getImportedModulePaths, bind at 1, gets. cbn.
  erewrite bind_Ok.
  2:{ apply mapM_pure with
        (g := fun importedFile =>
                match resolveModuleName (_ts (self s)) importedFile f (_compilerOptions (self s)) with
                | Some m =>
                    if truthy (Some (resolvedFileName m)) && negb (isExternalLibraryImport m)
                    then resolvedFileName m else ""
                | None => ""
                end).
      intros x. unfold bind, _resolveModuleName, gets. cbn. now rewrite Hhost. }
  unfold ret, resolvedImports. f_equal. f_equal.
  induction (preProcessFile (_ts (self s)) content) as [|x l IH]; [reflexivity|].
  rewrite map_cons, filter_cons. cbn [omap list_omap]. rewrite <- IH. clear IH.
  destruct (resolveModuleName _ _ _ _) as [m|].
  - destruct (isExternalLibraryImport m); cbn [negb andb].
    + rewrite andb_false_r. now rewrite decide_False by (intros H; now apply H).
    + rewrite andb_true_r. destruct (resolvedFileName m) as [|a r] eqn:Hn; cbn [truthy].
      * rewrite decide_False by (intros H; now apply H). now rewrite decide_True.
      * rewrite decide_True by discriminate. now rewrite decide_False.
  - now rewrite decide_False by (intros H; now apply H).
Qed.

Lemma resolvedImports_elem c content f x :
  x ∈ resolvedImports c content f ->
  x <> ""
  /\ exists importedFile m,
       importedFile ∈ preProcessFile (_ts c) content
       /\ resolveModuleName (_ts c) importedFile f (_compilerOptions c) = Some m
       /\ resolvedFileName m = x /\ isExternalLibraryImport m = false.
Proof.
  unfold resolvedImports. intros H. apply list_elem_of_omap in H as (i & Hi & H).
  destruct (resolveModuleName _ _ _ _) as [m|] eqn:Hm; [|discriminate].
  destruct (isExternalLibraryImport m) eqn:He; [discriminate|].
  destruct (decide (resolvedFileName m = "")) as [|Hne]; [discriminate|].
  inversion H; subst. split; [assumption|]. eauto 10.
Qed.

Lemma resolvedImports_same c c' content f :
  configSet c' = configSet c -> _compilerOptions c' = _compilerOptions c ->
  resolvedImports c' content f = resolvedImports c content f.
Proof. intros H1 H2. unfold resolvedImports, _ts. now rewrite H1, H2. Qed.


(** X5: when the configuration is resolved, the session is not isolated and
    has a cache directory, and the dependency graph records the content given
    for the file, [getCacheKey] does not ask the compiler: it returns the
    digest of the first elements followed by the path and modification time of
    each recorded module that exists on disk, leaves the recorded modules that
    do not exist out without throwing, and changes nothing. *)
Theorem getCacheKey_recorded_modules env c path o p cs s L0 :
  resolved o cs p -> _transformCfgStr (this p) = Some s ->
  isolatedModules cs = false -> truthy (tsCacheDir cs) = true ->
  recordedFor p path c L0 ->
  getCacheKey env c path o p
  = (Ok (sha1 env (firstElements s (rootDir cs) c path o
                   ++ moduleElements env (filter (fun m => existsSync env m = true) L0))%list),
     p).
Proof.
  intros Hres Hs Hiso Hdir Hrec. unfold getCacheKey.
  erewrite bind_Ok; [reflexivity|]. unfold cacheKeyElements.
  rewrite (bind_Ok _ _ _ _ _ (resolved_configsFor env _ _ _ Hres)).
  unfold bind at 1, gets. rewrite Hs. unfold bind at 1, ret at 1.
  rewrite Hiso, Hdir. cbn [negb andb].
  rewrite (bind_Ok _ _ _ _ _ (resolvedModuleNamesOf_recorded env _ _ o _ _ Hrec)).
  apply pushModuleElements_exists.
  apply list.Forall_forall. intros m Hm. now apply list_elem_of_filter in Hm as (Hm & _).
Qed.

(** The second of two calls with the same inputs and the same file system
    returns the same elements and changes nothing. *)
Lemma cacheKeyElements_again env c path o p e p1 :
  cacheKeyElements env c path o p = (Ok e, p1) ->
  cacheKeyElements env c path o p1 = (Ok e, p1).
Proof.
  intros H. apply cacheKeyElements_Ok in H as (cs & q & s & Hc & Hs & Hres & Hthis & H).
  unfold cacheKeyElements.
  rewrite (bind_Ok _ _ _ _ _ (resolved_configsFor env _ _ _ Hres)).
  unfold bind at 1, gets. rewrite Hthis, Hs. unfold bind at 1, ret at 1.
  destruct (negb (isolatedModules cs) && truthy (tsCacheDir cs)).
  - destruct H as (L & HL & Hex & ->).
    destruct (resolvedModuleNamesOf_again _ _ _ _ _ _ _ HL Hex) as (HL' & _ & _).
    rewrite (bind_Ok _ _ _ _ _ HL'). now apply pushModuleElements_exists.
  - destruct H as (-> & ->). reflexivity.
Qed.

Lemma moduleElements_inj envA envB L1 L2 :
  Forall (fun m => existsSync envA m = true) L1 ->
  Forall (fun m => existsSync envB m = true) L2 ->
  moduleElements envA L1 = moduleElements envB L2 ->
  L1 = L2 /\ forall m, m ∈ L1 -> mtimeMs envA m = mtimeMs envB m.
Proof.
  intros H1. revert L2. induction H1 as [|m1 L1 Hm1 HL1 IH]; intros L2 H2 He.
  - destruct L2; [|discriminate]. split; [reflexivity|]. intros m Hm. inversion Hm.
  - destruct H2 as [|m2 L2 Hm2 HL2]; [discriminate|].
    cbn in He. injection He as -> Ht He.
    destruct (IH _ HL2 He) as (-> & Hall).
    split; [reflexivity|]. intros m Hm.
    apply elem_of_cons in Hm as [->|Hm]; [|auto].
    unfold existsSync in Hm1, Hm2.
    destruct (mtimeMs envA m2), (mtimeMs envB m2); try discriminate. cbn in Ht. now subst.
Qed.

Lemma getCacheKey_elements env c path o p d p1 :
  getCacheKey env c path o p = (Ok d, p1) ->
  exists e, cacheKeyElements env c path o p = (Ok e, p1) /\ d = sha1 env e.
Proof.
  unfold getCacheKey. intros H. apply bind_inv_Ok in H as (e & q & He & H).
  inversion H; subst. eauto.
Qed.

Lemma cacheKeyElements_content env c path o p e p1 :
  cacheKeyElements env c path o p = (Ok e, p1) -> e !! 8 = Some c.
Proof.
  intros H. apply cacheKeyElements_Ok in H as (cs & q & s & _ & _ & _ & _ & H).
  destruct (negb (isolatedModules cs) && truthy (tsCacheDir cs)).
  - destruct H as (L & _ & _ & ->). reflexivity.
  - destruct H as (_ & ->). reflexivity.
Qed.


(** ** More on the cache key *)

Lemma onoff_inj a b : onoff a = onoff b -> a = b.
Proof. destruct a, b; cbn; congruence. Qed.

Lemma firstElements_inj s r c path o s' r' c' path' o' (X X' : list string) :
  (firstElements s r c path o ++ X = firstElements s' r' c' path' o' ++ X')%list ->
  s = s' /\ r = r' /\ c = c' /\ path = path'
  /\ default false (instrument o) = default false (instrument o')
  /\ supportsStaticESM o = supportsStaticESM o' /\ X = X'.
Proof.
  unfold firstElements. cbn [app]. intros H.
  injection H as Hs Hr Hi He Hc Hp HX.
  cbn in Hi, He. apply onoff_inj in Hi, He. repeat split; assumption.
Qed.


(** X11: with isolated modules, or without a cache directory, [getCacheKey]
    returns the digest of the eleven first elements alone and does nothing
    beyond resolving the configuration: the compiler is not asked, no
    dependency graph is recorded and no file is looked up on the disk. *)
Theorem getCacheKey_without_modules env c path o p cs p1 :
  _configsFor env o p = (Ok cs, p1) ->
  isolatedModules cs = true \/ truthy (tsCacheDir cs) = false ->
  exists s,
    _transformCfgStr (this p1) = Some s
    /\ getCacheKey env c path o p = (Ok (sha1 env (firstElements s (rootDir cs) c path o)), p1).
Proof.
  intros Hc Hgate.
  destruct (resolved_transformCfgStr _ _ _ (configsFor_resolved _ _ _ _ _ Hc)) as (s & Hs).
  exists s. split; [assumption|].
  unfold getCacheKey, cacheKeyElements.
  erewrite bind_Ok; [reflexivity|].
  rewrite (bind_Ok _ _ _ _ _ Hc). unfold bind at 1, gets. rewrite Hs. unfold bind at 1, ret at 1.
  destruct Hgate as [->| ->]; [reflexivity|]. now rewrite andb_false_r.
Qed.

Lemma resolvedModuleNamesOf_others env c path o q r q' :
  resolvedModuleNamesOf env c path o q = (r, q') ->
  this q' = this q
  /\ forall other, other <> path -> depGraphOf q' other = depGraphOf q other.
Proof.
  intros H.
  assert (Hmiss : forall g,
    heap_depGraphs q !! _depGraphs (this q) = Some g ->
    bind (onCompiler (getResolvedModules env c path (cacheFS o)))
         (fun resolved =>
            bind (setDepGraph path {| dg_fileContent := c; dg_resolvedModuleNames := resolved |})
                 (fun _ => ret resolved)) q = (r, q') ->
    this q' = this q
    /\ forall other, other <> path -> depGraphOf q' other = depGraphOf q other).
  { intros g Hg Hm.
    apply bind_inv in Hm as [(resolved & q1 & H1 & Hm)|(e & H1 & _)];
      apply onCompiler_frame in H1 as (Hr & Ht & Hd).
    - unfold setDepGraph, bind, depGraphsOfThis, modify, ret in Hm.
      rewrite Ht, Hd, Hg in Hm. inversion Hm; subst; clear Hm. cbn.
      split; [assumption|]. intros other Hne. unfold depGraphOf. cbn. rewrite Ht, Hd, Hg.
      rewrite list_lookup_insert_eq by (now apply lookup_lt_Some in Hg).
      now apply JsMap_get_set_ne.
    - split; [assumption|]. intros other _. unfold depGraphOf. now rewrite Ht, Hd. }
  unfold resolvedModuleNamesOf in H. unfold bind at 1, depGraphsOfThis in H.
  destruct (heap_depGraphs q !! _depGraphs (this q)) as [g|] eqn:Hg;
    [|inversion H; subst; auto].
  destruct (JsMap.get g path) as [info|] eqn:Hinfo.
  - destruct (bool_decide (dg_fileContent info = c)) eqn:Hc.
    + inversion H; subst; auto.
    + eapply Hmiss; eauto.
  - eapply Hmiss; eauto.
Qed.

(** X12: when the session is not isolated and has a cache directory, a call
    of [getCacheKey] that returns leaves the dependency graph of the
    transformer with an entry for the path that records the content given;
    the entries of the other paths are as they were after the configuration
    was resolved. *)
Theorem getCacheKey_records_modules env c path o p cs q d p1 :
  _configsFor env o p = (Ok cs, q) ->
  isolatedModules cs = false -> truthy (tsCacheDir cs) = true ->
  getCacheKey env c path o p = (Ok d, p1) ->
  (exists L, depGraphOf p1 path = Some {| dg_fileContent := c; dg_resolvedModuleNames := L |})
  /\ (forall other, other <> path -> depGraphOf p1 other = depGraphOf q other)
  /\ this p1 = this q.
Proof.
  intros Hc Hiso Hdir H.
  apply getCacheKey_elements in H as (e & He & _).
  apply cacheKeyElements_Ok in He as (cs' & q' & s & Hc' & _ & _ & Ht & He).
  rewrite Hc in Hc'. inversion Hc'; subst cs' q'; clear Hc'.
  rewrite Hiso, Hdir in He. cbn in He. destruct He as (L & HL & Hex & _).
  split; [|split; [|assumption]].
  - destruct (resolvedModuleNamesOf_records _ _ _ _ _ _ _ HL Hex)
      as ((L0 & (g & info & Hg & Hinfo & Hcontent & HL0) & _) & _).
    exists L0. unfold depGraphOf. rewrite Hg, Hinfo. destruct info; cbn in *. congruence.
  - now apply (resolvedModuleNamesOf_others _ _ _ _ _ _ _ HL).
Qed.

(** ** The events of the compiler's methods: every method is [Regular] *)

Lemma with_events_id s : with_events (events s) s = s.
Proof. now destruct s. Qed.

Ltac regular_step := repeat split; intros; cbn; rewrite ?app_nil_r; auto.

Lemma Regular_ret {A} (a : A) : Regular (ret a).
Proof. intros s. exists []. regular_step. Qed.

Lemma Regular_throw {A} e : Regular (@throw CompilerState A e).
Proof. intros s. exists []. regular_step. Qed.

Lemma Regular_bind {A B} (m : M CompilerState A) (k : A -> M CompilerState B) :
  Regular m -> (forall a, Regular (k a)) -> Regular (bind m k).
Proof.
  intros Hm Hk s. destruct (Hm s) as (e1 & He1 & Hc1 & Hi1).
  unfold bind. destruct (m s) as [[a|e] s1] eqn:Hms; cbn in *.
  - destruct (Hk a s1) as (e2 & He2 & Hc2 & Hi2). exists (e1 ++ e2)%list.
    split; [now rewrite He2, He1, app_assoc|]. split; [congruence|].
    intros ev0. rewrite Hi1, Hi2. now rewrite app_assoc.
  - exists e1. split; [assumption|]. split; [assumption|].
    intros ev0. now rewrite Hi1.
Qed.

Lemma Regular_gets_self {A} (f : TsCompiler -> A) : Regular (gets (fun s => f (self s))).
Proof. intros s. exists []. regular_step. Qed.

Lemma Regular_modify_self (f : TsCompiler -> TsCompiler) :
  (forall c, configSet (f c) = configSet c) -> Regular (modify (with_self f)).
Proof. intros Hf s. exists []. regular_step. Qed.

Lemma Regular_push e : Regular (modify (push_event e)).
Proof. intros s. exists [e]. regular_step. Qed.

Lemma Regular_getMap r : Regular (getMap r).
Proof.
  intros s. exists []. unfold getMap. cbn. destruct (maps s !! r); regular_step.
Qed.

Lemma Regular_setMapEntry r k v : Regular (setMapEntry r k v).
Proof.
  intros s. exists []. unfold setMapEntry. cbn.
  destruct (maps s !! r); regular_step.
Qed.

Lemma Regular_forEach {A} (l : list A) (f : A -> M CompilerState unit) :
  (forall x, Regular (f x)) -> Regular (forEach l f).
Proof.
  intros Hf. induction l as [|x l IH]; cbn.
  - apply Regular_ret.
  - apply Regular_bind; auto.
Qed.

Lemma Regular_mapM {A B} (f : A -> M CompilerState B) (l : list A) :
  (forall x, Regular (f x)) -> Regular (mapM f l).
Proof.
  intros Hf. induction l as [|x l IH]; cbn.
  - apply Regular_ret.
  - apply Regular_bind; [auto|]. intros y. apply Regular_bind; [auto|]. intros ys.
    apply Regular_ret.
Qed.

Create HintDb regular.

#[global] Hint Resolve Regular_ret Regular_throw Regular_gets_self Regular_push
  Regular_getMap Regular_setMapEntry : regular.

Ltac regular :=
  repeat first
    [ apply Regular_bind; [|intros]
    | apply Regular_forEach; intros
    | apply Regular_mapM; intros
    | apply (Regular_gets_self (fun c => c))
    | apply Regular_modify_self; intros; reflexivity
    | solve [auto with regular]
    | match goal with
      | |- Regular (if ?b then _ else _) => destruct b
      | |- Regular (match ?x with _ => _ end) => destruct x
      | |- Regular (let _ := _ in _) => cbv zeta
      end ].

Lemma Regular_cachedReadFile memo p : Regular (cachedReadFile memo p).
Proof. unfold cachedReadFile. regular. Qed.

Lemma Regular_fileContentCache : Regular fileContentCache.
Proof. unfold fileContentCache. regular. Qed.

Lemma Regular_fileVersionCache : Regular fileVersionCache.
Proof. unfold fileVersionCache. regular. Qed.

#[global] Hint Resolve Regular_cachedReadFile Regular_fileContentCache Regular_fileVersionCache
  : regular.

Lemma Regular_setContent f c : Regular (setContent f c).
Proof. unfold setContent. regular. Qed.

Lemma Regular_setVersion f v : Regular (setVersion f v).
Proof. unfold setVersion. regular. Qed.

#[global] Hint Resolve Regular_setContent Regular_setVersion : regular.

Lemma Regular_getFileContentFromCache env f : Regular (_getFileContentFromCache env f).
Proof. unfold _getFileContentFromCache. regular. Qed.

Lemma Regular_isFileInCache f : Regular (_isFileInCache f).
Proof. unfold _isFileInCache. regular. Qed.

#[global] Hint Resolve Regular_getFileContentFromCache Regular_isFileInCache : regular.

Lemma Regular_updateMemoryCache c f b : Regular (_updateMemoryCache c f b).
Proof. unfold _updateMemoryCache, increment_projectVersion. regular. Qed.

Lemma Regular_getScriptSnapshot env f : Regular (getScriptSnapshot env f).
Proof. unfold getScriptSnapshot. regular. Qed.

#[global] Hint Resolve Regular_updateMemoryCache Regular_getScriptSnapshot : regular.

Lemma Regular_askService env {A} q (answer : TTypeScript -> HostView -> string -> A) f :
  Regular (askService env q answer f).
Proof. unfold askService. regular. Qed.

Lemma Regular_raise ds f : Regular (raise ds f).
Proof. unfold raise. regular. Qed.

#[global] Hint Resolve Regular_askService Regular_raise : regular.

Lemma Regular_getDiagnostics env f : Regular (getDiagnostics env f).
Proof. unfold getDiagnostics. regular. Qed.

Lemma Regular_reTypeCheck env f entry : Regular (reTypeCheck env f entry).
Proof. unfold reTypeCheck. regular. Qed.

#[global] Hint Resolve Regular_getDiagnostics Regular_reTypeCheck : regular.

Lemma Regular_emitAndDiagnose env c f o b : Regular (emitAndDiagnose env c f o b).
Proof. unfold emitAndDiagnose. regular. Qed.

Lemma Regular_finishOutput env c f out ds : Regular (finishOutput env c f out ds).
Proof. unfold finishOutput. regular. Qed.

Lemma Regular_prepareCompilerOptions env o : Regular (prepareCompilerOptions env o).
Proof. unfold prepareCompilerOptions. regular. Qed.

Lemma Regular_compileIsolated env c f b : Regular (compileIsolated env c f b).
Proof. unfold compileIsolated, _transpileOutput. regular. Qed.

#[global] Hint Resolve Regular_emitAndDiagnose Regular_finishOutput
  Regular_prepareCompilerOptions Regular_compileIsolated : regular.

Lemma Regular_getCompiledOutput env c f o : Regular (getCompiledOutput env c f o).
Proof. unfold getCompiledOutput. regular. Qed.

Lemma Regular_run {A} (m : M CompilerState A) s r s' :
  Regular m -> m s = (r, s') ->
  configSet (self s') = configSet (self s) /\ exists evs, events s' = (events s ++ evs)%list.
Proof.
  intros Hm H. destruct (Hm s) as (evs & He & Hc & _). rewrite H in He, Hc. cbn in *. eauto.
Qed.

Lemma fixup_allowJs env co b :
  allowJs (fixupCompilerOptionsForModuleKind env co b) = allowJs co.
Proof. unfold fixupCompilerOptionsForModuleKind. now destruct b. Qed.

Lemma prepareCompilerOptions_run env o s :
  exists s1,
    prepareCompilerOptions env o s
      = (Ok (useESM (configSet (self s)) && opt_supportsStaticESM o), s1)
    /\ self s1 = set_compilerOptions
                   (fixupCompilerOptionsForModuleKind env (_initialCompilerOptions (self s))
                      (useESM (configSet (self s)) && opt_supportsStaticESM o))
                   (self s)
    /\ maps s1 = maps s.
Proof.
  unfold prepareCompilerOptions, bind, gets, modify, ret. cbn.
  destruct (negb _ && _); cbn; eauto.
Qed.

(** ** The re-check of dependents in watch mode *)

Lemma askService_Ok env {A} q (answer : TTypeScript -> HostView -> string -> A) f s a s' :
  askService env q answer f s = (Ok a, s') ->
  configSet (self s') = configSet (self s)
  /\ (exists evs, events s' = (events s ++ evs ++ [Service q f])%list)
  /\ exists view, a = answer (_ts (self s)) view f.
Proof.
  unfold askService. intros H.
  apply bind_inv_Ok in H as (c & s0 & H0 & H). inversion H0; subst; clear H0.
  apply bind_inv_Ok in H as (u & s1 & H1 & H).
  apply Regular_run in H1 as (Hc1 & evs & He1);
    [|apply Regular_forEach; intros; apply Regular_bind;
      [apply Regular_getScriptSnapshot|intros; apply Regular_ret]].
  apply bind_inv_Ok in H as (c' & s2 & H2 & H). inversion H2; subst; clear H2.
  apply bind_inv_Ok in H as (u' & s3 & H3 & H). inversion H3; subst; clear H3.
  inversion H; subst; clear H. cbn.
  split; [assumption|]. split.
  - exists evs. now rewrite He1, app_assoc.
  - exists (hostView (self s2)). unfold _ts. now rewrite Hc1.
Qed.

Lemma raise_Ok ds f s u s' :
  raise ds f s = (Ok u, s') ->
  self s' = self s /\ events s' = (events s ++ [Raise ds f])%list.
Proof.
  unfold raise. intros H.
  apply bind_inv_Ok in H as (c & s0 & H0 & H). inversion H0; subst; clear H0.
  apply bind_inv_Ok in H as (u' & s1 & H1 & H). inversion H1; subst; clear H1.
  destruct (raiseDiagnostics _ _ _); inversion H; subst. auto.
Qed.

(** What the loop over the dependency graphs leaves in the events for an
    entry that lists the file and is to be reported, when the loop ends. *)
Lemma reTypeCheck_loop env fileName entries : forall t u t',
  forEach entries (reTypeCheck env fileName) t = (Ok u, t') ->
  forall dependent info,
    (dependent, info) ∈ entries ->
    fileName ∈ map (normalize env) (dg_resolvedModuleNames info) ->
    shouldReportDiagnostics (configSet (self t)) dependent = true ->
    exists evs view1 view2,
      events t' = (events t ++ evs)%list
      /\ Service SemanticDiagnosticsQuery dependent ∈ evs
      /\ Service SyntacticDiagnosticsQuery dependent ∈ evs
      /\ Raise (getSemanticDiagnostics (_ts (self t)) view1 dependent
                ++ getSyntacticDiagnostics (_ts (self t)) view2 dependent)%list fileName ∈ evs.
Proof.
  induction entries as [|entry entries IH]; intros t u t' H dependent info Hin Hlist Hrep.
  - inversion Hin.
  - cbn in H. apply bind_inv_Ok in H as (u1 & t1 & H1 & H).
    pose proof (Regular_run _ _ _ _ (Regular_reTypeCheck env fileName entry) H1) as (Hc1 & e1 & He1).
    apply elem_of_cons in Hin as [<-|Hin].
    + clear IH.
      pose proof (Regular_run _ _ _ _
                    (Regular_forEach entries _ (Regular_reTypeCheck env fileName)) H)
        as (_ & e2 & He2).
      unfold reTypeCheck in H1. cbn [fst snd] in H1.
      apply bind_inv_Ok in H1 as (c & t0 & H0 & H1). inversion H0; subst c t0; clear H0.
      unfold includes in H1. rewrite bool_decide_eq_true_2 in H1 by assumption.
      rewrite Hrep in H1. cbn [andb] in H1.
      apply bind_inv_Ok in H1 as (contents & ta & Ha & H1).
      apply Regular_run in Ha as (Hca & ea & Hea); [|apply Regular_getFileContentFromCache].
      apply bind_inv_Ok in H1 as (u2 & tb & Hb & H1).
      apply Regular_run in Hb as (Hcb & eb & Heb); [|apply Regular_updateMemoryCache].
      apply bind_inv_Ok in H1 as (sem & tc & Hsem & H1).
      apply askService_Ok in Hsem as (Hcc & (ec & Hec) & (view1 & ->)).
      apply bind_inv_Ok in H1 as (syn & td & Hsyn & H1).
      apply askService_Ok in Hsyn as (Hcd & (ed & Hed) & (view2 & ->)).
      apply raise_Ok in H1 as (_ & Hraise).
      assert (Hts : forall x, configSet (self x) = configSet (self t) -> _ts (self x) = _ts (self t)).
      { intros x Hx. unfold _ts. now rewrite Hx. }
      rewrite (Hts tb), (Hts tc) in Hraise by congruence.
      eexists _, view1, view2. split.
      { rewrite He2, Hraise, Hed, Hec, Heb, Hea. rewrite <- !app_assoc. reflexivity. }
      rewrite !elem_of_app, !elem_of_cons. auto 12.
    + destruct (IH _ _ _ H dependent info Hin Hlist) as (evs & view1 & view2 & He & ? & ? & ?).
      { now rewrite Hc1. }
      exists (e1 ++ evs)%list, view1, view2. split.
      { now rewrite He, He1, app_assoc. }
      unfold _ts in *. rewrite Hc1 in *.
      rewrite !elem_of_app. auto.
Qed.


(** ** What [getCompiledOutput] does with the emit output *)

(** C8 (amended): with the language service, for a file that is not turned
    away as JavaScript without [allowJs], once the step that emits and
    diagnoses has ended without a throw: when the emit was skipped and the
    name is a TypeScript one, [getCompiledOutput] throws the error that names
    the file; when the emit was skipped and the name is not a TypeScript one,
    it returns the content as it was given and logs a warning; when the emit
    was not skipped and there is no output file, it throws the error that
    names the base name of the file. *)
Theorem getCompiledOutput_emit_result env fileContent fileName options s isEsmMode s1 output ds s2 :
  prepareCompilerOptions env options s = (Ok isEsmMode, s1) ->
  _languageService (self s1) = true ->
  JS_JSX_REGEX env fileName && negb (is_true_opt (allowJs (_compilerOptions (self s1)))) = false ->
  emitAndDiagnose env fileContent fileName options isEsmMode s1 = (Ok (output, ds), s2) ->
  (emitSkipped output = true -> TS_TSX_REGEX env fileName = true ->
   getCompiledOutput env fileContent fileName options s
     = (Throw (CannotProcessFile fileName), s2))
  /\ (emitSkipped output = true -> TS_TSX_REGEX env fileName = false ->
      getCompiledOutput env fileContent fileName options s
        = (Ok {| code := fileContent; diagnostics := None |},
           push_event (Warn (CannotProcessFileReturnOriginal fileName)) s2))
  /\ (emitSkipped output = false -> outputFiles output = [] ->
      getCompiledOutput env fileContent fileName options s
        = (Throw (UnableToRequireDefinitionFile (basename env fileName)), s2)).
Proof.
  intros Hprep Hls Hjs Hemit.
  assert (H : getCompiledOutput env fileContent fileName options s
              = finishOutput env fileContent fileName output ds s2).
  { unfold getCompiledOutput. rewrite (bind_Ok _ _ _ _ _ Hprep).
    unfold bind at 1, gets. rewrite Hls, Hjs. now rewrite (bind_Ok _ _ _ _ _ Hemit). }
  rewrite H. unfold finishOutput. repeat split.
  - intros -> ->. reflexivity.
  - intros -> ->. reflexivity.
  - intros -> ->. reflexivity.
Qed.

(** ** Compiling again what is in the memory cache *)

Lemma unchanged_refl s : unchanged s s.
Proof. split; reflexivity. Qed.

Lemma unchanged_trans s1 s2 s3 : unchanged s1 s2 -> unchanged s2 s3 -> unchanged s1 s3.
Proof. intros [? ?] [? ?]. split; congruence. Qed.

Lemma unchanged_bind {A B} (m : M CompilerState A) (k : A -> M CompilerState B) s :
  unchanged s (snd (m s)) ->
  (forall a s1, m s = (Ok a, s1) -> unchanged s1 (snd (k a s1))) ->
  unchanged s (snd (bind m k s)).
Proof.
  intros Hm Hk. unfold bind. destruct (m s) as [[a|e] s1] eqn:Hms; cbn in *.
  - eapply unchanged_trans; eauto.
  - assumption.
Qed.

Lemma unchanged_push e s : unchanged s (push_event e s).
Proof. split; reflexivity. Qed.

Lemma set_compilerOptions_id s :
  with_self (set_compilerOptions (_compilerOptions (self s))) s = s.
Proof. destruct s as [[] ? ?]. reflexivity. Qed.

Lemma isFileInCache_hit f s : inCache (self s) f -> _isFileInCache f s = (Ok true, s).
Proof.
  intros (contents & versions & Hc & Hv & Hhc & Hhv & Hne).
  unfold _isFileInCache, fileContentCache, fileVersionCache, bind, gets, ret.
  rewrite Hc, Hv, Hhc, Hhv. now rewrite bool_decide_eq_false_2.
Qed.

Lemma updateMemoryCache_same contents cache f s :
  inCache (self s) f ->
  _fileContentCache (self s) = Some cache -> StringMap_get cache f = contents ->
  f ∈ fileNames (_parsedTsConfig (self s)) ->
  _updateMemoryCache contents f true s = (Ok tt, s).
Proof.
  intros Hin Hc Hget Hnames. unfold _updateMemoryCache.
  rewrite (bind_Ok _ _ _ _ _ (isFileInCache_hit _ _ Hin)). cbn [negb].
  destruct Hin as (contents' & versions & Hc' & Hv & _).
  unfold fileVersionCache, fileContentCache, bind, gets, ret.
  rewrite Hv, Hc, Hget. rewrite bool_decide_eq_false_2 by (intros Hx; now apply Hx).
  unfold includes. now rewrite bool_decide_eq_true_2.
Qed.

(** X7: for a file that is in the memory cache, [_updateMemoryCache] returns;
    the version of the file is one more than it was when the content given
    differs from the cached one, and the same when it is the cached one (the
    cached contents are then the same too); the versions of the other files
    are the same; and the project version is the same or one more. *)
Theorem updateMemoryCache_file_version contents f same s cache v :
  inCache (self s) f ->
  _fileContentCache (self s) = Some cache -> versionOf (self s) f = Some v ->
  exists s',
    _updateMemoryCache contents f same s = (Ok tt, s')
    /\ versionOf (self s') f
       = Some (if bool_decide (StringMap_get cache f = contents) then v else v + 1)
    /\ (forall g, g <> f -> versionOf (self s') g = versionOf (self s) g)
    /\ (StringMap_get cache f = contents -> _fileContentCache (self s') = Some cache)
    /\ _projectVersion (self s) <= _projectVersion (self s') <= S (_projectVersion (self s)).
Proof.
  intros Hin Hc Hv. unfold _updateMemoryCache.
  rewrite (bind_Ok _ _ _ _ _ (isFileInCache_hit _ _ Hin)). cbn [negb].
  destruct Hin as (contents' & versions & Hc' & Hvs & _).
  unfold versionOf in Hv. rewrite Hvs in Hv.
  unfold setVersion, setContent, increment_projectVersion, fileVersionCache, fileContentCache,
    bind, gets, ret, modify, with_self.
  rewrite Hvs, Hc, Hv. cbn [default].
  destruct (decide (StringMap_get cache f = contents)) as [Heq|Hne].
  - rewrite bool_decide_eq_false_2 by (intros Hx; now apply Hx).
    rewrite bool_decide_eq_true_2 by assumption.
    destruct (negb (includes _ f) || negb same); cbn.
    + eexists. split; [reflexivity|]. cbn. unfold versionOf. cbn. rewrite Hvs.
      repeat split; auto; lia.
    + eexists. split; [reflexivity|]. unfold versionOf. rewrite Hvs.
      repeat split; auto; lia.
  - rewrite bool_decide_eq_true_2 by (intros Hx; now apply Hne).
    rewrite bool_decide_eq_false_2 by assumption.
    cbn. rewrite Hvs. cbn. rewrite Hc. cbn.
    destruct (negb (includes _ f) || negb same); cbn;
      (eexists; split; [reflexivity|]); unfold versionOf; cbn; rewrite Hvs;
      (split; [now rewrite JsMap_get_set_eq|]);
      (split; [intros g Hg; now rewrite JsMap_get_set_ne by congruence|]);
      (split; [intros Hx; now destruct Hne|lia]).
Qed.

Lemma getScriptSnapshot_hit env f s :
  inCache (self s) (normalize env f) -> exists r, getScriptSnapshot env f s = (Ok r, s).
Proof.
  intros Hin. unfold getScriptSnapshot.
  rewrite (bind_Ok _ _ _ _ _ (isFileInCache_hit _ _ Hin)). cbn [negb].
  destruct Hin as (contents & versions & Hc & _).
  unfold fileContentCache, bind, gets, ret. rewrite Hc. eauto.
Qed.

Lemma snapshots_hit env (scripts : list string) s :
  (forall script, script ∈ scripts -> inCache (self s) (normalize env script)) ->
  forEach scripts (fun script => bind (getScriptSnapshot env script) (fun _ => ret tt)) s
    = (Ok tt, s).
Proof.
  induction scripts as [|script scripts IH]; intros H; cbn; [reflexivity|].
  destruct (getScriptSnapshot_hit env script s) as (r & Hr).
  { apply H. left. }
  unfold bind at 1. rewrite (bind_Ok _ _ _ _ _ Hr). cbn.
  apply IH. intros x Hx. apply H. now right.
Qed.

Lemma askService_warm env {A} q (answer : TTypeScript -> HostView -> string -> A) f s :
  (forall script, script ∈ scriptsRequested (_ts (self s)) (hostView (self s)) q f ->
                  inCache (self s) (normalize env script)) ->
  askService env q answer f s
    = (Ok (answer (_ts (self s)) (hostView (self s)) f), push_event (Service q f) s).
Proof.
  intros H. unfold askService. unfold bind at 1, gets.
  rewrite (bind_Ok _ _ _ _ _ (snapshots_hit env _ s H)). reflexivity.
Qed.

Lemma raise_unchanged ds f s : unchanged s (snd (raise ds f s)).
Proof.
  unfold raise, bind, gets, modify. cbn. destruct (raiseDiagnostics _ _ _); apply unchanged_push.
Qed.

Lemma finishOutput_unchanged env c f out ds s : unchanged s (snd (finishOutput env c f out ds s)).
Proof.
  unfold finishOutput. destruct (emitSkipped out).
  - destruct (TS_TSX_REGEX env f); [apply unchanged_refl|apply unchanged_push].
  - destruct (outputFiles out) as [|f0 [|f1 more]]; [apply unchanged_refl|..];
      unfold bind, gets; cbn; destruct (is_true_opt _); apply unchanged_refl.
Qed.

(** A repeat of a compile leaves the compiler and the [Map] objects as they
    are. *)
Lemma getCompiledOutput_warm_unchanged env fileContent fileName options s :
  warm env fileContent fileName options (self s) ->
  unchanged s (snd (getCompiledOutput env fileContent fileName options s)).
Proof.
  intros (Hls & Hopts & Hmod & Hin & (cache & Hcache & Hget) & Hnames & Hreq & Hwatch).
  assert (Hw : forall t, unchanged s t ->
                 forall {A} q (answer : TTypeScript -> HostView -> string -> A),
                   askService env q answer fileName t
                   = (Ok (answer (_ts (self t)) (hostView (self t)) fileName),
                      push_event (Service q fileName) t)).
  { intros t [Ht _] A q answer. apply askService_warm. rewrite Ht. apply Hreq. }
  unfold getCompiledOutput.
  destruct (prepareCompilerOptions_run env options s) as (s1 & Hprep & Hself & Hmaps).
  rewrite <- Hopts in Hself.
  assert (Hs1 : unchanged s s1).
  { split; [|assumption]. rewrite Hself. now destruct (self s). }
  rewrite (bind_Ok _ _ _ _ _ Hprep). unfold bind at 1, gets.
  destruct Hs1 as [Hs1 Hm1]. rewrite Hs1, Hls.
  destruct (JS_JSX_REGEX env fileName && _).
  { split; cbn; assumption. }
  apply (unchanged_trans _ s1); [split; assumption|].
  assert (Hu1 : unchanged s s1) by (split; assumption).
  apply unchanged_bind.
  - unfold emitAndDiagnose. unfold bind at 1, gets. rewrite Hs1, Hmod.
    rewrite bool_decide_eq_true_2 by reflexivity.
    rewrite (bind_Ok _ _ _ _ _ (updateMemoryCache_same (Some fileContent) cache fileName s1
               ltac:(now rewrite Hs1) ltac:(now rewrite Hs1) Hget ltac:(now rewrite Hs1))).
    rewrite (bind_Ok _ _ _ _ _ (Hw s1 Hu1 _ EmitOutputQuery getEmitOutput)).
    apply (unchanged_trans _ (push_event (Service EmitOutputQuery fileName) s1));
      [apply unchanged_push|].
    set (s2 := push_event (Service EmitOutputQuery fileName) s1).
    assert (Hu2 : unchanged s s2) by (eapply unchanged_trans; [exact Hu1|apply unchanged_push]).
    apply unchanged_bind.
    + unfold getDiagnostics. unfold bind at 1, gets.
      destruct (shouldReportDiagnostics _ fileName); [|apply unchanged_refl].
      rewrite (bind_Ok _ _ _ _ _ (Hw s2 Hu2 _ SemanticDiagnosticsQuery getSemanticDiagnostics)).
      set (s3 := push_event (Service SemanticDiagnosticsQuery fileName) s2).
      assert (Hu3 : unchanged s s3) by (eapply unchanged_trans; [exact Hu2|apply unchanged_push]).
      rewrite (bind_Ok _ _ _ _ _ (Hw s3 Hu3 _ SyntacticDiagnosticsQuery getSyntacticDiagnostics)).
      cbn. split; reflexivity.
    + intros ds s3 _. apply unchanged_bind.
      * destruct (negb _ && _); [|apply unchanged_refl].
        apply unchanged_bind; [apply raise_unchanged|].
        intros _ s4 _. rewrite Hwatch. apply unchanged_refl.
      * intros _ s4 _. apply unchanged_refl.
  - intros emitted s2 _. apply finishOutput_unchanged.
Qed.


(** ** Declaration files and JavaScript of node_modules *)

Lemma runTsJestHook_no_hooks env path text o result p :
  TS_JEST_HOOKS env = None -> runTsJestHook env path text o result p = (Ok result, p).
Proof. intros H. unfold runTsJestHook. now rewrite H. Qed.

Lemma process_without_post_processing env text path o p configs p1 r :
  _configsFor env o p = (Ok configs, p1) ->
  processWithTs env text path o p1 = (Ok r, p1) ->
  shouldStringifyContent configs path = false ->
  babelJestTransformer configs = None ->
  TS_JEST_HOOKS env = None ->
  process env text path o p = (Ok {| ts_code := code r; ts_map := None |}, p1).
Proof.
  intros Hc Hp Hs Hb Hh. unfold process.
  rewrite (bind_Ok _ _ _ _ _ Hc), (bind_Ok _ _ _ _ _ Hp), Hs, Hb.
  now apply runTsJestHook_no_hooks.
Qed.

(** C6 (amended): when the configuration resolved for the options does not
    stringify the path, [processWithTs] for a path that ends in the
    declaration extension returns empty code and no diagnostics, whatever the
    content, and does nothing beyond resolving the configuration; [process]
    then returns empty code when neither babel-jest nor a hooks file is
    configured. *)
Theorem processWithTs_declaration_file env text path o p configs p1 :
  _configsFor env o p = (Ok configs, p1) ->
  shouldStringifyContent configs path = false ->
  endsWith path DECLARATION_TYPE_EXT = true ->
  processWithTs env text path o p = (Ok {| code := ""; diagnostics := None |}, p1)
  /\ (babelJestTransformer configs = None -> TS_JEST_HOOKS env = None ->
      process env text path o p = (Ok {| ts_code := ""; ts_map := None |}, p1)).
Proof.
  intros Hc Hs Hd.
  assert (H : forall q, _configsFor env o q = (Ok configs, p1) ->
              processWithTs env text path o q = (Ok {| code := ""; diagnostics := None |}, p1)).
  { intros q Hq. unfold processWithTs. rewrite (bind_Ok _ _ _ _ _ Hq). now rewrite Hs, Hd. }
  split; [now apply H|]. intros Hb Hh.
  apply (process_without_post_processing _ _ _ _ _ _ _ _ Hc
           (H _ (configsFor_stable _ _ _ _ _ Hc)) Hs Hb Hh).
Qed.

(** C10 (amended): when the configuration resolved for the options does not
    stringify the path, [processWithTs] for a JavaScript file, not a
    declaration file, whose normalized path has a node_modules segment
    returns the output of [ts.transpileModule] for the content, with the
    module kind ESNext when static ESM is supported and ESM is configured and
    CommonJS otherwise, and no diagnostics; the state is the one that
    resolving the configuration left, so the compiler of the session is not
    called.  [process] then returns that code when neither babel-jest nor a
    hooks file is configured. *)
Theorem processWithTs_node_module_js env text path o p configs p1 :
  _configsFor env o p = (Ok configs, p1) ->
  shouldStringifyContent configs path = false ->
  endsWith path DECLARATION_TYPE_EXT = false ->
  JS_JSX_REGEX env path = true ->
  isNodeModule env path = true ->
  let transpiledResult :=
    transpileModule (ts env) text
      {| to_fileName := path;
         to_compilerOptions :=
           with_module (if supportsStaticESM o && tc_useESM (transformerConfig o)
                        then ESNext else CommonJS)
                       (options (parsedTsConfig configs));
         to_reportDiagnostics := None |} in
  let transpiledCode :=
    updateOutput env (outputText transpiledResult) path (sourceMapText transpiledResult) in
  processWithTs env text path o p = (Ok {| code := transpiledCode; diagnostics := None |}, p1)
  /\ (babelJestTransformer configs = None -> TS_JEST_HOOKS env = None ->
      process env text path o p = (Ok {| ts_code := transpiledCode; ts_map := None |}, p1)).
Proof.
  intros Hc Hs Hd Hj Hn transpiledResult transpiledCode.
  assert (H : forall q, _configsFor env o q = (Ok configs, p1) ->
              processWithTs env text path o q
              = (Ok {| code := transpiledCode; diagnostics := None |}, p1)).
  { intros q Hq. unfold processWithTs. rewrite (bind_Ok _ _ _ _ _ Hq).
    rewrite Hs, Hd, Hj, Hn. reflexivity. }
  split; [now apply H|]. intros Hb Hh.
  apply (process_without_post_processing _ _ _ _ _ _ _ _ Hc
           (H _ (configsFor_stable _ _ _ _ _ Hc)) Hs Hb Hh).
Qed.

(** ** [process] and [processAsync] *)


(** ** Stringified content and unknown file types *)

(** X8: for a path whose content the configuration stringifies,
    [processWithTs] returns [module.exports=] followed by the stringified
    content and no diagnostics, whatever the extension of the path, and does
    nothing beyond resolving the configuration: the compiler is not called.
    [process] and [processAsync] return that code without calling babel-jest,
    configured or not, when no hooks file is configured. *)
Theorem process_stringified env sourceText sourcePath o p configs p1 :
  _configsFor env o p = (Ok configs, p1) ->
  shouldStringifyContent configs sourcePath = true ->
  let stringified := ("module.exports=" ++ stringifyText env sourceText)%string in
  processWithTs env sourceText sourcePath o p
  = (Ok {| code := stringified; diagnostics := None |}, p1)
  /\ (TS_JEST_HOOKS env = None ->
      process env sourceText sourcePath o p = (Ok {| ts_code := stringified; ts_map := None |}, p1)
      /\ processAsync env sourceText sourcePath o p
         = (Ok {| ts_code := stringified; ts_map := None |}, p1)).
Proof.
  intros Hc Hs stringified.
  assert (H : forall q, _configsFor env o q = (Ok configs, p1) ->
              processWithTs env sourceText sourcePath o q
              = (Ok {| code := stringified; diagnostics := None |}, p1)).
  { intros q Hq. unfold processWithTs. rewrite (bind_Ok _ _ _ _ _ Hq). now rewrite Hs. }
  split; [now apply H|]. intros Hh.
  pose proof (H _ (resolved_configsFor env _ _ _ (configsFor_resolved _ _ _ _ _ Hc))) as Hp.
  unfold process, processAsync.
  rewrite !(bind_Ok _ _ _ _ _ Hc), !(bind_Ok _ _ _ _ _ Hp), Hs. cbn.
  split; now apply runTsJestHook_no_hooks.
Qed.

(** X9: for a path that is not stringified and is neither a declaration
    file nor a JavaScript or TypeScript file, [processWithTs] returns the
    content unchanged with no diagnostics and logs one warning, whose message
    says whether babel-jest is configured; nothing is thrown and the compiler
    is not called.  Without babel-jest and hooks, [process] and
    [processAsync] return the content unchanged. *)
Theorem process_unknown_file_type env sourceText sourcePath o p configs p1 :
  _configsFor env o p = (Ok configs, p1) ->
  shouldStringifyContent configs sourcePath = false ->
  endsWith sourcePath DECLARATION_TYPE_EXT = false ->
  JS_JSX_REGEX env sourcePath = false -> TS_TSX_REGEX env sourcePath = false ->
  let warned :=
    push_trace (Warn (match babelJestTransformer configs with
                      | Some _ => GotUnknownFileTypeWithBabel sourcePath
                      | None => GotUnknownFileTypeWithoutBabel sourcePath
                      end)) p1 in
  processWithTs env sourceText sourcePath o p
  = (Ok {| code := sourceText; diagnostics := None |}, warned)
  /\ (babelJestTransformer configs = None -> TS_JEST_HOOKS env = None ->
      process env sourceText sourcePath o p
      = (Ok {| ts_code := sourceText; ts_map := None |}, warned)
      /\ processAsync env sourceText sourcePath o p
         = (Ok {| ts_code := sourceText; ts_map := None |}, warned)).
Proof.
  intros Hc Hs Hd Hj Ht warned.
  assert (H : forall q, _configsFor env o q = (Ok configs, p1) ->
              processWithTs env sourceText sourcePath o q
              = (Ok {| code := sourceText; diagnostics := None |}, warned)).
  { intros q Hq. unfold processWithTs. rewrite (bind_Ok _ _ _ _ _ Hq).
    rewrite Hs, Hd, Hj, Ht. reflexivity. }
  split; [now apply H|]. intros Hb Hh.
  pose proof (H _ (resolved_configsFor env _ _ _ (configsFor_resolved _ _ _ _ _ Hc))) as Hp.
  unfold process, processAsync.
  rewrite !(bind_Ok _ _ _ _ _ Hc), !(bind_Ok _ _ _ _ _ Hp), Hs, Hb. cbn.
  split; now apply runTsJestHook_no_hooks.
Qed.

(** ** The segments of a path: [isNodeModule] *)

Lemma string_append_assoc (a b c : string) : ((a ++ b) ++ c = a ++ (b ++ c))%string.
Proof.
  induction a as [|x a IH]; [reflexivity|].
  change (String x ((a ++ b) ++ c) = String x (a ++ (b ++ c)))%string. now rewrite IH.
Qed.

Lemma string_append_nil_r (a : string) : (a ++ "" = a)%string.
Proof.
  induction a as [|x a IH]; [reflexivity|].
  change (String x (a ++ "") = String x a)%string. now rewrite IH.
Qed.

Lemma split_from_elem sep x s cur :
  x ∈ split_from sep cur s -> segmentOf sep x (cur ++ s)%string.
Proof.
  revert cur. induction s as [|c r IH]; intros cur; cbn [split_from].
  - intros Hx. apply list_elem_of_singleton in Hx as ->.
    exists "", "". split; [now rewrite !string_append_nil_r|]. auto.
  - destruct (Ascii.eqb_spec c sep) as [->|Hne].
    + intros Hx. apply elem_of_cons in Hx as [->|Hx].
      * exists "", (String sep r).
        split; [reflexivity|]. split; [left; reflexivity|right; eexists; reflexivity].
      * apply IH in Hx as (A & B & Hs & HA & HB).
        change ("" ++ r)%string with r in Hs.
        exists (cur ++ String sep A)%string, B. split; [|split; [right|assumption]].
        -- rewrite string_append_assoc.
           change (String sep A ++ x ++ B)%string with (String sep (A ++ x ++ B))%string.
           now rewrite <- Hs.
        -- destruct HA as [->|(A' & ->)].
           ++ exists cur. reflexivity.
           ++ exists (cur ++ String sep A')%string. rewrite string_append_assoc. reflexivity.
    + intros Hx. apply IH in Hx as (A & B & Hs & HA & HB).
      exists A, B. rewrite <- Hs, string_append_assoc. auto.
Qed.

Lemma split_from_app sep a b cur :
  exists l last, split_from sep cur a = (l ++ [last])%list
                 /\ split_from sep cur (a ++ b)%string = (l ++ split_from sep last b)%list.
Proof.
  revert cur. induction a as [|c a IH]; intros cur.
  - exists [], cur. auto.
  - change (String c a ++ b)%string with (String c (a ++ b))%string. cbn [split_from].
    destruct (Ascii.eqb c sep).
    + destruct (IH "") as (l & last & H1 & H2). exists (cur :: l), last. cbn. now rewrite H1, H2.
    + apply IH.
Qed.

Lemma split_from_segment sep x s :
  split_from sep "" x = [x] -> segmentOf sep x s -> x ∈ split_from sep "" s.
Proof.
  intros Hx (A & B & -> & HA & HB).
  assert (Htail : x ∈ split_from sep "" (x ++ B)%string).
  { destruct (split_from_app sep x B "") as (l & last & H1 & H2).
    rewrite Hx in H1. destruct l as [|y l].
    - cbn in H1. injection H1 as <-. rewrite H2. cbn [app].
      destruct HB as [->|(B' & ->)]; cbn [split_from].
      + left.
      + rewrite Ascii.eqb_refl. left.
    - cbn in H1. injection H1 as _ H1. now destruct l. }
  destruct HA as [->|(A' & ->)].
  - exact Htail.
  - rewrite string_append_assoc.
    change (String sep "" ++ x ++ B)%string with (String sep (x ++ B))%string.
    destruct (split_from_app sep A' (String sep (x ++ B)) "") as (l & last & _ & H2).
    rewrite H2. cbn [split_from]. rewrite Ascii.eqb_refl.
    apply elem_of_app. right. right. exact Htail.
Qed.

(** X13: with the separator of POSIX or of Windows, [isNodeModule] holds
    exactly when [node_modules] is a whole segment of the normalized path:
    between two separators, or between a separator and an end of the path. *)
Theorem isNodeModule_segment env filePath :
  path_sep env = "/"%char \/ path_sep env = "\"%char ->
  isNodeModule env filePath = true
  <-> segmentOf (path_sep env) "node_modules" (normalize env filePath).
Proof.
  intros Hsep. unfold isNodeModule, includes, split.
  rewrite bool_decide_eq_true. split.
  - intros H. apply split_from_elem in H. exact H.
  - apply split_from_segment. destruct Hsep as [->| ->]; reflexivity.
Qed.
(** ** The memory cache: versions and contents *)

Lemma grows_refl s : grows s s.
Proof. repeat split; auto. intros f v Hv. eauto. Qed.

Lemma grows_trans s1 s2 s3 : grows s1 s2 -> grows s2 s3 -> grows s1 s3.
Proof.
  intros (Hf & Hm & Hp & Hc & Hw) (Hf' & Hm' & Hp' & Hc' & Hw').
  split; [congruence|]. split; [congruence|]. split; [lia|]. split; [auto|].
  intros H1. destruct (Hw H1) as (H2 & Hv). destruct (Hw' H2) as (H3 & Hv').
  split; [assumption|]. intros f v Hfv.
  destruct (Hv _ _ Hfv) as (v' & Hfv' & Hle). destruct (Hv' _ _ Hfv') as (v'' & Hfv'' & Hle').
  exists v''. split; [assumption|lia].
Qed.

(** A step that leaves the memory cache and the fixed fields as they are. *)
Lemma grows_same s s' :
  fixed (self s') = fixed (self s) -> length (maps s') = length (maps s) ->
  _projectVersion (self s') = _projectVersion (self s) ->
  _fileContentCache (self s') = _fileContentCache (self s) ->
  _fileVersionCache (self s') = _fileVersionCache (self s) ->
  grows s s'.
Proof.
  intros Hf Hm Hp Hc Hv. split; [assumption|]. split; [assumption|]. split; [lia|].
  unfold overlay_wf, cached, versionOf. rewrite Hc, Hv. repeat split; auto.
  intros f v Hfv. eauto.
Qed.

Section KeepsLemmas.
Context {S : Type}.
Variable R : S -> S -> Prop.
Hypothesis R_refl : forall s, R s s.
Hypothesis R_trans : forall s1 s2 s3, R s1 s2 -> R s2 s3 -> R s1 s3.

Lemma Keeps_ret {A} (a : A) : Keeps R (ret a).
Proof. intros s. apply R_refl. Qed.

Lemma Keeps_throw {A} e : Keeps R (@throw S A e).
Proof. intros s. apply R_refl. Qed.

Lemma Keeps_gets {A} (f : S -> A) : Keeps R (gets f).
Proof. intros s. apply R_refl. Qed.

Lemma Keeps_bind {A B} (m : M S A) (k : A -> M S B) :
  Keeps R m -> (forall a, Keeps R (k a)) -> Keeps R (bind m k).
Proof.
  intros Hm Hk s. specialize (Hm s). unfold bind.
  destruct (m s) as [[a|e] s1]; cbn in *; [|assumption].
  eapply R_trans; [exact Hm|apply Hk].
Qed.

Lemma Keeps_forEach {A} (l : list A) (f : A -> M S unit) :
  (forall x, Keeps R (f x)) -> Keeps R (forEach l f).
Proof.
  intros Hf. induction l as [|x l IH]; cbn.
  - apply Keeps_ret.
  - apply Keeps_bind; auto.
Qed.

End KeepsLemmas.

Section KeepsCompiler.
Variable R : CompilerState -> CompilerState -> Prop.
Hypothesis R_refl : forall s, R s s.

Lemma Keeps_getMap r : Keeps R (getMap r).
Proof. intros s. unfold getMap. destruct (maps s !! r); apply R_refl. Qed.

Lemma Keeps_fileContentCache : Keeps R fileContentCache.
Proof.
  intros s. unfold fileContentCache, bind, gets. cbn.
  destruct (_fileContentCache _); apply R_refl.
Qed.

Lemma Keeps_fileVersionCache : Keeps R fileVersionCache.
Proof.
  intros s. unfold fileVersionCache, bind, gets. cbn.
  destruct (_fileVersionCache _); apply R_refl.
Qed.

End KeepsCompiler.

Lemma Grows_ret {A} (a : A) : Grows (ret a).
Proof. apply Keeps_ret, grows_refl. Qed.

Lemma Grows_throw {A} e : Grows (@throw CompilerState A e).
Proof. apply Keeps_throw, grows_refl. Qed.

Lemma Grows_gets {A} (f : CompilerState -> A) : Grows (gets f).
Proof. apply Keeps_gets, grows_refl. Qed.

Lemma Grows_bind {A B} (m : M CompilerState A) (k : A -> M CompilerState B) :
  Grows m -> (forall a, Grows (k a)) -> Grows (bind m k).
Proof. apply Keeps_bind, grows_trans. Qed.

Lemma Grows_forEach {A} (l : list A) (f : A -> M CompilerState unit) :
  (forall x, Grows (f x)) -> Grows (forEach l f).
Proof. apply Keeps_forEach; [apply grows_refl|apply grows_trans]. Qed.

Lemma Grows_getMap r : Grows (getMap r).
Proof. apply Keeps_getMap, grows_refl. Qed.

Lemma Grows_fileContentCache : Grows fileContentCache.
Proof. apply Keeps_fileContentCache, grows_refl. Qed.

Lemma Grows_fileVersionCache : Grows fileVersionCache.
Proof. apply Keeps_fileVersionCache, grows_refl. Qed.

Lemma Grows_push e : Grows (modify (push_event e)).
Proof. intros s. now apply grows_same. Qed.

Lemma Grows_setMapEntry r k v : Grows (setMapEntry r k v).
Proof.
  intros s. unfold setMapEntry. destruct (maps s !! r); [|apply grows_refl].
  apply grows_same; cbn; auto. apply length_insert.
Qed.

Lemma Grows_cachedReadFile memo p : Grows (cachedReadFile memo p).
Proof.
  intros s. unfold cachedReadFile. destruct (JsMap.get memo p); [apply grows_refl|].
  now apply grows_same.
Qed.

Lemma JsMap_has_set {V} (m : JsMap.t V) k k' v :
  JsMap.has m k' = true -> JsMap.has (JsMap.set m k v) k' = true.
Proof.
  unfold JsMap.has. destruct (decide (k = k')) as [->|Hne].
  - now rewrite JsMap_get_set_eq.
  - now rewrite JsMap_get_set_ne.
Qed.

Lemma JsMap_has_set_eq {V} (m : JsMap.t V) k v : JsMap.has (JsMap.set m k v) k = true.
Proof. unfold JsMap.has. now rewrite JsMap_get_set_eq. Qed.

Lemma isFileInCache_run f s cache versions :
  _fileContentCache (self s) = Some cache -> _fileVersionCache (self s) = Some versions ->
  _isFileInCache f s = (Ok (hitIn cache versions f), s).
Proof.
  intros Hc Hv. unfold _isFileInCache, fileContentCache, fileVersionCache, bind, gets, ret.
  now rewrite Hc, Hv.
Qed.

Lemma isFileInCache_throws f s :
  _fileContentCache (self s) = None \/ _fileVersionCache (self s) = None ->
  exists e, _isFileInCache f s = (Throw e, s).
Proof.
  intros H. unfold _isFileInCache, fileContentCache, fileVersionCache, bind, gets, ret, throw.
  destruct (_fileContentCache (self s)); [|eauto].
  destruct (_fileVersionCache (self s)); [|eauto]. destruct H; discriminate.
Qed.

(** What [_updateMemoryCache] does to the two caches and the project version. *)
Lemma updateMemoryCache_run contents f same s cache versions :
  _fileContentCache (self s) = Some cache -> _fileVersionCache (self s) = Some versions ->
  exists s',
    _updateMemoryCache contents f same s = (Ok tt, s')
    /\ fixed (self s') = fixed (self s) /\ maps s' = maps s /\ events s' = events s
    /\ _cachedReadFile (self s') = _cachedReadFile (self s)
    /\ _fileVersionCache (self s')
       = Some (if hitIn cache versions f
               then if bool_decide (StringMap_get cache f = contents) then versions
                    else JsMap.set versions f (default 0 (JsMap.get versions f) + 1)
               else JsMap.set versions f 1)
    /\ _fileContentCache (self s')
       = Some (if hitIn cache versions f && negb (bool_decide (StringMap_get cache f = contents))
               then JsMap.set cache f contents else cache)
    /\ _projectVersion (self s')
       = if negb (hitIn cache versions f)
            || negb (bool_decide (StringMap_get cache f = contents))
            || negb (includes (fileNames (_parsedTsConfig (self s))) f) || negb same
         then S (_projectVersion (self s)) else _projectVersion (self s).
Proof.
  intros Hc Hv. unfold _updateMemoryCache.
  rewrite (bind_Ok _ _ _ _ _ (isFileInCache_run f s _ _ Hc Hv)).
  destruct (hitIn cache versions f); cbn [negb orb andb].
  - unfold setVersion, setContent, increment_projectVersion, fileVersionCache, fileContentCache,
      bind, gets, ret, modify, with_self.
    rewrite Hv, Hc.
    destruct (decide (StringMap_get cache f = contents)) as [Heq|Hne].
    + rewrite bool_decide_eq_false_2 by (intros Hx; now apply Hx).
      rewrite bool_decide_eq_true_2 by assumption. cbn [negb orb].
      destruct (negb (includes _ f) || negb same) eqn:Hb; cbn;
        (eexists; split; [reflexivity|]); cbn; rewrite ?Hb; repeat split; auto.
    + rewrite bool_decide_eq_true_2 by (intros Hx; now apply Hne).
      rewrite bool_decide_eq_false_2 by assumption. cbn. rewrite Hv. cbn. rewrite Hc. cbn.
      destruct (negb (includes _ f) || negb same); cbn;
        (eexists; split; [reflexivity|]); cbn; repeat split; auto.
  - unfold setVersion, increment_projectVersion, fileVersionCache, bind, gets, ret, modify,
      with_self.
    rewrite Hv. cbn. eexists; split; [reflexivity|]. cbn. repeat split; auto.
Qed.

Lemma hitIn_false_version cache versions f v c :
  _fileContentCache c = Some cache -> _fileVersionCache c = Some versions ->
  overlay_wf c -> hitIn cache versions f = false -> JsMap.get versions f = Some v -> v <= 1.
Proof.
  intros Hc Hv Hwf Hhit Hget. unfold hitIn, JsMap.has in Hhit. rewrite Hget in Hhit.
  destruct (decide (2 <= v)) as [Hle|]; [|lia].
  destruct (Hwf f v) as (cache' & Hc' & Hhas); [unfold versionOf; now rewrite Hv|assumption|].
  rewrite Hc in Hc'. inversion Hc'; subst cache'. unfold JsMap.has in Hhas.
  destruct (JsMap.get cache f); [|discriminate]. cbn in Hhit.
  apply negb_false_iff, bool_decide_eq_true_1 in Hhit. inversion Hhit. lia.
Qed.

(** Setting the version of a file to 1 on a miss, with or without its
    content. *)
Lemma grows_miss s s' cache versions f cache' :
  _fileContentCache (self s) = Some cache -> _fileVersionCache (self s) = Some versions ->
  hitIn cache versions f = false ->
  fixed (self s') = fixed (self s) -> length (maps s') = length (maps s) ->
  _projectVersion (self s) <= _projectVersion (self s') ->
  _fileVersionCache (self s') = Some (JsMap.set versions f 1) ->
  _fileContentCache (self s') = Some cache' ->
  (forall g, JsMap.has cache g = true -> JsMap.has cache' g = true) ->
  grows s s'.
Proof.
  intros Hc Hv Hhit Hf Hm Hp Hv' Hc' Hsub.
  split; [assumption|]. split; [assumption|]. split; [assumption|]. split.
  { intros g (c0 & Hc0 & Hg). rewrite Hc in Hc0. inversion Hc0; subst c0.
    exists cache'. auto. }
  intros Hwf. split.
  - intros g v Hg Hle. unfold versionOf in Hg. rewrite Hv' in Hg.
    destruct (decide (f = g)) as [->|Hne].
    + rewrite JsMap_get_set_eq in Hg. inversion Hg. lia.
    + rewrite JsMap_get_set_ne in Hg by assumption.
      destruct (Hwf g v) as (c0 & Hc0 & Hhas); [unfold versionOf; now rewrite Hv|assumption|].
      rewrite Hc in Hc0. inversion Hc0; subst c0. exists cache'. auto.
  - intros g v Hg. unfold versionOf in Hg |- *. rewrite Hv in Hg. rewrite Hv'.
    destruct (decide (f = g)) as [->|Hne].
    + rewrite JsMap_get_set_eq. exists 1. split; [reflexivity|].
      exact (hitIn_false_version cache versions g v (self s) Hc Hv Hwf Hhit Hg).
    + rewrite JsMap_get_set_ne by assumption. eauto.
Qed.

(** Setting the version of a file that is in the cache to one more, with its
    content. *)
Lemma grows_hit s s' cache versions f contents :
  _fileContentCache (self s) = Some cache -> _fileVersionCache (self s) = Some versions ->
  fixed (self s') = fixed (self s) -> length (maps s') = length (maps s) ->
  _projectVersion (self s) <= _projectVersion (self s') ->
  _fileVersionCache (self s')
    = Some (JsMap.set versions f (default 0 (JsMap.get versions f) + 1)) ->
  _fileContentCache (self s') = Some (JsMap.set cache f contents) ->
  grows s s'.
Proof.
  intros Hc Hv Hf Hm Hp Hv' Hc'.
  split; [assumption|]. split; [assumption|]. split; [assumption|]. split.
  { intros g (c0 & Hc0 & Hg). rewrite Hc in Hc0. inversion Hc0; subst c0.
    eexists. split; [exact Hc'|]. now apply JsMap_has_set. }
  intros Hwf. split.
  - intros g v Hg Hle. unfold versionOf in Hg. rewrite Hv' in Hg.
    eexists. split; [exact Hc'|].
    destruct (decide (f = g)) as [->|Hne]; [apply JsMap_has_set_eq|].
    rewrite JsMap_get_set_ne in Hg by assumption.
    destruct (Hwf g v) as (c0 & Hc0 & Hhas); [unfold versionOf; now rewrite Hv|assumption|].
    rewrite Hc in Hc0. inversion Hc0; subst c0. now apply JsMap_has_set.
  - intros g v Hg. unfold versionOf in Hg |- *. rewrite Hv in Hg. rewrite Hv'.
    destruct (decide (f = g)) as [->|Hne].
    + rewrite JsMap_get_set_eq, Hg. cbn. eexists. split; [reflexivity|lia].
    + rewrite JsMap_get_set_ne by assumption. eauto.
Qed.

Lemma Grows_updateMemoryCache contents f same : Grows (_updateMemoryCache contents f same).
Proof.
  intros s.
  destruct (_fileContentCache (self s)) as [cache|] eqn:Hc;
    [destruct (_fileVersionCache (self s)) as [versions|] eqn:Hv|].
  - destruct (updateMemoryCache_run contents f same s cache versions Hc Hv)
      as (s' & -> & Hf & Hm & _ & _ & Hv' & Hc' & Hp). cbn [snd].
    assert (Hple : _projectVersion (self s) <= _projectVersion (self s'))
      by (rewrite Hp; destruct (_ || _); lia).
    destruct (hitIn cache versions f) eqn:Hhit; cbn [andb] in Hc'.
    + destruct (bool_decide (StringMap_get cache f = contents)); cbn [negb] in Hc'.
      * split; [assumption|]. split; [now rewrite Hm|]. split; [assumption|].
        unfold overlay_wf, cached, versionOf. rewrite Hc', Hv', Hc, Hv. repeat split; auto.
        intros g v Hg. eauto.
      * eapply grows_hit; eauto. now rewrite Hm.
    + eapply grows_miss; eauto. now rewrite Hm.
  - destruct (isFileInCache_throws f s (or_intror Hv)) as (e & He).
    unfold _updateMemoryCache. rewrite (bind_Throw _ _ _ _ _ He). apply grows_refl.
  - destruct (isFileInCache_throws f s (or_introl Hc)) as (e & He).
    unfold _updateMemoryCache. rewrite (bind_Throw _ _ _ _ _ He). apply grows_refl.
Qed.

Lemma StringMap_get_set_eq (m : StringMap) k v : StringMap_get (JsMap.set m k v) k = v.
Proof. unfold StringMap_get. now rewrite JsMap_get_set_eq. Qed.
Lemma getScriptSnapshot_hit_run env f s cache versions :
  _fileContentCache (self s) = Some cache -> _fileVersionCache (self s) = Some versions ->
  hitIn cache versions (normalize env f) = true ->
  getScriptSnapshot env f s = (Ok (StringMap_get cache (normalize env f)), s).
Proof.
  intros Hc Hv Hhit. unfold getScriptSnapshot.
  rewrite (bind_Ok _ _ _ _ _ (isFileInCache_run _ s _ _ Hc Hv)), Hhit. cbn [negb].
  unfold fileContentCache, bind, gets, ret. now rewrite Hc.
Qed.

Lemma getScriptSnapshot_miss_run env f s cache versions m :
  _fileContentCache (self s) = Some cache -> _fileVersionCache (self s) = Some versions ->
  maps s !! _runtimeCacheFS (self s) = Some m ->
  hitIn cache versions (normalize env f) = false ->
  let nf := normalize env f in
  let found := snapshotSource cache m (self s) nf in
  exists s',
    getScriptSnapshot env f s = (Ok found, s')
    /\ fixed (self s') = fixed (self s) /\ maps s' = maps s /\ events s' = events s
    /\ _projectVersion (self s') = _projectVersion (self s)
    /\ _fileContentCache (self s')
       = Some (match found with Some text => JsMap.set cache nf (Some text) | None => cache end)
    /\ _fileVersionCache (self s')
       = Some (match found with Some _ => JsMap.set versions nf 1 | None => versions end)
    /\ readThrough (self s') nf = readThrough (self s) nf
    /\ (found = None -> StringMap_get cache nf = None /\ StringMap_get m nf = None
        /\ forall memo, _cachedReadFile (self s) = Some memo ->
             exists memo', _cachedReadFile (self s') = Some memo'
                           /\ JsMap.get memo' nf = Some None)
    /\ (_cachedReadFile (self s) = None -> _cachedReadFile (self s') = None).
Proof.
  intros Hc Hv Hm Hhit nf found. subst nf found. unfold getScriptSnapshot.
  rewrite (bind_Ok _ _ _ _ _ (isFileInCache_run _ s _ _ Hc Hv)), Hhit. cbn [negb].
  set (nf := normalize env f) in *. unfold snapshotSource, readThrough.
  unfold fileContentCache, getMap, cachedReadFile, setContent, setVersion, fileContentCache,
    fileVersionCache, bind, gets, ret, modify, with_self.
  rewrite Hc. cbn. rewrite Hm.
  destruct (StringMap_get cache nf) as [t1|] eqn:H1; cbn.
  { rewrite Hc. cbn. rewrite Hv. cbn. rewrite StringMap_get_set_eq .
    eexists. split; [reflexivity|]. cbn. repeat split; auto; try discriminate; try (intros; congruence). }
  destruct (StringMap_get m nf) as [t2|] eqn:H2; cbn.
  { rewrite Hc. cbn. rewrite Hv. cbn. rewrite StringMap_get_set_eq.
    eexists. split; [reflexivity|]. cbn. repeat split; auto; try discriminate; try (intros; congruence). }
  destruct (_cachedReadFile (self s)) as [memo|] eqn:Hmemo; cbn.
  2:{ rewrite Hc. cbn. rewrite H1. eexists. split; [reflexivity|]. cbn. rewrite Hmemo.
      repeat split; auto. intros memo Hx. discriminate. }
  destruct (JsMap.get memo nf) as [r|] eqn:Hr; cbn.
  - destruct r as [t3|]; cbn.
    + rewrite Hc. cbn. rewrite Hv. cbn. rewrite StringMap_get_set_eq.
      eexists. split; [reflexivity|]. cbn. rewrite Hmemo, Hr. repeat split; auto; try discriminate; try (intros; congruence).
    + rewrite Hc. cbn. rewrite H1. eexists. split; [reflexivity|]. cbn. rewrite Hmemo, Hr.
      repeat split; auto; try (intros; congruence). intros memo0 Hx. inversion Hx; subst. eauto.
  - destruct (sys_readFile _ nf) as [t3|] eqn:Hdisk; cbn.
    + rewrite Hc. cbn. rewrite Hv. cbn. rewrite StringMap_get_set_eq.
      eexists. split; [reflexivity|]. cbn. rewrite JsMap_get_set_eq.
      repeat split; auto; try discriminate; try (intros; congruence).
    + rewrite Hc. cbn. rewrite H1. eexists. split; [reflexivity|]. cbn. rewrite JsMap_get_set_eq.
      repeat split; auto; try (intros; congruence). intros memo0 Hx. inversion Hx; subst.
      eexists. split; [reflexivity|]. apply JsMap_get_set_eq.
Qed.

Lemma getScriptSnapshot_no_map env f s cache versions :
  _fileContentCache (self s) = Some cache -> _fileVersionCache (self s) = Some versions ->
  maps s !! _runtimeCacheFS (self s) = None ->
  hitIn cache versions (normalize env f) = false ->
  exists e, getScriptSnapshot env f s = (Throw e, s).
Proof.
  intros Hc Hv Hm Hhit. unfold getScriptSnapshot.
  rewrite (bind_Ok _ _ _ _ _ (isFileInCache_run _ s _ _ Hc Hv)), Hhit. cbn [negb].
  unfold fileContentCache, getMap, bind, gets, ret. rewrite Hc. cbn. rewrite Hm. eauto.
Qed.

Lemma Grows_getScriptSnapshot env f : Grows (getScriptSnapshot env f).
Proof.
  intros s.
  destruct (_fileContentCache (self s)) as [cache|] eqn:Hc;
    [destruct (_fileVersionCache (self s)) as [versions|] eqn:Hv|].
  - destruct (hitIn cache versions (normalize env f)) eqn:Hhit.
    + rewrite (getScriptSnapshot_hit_run _ _ _ _ _ Hc Hv Hhit). apply grows_refl.
    + destruct (maps s !! _runtimeCacheFS (self s)) as [m|] eqn:Hm.
      * destruct (getScriptSnapshot_miss_run env f s cache versions m Hc Hv Hm Hhit)
          as (s' & -> & Hf & Hmaps & _ & Hp & Hc' & Hv' & _). cbn [snd].
        destruct (snapshotSource cache m (self s) (normalize env f)) as [text|].
        -- eapply grows_miss; eauto; [now rewrite Hmaps|lia|].
           intros g Hg. now apply JsMap_has_set.
        -- apply grows_same; [assumption|now rewrite Hmaps|assumption|now rewrite Hc', Hc|now rewrite Hv', Hv].
      * destruct (getScriptSnapshot_no_map env f s cache versions Hc Hv Hm Hhit) as (e & ->).
        apply grows_refl.
  - destruct (isFileInCache_throws (normalize env f) s (or_intror Hv)) as (e & He).
    unfold getScriptSnapshot. rewrite (bind_Throw _ _ _ _ _ He). apply grows_refl.
  - destruct (isFileInCache_throws (normalize env f) s (or_introl Hc)) as (e & He).
    unfold getScriptSnapshot. rewrite (bind_Throw _ _ _ _ _ He). apply grows_refl.
Qed.

(** X15: a call of the host's [getScriptSnapshot] that returns changes
    nothing when it is repeated, and returns the same; when it returned a
    text, the file is in the memory cache with that text afterwards. *)
Theorem getScriptSnapshot_memoizes env f s r s' :
  getScriptSnapshot env f s = (Ok r, s') ->
  getScriptSnapshot env f s' = (Ok r, s')
  /\ (forall text, r = Some text ->
        inCache (self s') (normalize env f)
        /\ exists contents, _fileContentCache (self s') = Some contents
                            /\ StringMap_get contents (normalize env f) = Some text).
Proof.
  intros H.
  destruct (_fileContentCache (self s)) as [cache|] eqn:Hc.
  2:{ destruct (isFileInCache_throws (normalize env f) s (or_introl Hc)) as (e & He).
      unfold getScriptSnapshot in H. rewrite (bind_Throw _ _ _ _ _ He) in H. discriminate. }
  destruct (_fileVersionCache (self s)) as [versions|] eqn:Hv.
  2:{ destruct (isFileInCache_throws (normalize env f) s (or_intror Hv)) as (e & He).
      unfold getScriptSnapshot in H. rewrite (bind_Throw _ _ _ _ _ He) in H. discriminate. }
  destruct (hitIn cache versions (normalize env f)) eqn:Hhit.
  - rewrite (getScriptSnapshot_hit_run _ _ _ _ _ Hc Hv Hhit) in H. inversion H; subst; clear H.
    split; [now apply getScriptSnapshot_hit_run with (versions := versions)|].
    intros text Ht. split; [|eauto].
    exists cache, versions. unfold hitIn in Hhit.
    apply andb_prop in Hhit as (Hhit & Hnz). apply andb_prop in Hhit as (Hhc & Hhv).
    repeat split; auto. intros Hz. rewrite bool_decide_eq_true_2 in Hnz by assumption.
    discriminate.
  - destruct (maps s !! _runtimeCacheFS (self s)) as [m|] eqn:Hm.
    2:{ destruct (getScriptSnapshot_no_map env f s cache versions Hc Hv Hm Hhit) as (e & He).
        rewrite He in H. discriminate. }
    destruct (getScriptSnapshot_miss_run env f s cache versions m Hc Hv Hm Hhit)
      as (s1 & Hrun & Hf & Hmaps & _ & _ & Hc' & Hv' & Hread & Hnone & Hnomemo).
    rewrite Hrun in H. inversion H; subst r s1; clear H Hrun.
    destruct (snapshotSource cache m (self s) (normalize env f)) as [text|] eqn:Hfound.
    + assert (Hhit' : hitIn (JsMap.set cache (normalize env f) (Some text))
                            (JsMap.set versions (normalize env f) 1) (normalize env f) = true).
      { unfold hitIn. rewrite !JsMap_has_set_eq, JsMap_get_set_eq. reflexivity. }
      rewrite (getScriptSnapshot_hit_run _ _ _ _ _ Hc' Hv' Hhit'), StringMap_get_set_eq.
      split; [reflexivity|]. intros text' Ht. inversion Ht; subst text'. split.
      * exists (JsMap.set cache (normalize env f) (Some text)),
               (JsMap.set versions (normalize env f) 1).
        rewrite !JsMap_has_set_eq, JsMap_get_set_eq. repeat split; auto; discriminate.
      * eexists. split; [exact Hc'|]. apply StringMap_get_set_eq.
    + split; [|discriminate].
      destruct (Hnone eq_refl) as (H1 & H2 & Hmemo).
      assert (Hm' : maps s' !! _runtimeCacheFS (self s') = Some m).
      { rewrite Hmaps. unfold fixed in Hf. inversion Hf as [[Hx1 Hx2 Hx3 Hx4 Hx5 Hx6 Hx7 Hx8]].
        now rewrite Hx8. }
      unfold getScriptSnapshot.
      rewrite (bind_Ok _ _ _ _ _ (isFileInCache_run _ s' _ _ Hc' Hv')), Hhit. cbn [negb].
      unfold fileContentCache, getMap, cachedReadFile, bind, gets, ret.
      rewrite Hc'. cbn. rewrite Hm'. rewrite H1, H2. cbn.
      destruct (_cachedReadFile (self s)) as [memo|] eqn:Hmemo0.
      * destruct (Hmemo memo eq_refl) as (memo' & Hmemo' & Hget). rewrite Hmemo'. cbn.
        rewrite Hget. cbn. rewrite Hc'. cbn. now rewrite H1.
      * rewrite (Hnomemo eq_refl). cbn. rewrite Hc'. cbn. now rewrite H1.
Qed.
Create HintDb grows.

#[global] Hint Resolve Grows_ret Grows_throw Grows_gets Grows_push Grows_getMap
  Grows_setMapEntry Grows_cachedReadFile Grows_fileContentCache Grows_fileVersionCache
  Grows_updateMemoryCache Grows_getScriptSnapshot : grows.

Ltac grows :=
  repeat first
    [ solve [auto with grows]
    | apply Grows_bind; [|intros]
    | apply Grows_forEach; intros
    | match goal with
      | |- Grows (if ?b then _ else _) => destruct b
      | |- Grows (match ?x with _ => _ end) => destruct x
      | |- Grows (let _ := _ in _) => cbv zeta
      end ].

Lemma Grows_getFileContentFromCache env f : Grows (_getFileContentFromCache env f).
Proof. unfold _getFileContentFromCache. grows. Qed.

Lemma Grows_askService env {A} q (answer : TTypeScript -> HostView -> string -> A) f :
  Grows (askService env q answer f).
Proof. unfold askService. grows. Qed.

Lemma Grows_raise ds f : Grows (raise ds f).
Proof. unfold raise. grows. Qed.

#[global] Hint Resolve Grows_getFileContentFromCache Grows_askService Grows_raise : grows.

Lemma Grows_getDiagnostics env f : Grows (getDiagnostics env f).
Proof. unfold getDiagnostics. grows. Qed.

Lemma Grows_reTypeCheck env f entry : Grows (reTypeCheck env f entry).
Proof. unfold reTypeCheck. grows. Qed.

#[global] Hint Resolve Grows_getDiagnostics Grows_reTypeCheck : grows.

Lemma Grows_emitAndDiagnose env c f o b : Grows (emitAndDiagnose env c f o b).
Proof. unfold emitAndDiagnose. grows. Qed.

Lemma Grows_finishOutput env c f out ds : Grows (finishOutput env c f out ds).
Proof. unfold finishOutput. grows. Qed.

Lemma Grows_compileIsolated env c f b : Grows (compileIsolated env c f b).
Proof. unfold compileIsolated, _transpileOutput. grows. Qed.

#[global] Hint Resolve Grows_emitAndDiagnose Grows_finishOutput Grows_compileIsolated : grows.

Lemma Grows_getProgram env : Grows (getProgram env).
Proof. unfold getProgram. grows. Qed.

(** The steps of [getCompiledOutput] after the compiler options are fixed. *)
Lemma Grows_compile env c f o isEsm :
  Grows (bind (gets self)
           (fun c0 =>
              if _languageService c0 then
                if JS_JSX_REGEX env f && negb (is_true_opt (allowJs (_compilerOptions c0))) then
                  bind (modify (push_event (Warn (GotJsFileButAllowJsFalse f))))
                       (fun _ => ret {| code := c; diagnostics := None |})
                else
                  bind (emitAndDiagnose env c f o isEsm)
                       (fun emitted => finishOutput env c f (fst emitted) (snd emitted))
              else compileIsolated env c f isEsm)).
Proof. grows. Qed.
Lemma getCompiledOutput_steps env c f o s :
  exists s1,
    self s1 = set_compilerOptions
                (fixupCompilerOptionsForModuleKind env (_initialCompilerOptions (self s))
                   (useESM (configSet (self s)) && opt_supportsStaticESM o))
                (self s)
    /\ maps s1 = maps s
    /\ grows s1 (snd (getCompiledOutput env c f o s)).
Proof.
  destruct (prepareCompilerOptions_run env o s) as (s1 & Hrun & Hself & Hmaps).
  exists s1. split; [assumption|]. split; [assumption|].
  unfold getCompiledOutput. rewrite (bind_Ok _ _ _ _ _ Hrun). apply Grows_compile.
Qed.

(** X18: whatever [getCompiledOutput] returns or throws, the project version
    is not less afterwards and the contents in the memory cache are still
    there; and when every file with a version above 1 had its content in the
    memory cache, this is so again and no file has a lower version or has
    lost its version. *)
Theorem getCompiledOutput_overlay env fileContent fileName options s :
  let s' := snd (getCompiledOutput env fileContent fileName options s) in
  _projectVersion (self s) <= _projectVersion (self s')
  /\ (forall f, cached (self s) f -> cached (self s') f)
  /\ (overlay_wf (self s) ->
      overlay_wf (self s')
      /\ forall f v, versionOf (self s) f = Some v ->
                     exists v', versionOf (self s') f = Some v' /\ v <= v').
Proof.
  destruct (getCompiledOutput_steps env fileContent fileName options s)
    as (s1 & Hself & _ & (_ & _ & Hp & Hc & Hw)).
  cbv zeta. rewrite Hself in Hp, Hc, Hw. cbn in Hp.
  split; [exact Hp|]. split; [exact Hc|]. exact Hw.
Qed.

(** X19: whatever [getCompiledOutput] returns or throws, the compiler
    options in force afterwards are the initial options fixed up for the ESM
    mode of this call, whatever they were before; the initial options, the
    [ConfigSet], the parsed tsconfig, the language service and the two
    references to jest's cache are the same, and no [Map] object is made. *)
Theorem getCompiledOutput_compilerOptions env fileContent fileName options s :
  let s' := snd (getCompiledOutput env fileContent fileName options s) in
  _compilerOptions (self s')
  = fixupCompilerOptionsForModuleKind env (_initialCompilerOptions (self s))
      (useESM (configSet (self s)) && opt_supportsStaticESM options)
  /\ _initialCompilerOptions (self s') = _initialCompilerOptions (self s)
  /\ configSet (self s') = configSet (self s)
  /\ _parsedTsConfig (self s') = _parsedTsConfig (self s)
  /\ _languageService (self s') = _languageService (self s)
  /\ runtimeCacheFS (self s') = runtimeCacheFS (self s)
  /\ _runtimeCacheFS (self s') = _runtimeCacheFS (self s)
  /\ length (maps s') = length (maps s).
Proof.
  destruct (getCompiledOutput_steps env fileContent fileName options s)
    as (s1 & Hself & Hmaps & (Hf & Hm & _)).
  cbv zeta. unfold fixed in Hf. rewrite Hself in Hf. cbn in Hf.
  inversion Hf as [[H1 H2 H3 H4 H5 H6 H7 H8]].
  rewrite Hm, Hmaps. repeat split; assumption.
Qed.
Lemma fold_set_get (names : list string) (m0 : JsMap.t nat) g :
  JsMap.get (fold_left (fun m fileName => JsMap.set m fileName 0) names m0) g
  = if bool_decide (g ∈ names) then Some 0 else JsMap.get m0 g.
Proof.
  revert m0. induction names as [|x names IH]; intros m0; cbn [fold_left].
  - rewrite bool_decide_eq_false_2; [reflexivity|]. intros H. inversion H.
  - rewrite IH. destruct (decide (g ∈ names)) as [Hin|Hnin].
    + rewrite !bool_decide_eq_true_2; [reflexivity| |assumption]. now right.
    + rewrite (bool_decide_eq_false_2 _ Hnin).
      destruct (decide (x = g)) as [->|Hne].
      * rewrite JsMap_get_set_eq. rewrite bool_decide_eq_true_2; [reflexivity|left].
      * rewrite JsMap_get_set_ne by assumption.
        rewrite bool_decide_eq_false_2; [reflexivity|].
        intros H. apply elem_of_cons in H as [->|H]; auto.
Qed.

(** X14: for a file that is not in the memory cache, [_updateMemoryCache]
    sets the version of the file to 1 and increments the project version; the
    versions of the other files are the same; the content given is not
    stored, so that the file is in the memory cache afterwards only when the
    content cache had an entry for it. *)
Theorem updateMemoryCache_new_file contents f same s cache versions :
  _fileContentCache (self s) = Some cache -> _fileVersionCache (self s) = Some versions ->
  hitIn cache versions f = false ->
  exists s',
    _updateMemoryCache contents f same s = (Ok tt, s')
    /\ versionOf (self s') f = Some 1
    /\ (forall g, g <> f -> versionOf (self s') g = versionOf (self s) g)
    /\ _fileContentCache (self s') = Some cache
    /\ _projectVersion (self s') = S (_projectVersion (self s))
    /\ fst (_isFileInCache f s') = Ok (JsMap.has cache f).
Proof.
  intros Hc Hv Hhit.
  destruct (updateMemoryCache_run contents f same s cache versions Hc Hv)
    as (s' & Hrun & _ & _ & _ & _ & Hv' & Hc' & Hp).
  rewrite Hhit in Hv', Hc', Hp. cbn in Hc', Hp.
  exists s'. split; [exact Hrun|]. unfold versionOf. rewrite Hv', Hv.
  split; [apply JsMap_get_set_eq|].
  split; [intros g Hg; now rewrite JsMap_get_set_ne by congruence|].
  split; [exact Hc'|]. split; [exact Hp|].
  rewrite (isFileInCache_run f s' _ _ Hc' Hv'). cbn. unfold hitIn.
  rewrite JsMap_has_set_eq, JsMap_get_set_eq.
  rewrite bool_decide_eq_false_2 by discriminate. cbn. now rewrite !andb_true_r.
Qed.

Lemma JsMap_set_set {V} (m : JsMap.t V) k v : JsMap.set (JsMap.set m k v) k v = JsMap.set m k v.
Proof.
  induction m as [|[k' v'] m IH]; cbn.
  - now rewrite decide_True.
  - destruct (decide (k' = k)) as [->|Hne]; cbn.
    + now rewrite decide_True.
    + rewrite decide_False by assumption. now rewrite IH.
Qed.

(** X16: after a call of [_getFileContentFromCache] that returns, jest's
    cache holds what was returned for the normalized path, and the same call
    again returns the same and changes nothing. *)
Theorem getFileContentFromCache_memoizes env filePath s r s' :
  _getFileContentFromCache env filePath s = (Ok r, s') ->
  _getFileContentFromCache env filePath s' = (Ok r, s')
  /\ exists m, maps s' !! _runtimeCacheFS (self s') = Some m
               /\ StringMap_get m (normalize env filePath) = r.
Proof.
  unfold _getFileContentFromCache, getMap, cachedReadFile, setMapEntry, bind, gets, ret, modify,
    throw, with_self.
  set (nf := normalize env filePath). cbn.
  destruct (maps s !! _runtimeCacheFS (self s)) as [m|] eqn:Hm; [|discriminate].
  destruct (truthy (StringMap_get m nf)) eqn:Htruthy.
  { intros H. inversion H; subst; clear H. rewrite Hm, Htruthy. eauto. }
  destruct (_moduleResolutionHost (self s)) eqn:Hhost; [|discriminate].
  destruct (_cachedReadFile (self s)) as [memo|] eqn:Hmemo; [|discriminate].
  destruct (JsMap.get memo nf) as [r0|] eqn:Hr0; cbn; unfold StringMap in *; rewrite Hm; cbn.
  - intros H. inversion H; subst; clear H. cbn.
    rewrite list_lookup_insert_eq by (now apply lookup_lt_Some in Hm).
    rewrite StringMap_get_set_eq.
    split; [|eexists; split; [reflexivity|apply StringMap_get_set_eq]].
    destruct (truthy r) eqn:Hr; [reflexivity|].
    rewrite Hhost, Hmemo, Hr0. cbn.
    rewrite list_lookup_insert_eq by (now apply lookup_lt_Some in Hm). cbn.
    now rewrite list_insert_insert_eq, JsMap_set_set.
  - intros H. inversion H; subst; clear H. cbn.
    rewrite list_lookup_insert_eq by (now apply lookup_lt_Some in Hm).
    rewrite StringMap_get_set_eq.
    split; [|eexists; split; [reflexivity|apply StringMap_get_set_eq]].
    destruct (truthy (sys_readFile _ nf)) eqn:Hr; [reflexivity|].
    rewrite Hhost. cbn. rewrite JsMap_get_set_eq. cbn.
    rewrite list_lookup_insert_eq by (now apply lookup_lt_Some in Hm). cbn.
    now rewrite list_insert_insert_eq, JsMap_set_set.
Qed.

(** ** JavaScript without [allowJs], and isolated modules *)

(** The events of [prepareCompilerOptions]. *)
Lemma prepareCompilerOptions_events env o s :
  exists s1,
    prepareCompilerOptions env o s
      = (Ok (useESM (configSet (self s)) && opt_supportsStaticESM o), s1)
    /\ self s1 = set_compilerOptions
                   (fixupCompilerOptionsForModuleKind env (_initialCompilerOptions (self s))
                      (useESM (configSet (self s)) && opt_supportsStaticESM o))
                   (self s)
    /\ maps s1 = maps s
    /\ events s1
       = (events s
          ++ if negb (is_true_opt (co_isolatedModules (_initialCompilerOptions (self s))))
                && isModernNodeModuleKind env (module (_initialCompilerOptions (self s)))
             then [Warn UsingModernNodeResolution] else [])%list.
Proof.
  unfold prepareCompilerOptions, bind, gets, modify, ret. cbn.
  destruct (negb _ && _); cbn; eexists; repeat split. now rewrite app_nil_r.
Qed.

(** X20: with a language service, [getCompiledOutput] for a JavaScript file
    when [allowJs] is not set in the tsconfig returns the content unchanged
    with no diagnostics and logs a warning; besides fixing the compiler
    options, the compiler and the [Map] objects are untouched. *)
Theorem getCompiledOutput_js_without_allowJs env fileContent fileName options s :
  _languageService (self s) = true ->
  JS_JSX_REGEX env fileName = true ->
  is_true_opt (allowJs (_initialCompilerOptions (self s))) = false ->
  exists s',
    getCompiledOutput env fileContent fileName options s
    = (Ok {| code := fileContent; diagnostics := None |}, s')
    /\ self s' = set_compilerOptions
                   (fixupCompilerOptionsForModuleKind env (_initialCompilerOptions (self s))
                      (useESM (configSet (self s)) && opt_supportsStaticESM options))
                   (self s)
    /\ maps s' = maps s
    /\ events s'
       = (events s
          ++ (if negb (is_true_opt (co_isolatedModules (_initialCompilerOptions (self s))))
                 && isModernNodeModuleKind env (module (_initialCompilerOptions (self s)))
              then [Warn UsingModernNodeResolution] else [])
          ++ [Warn (GotJsFileButAllowJsFalse fileName)])%list.
Proof.
  intros Hls Hjs Hallow.
  destruct (prepareCompilerOptions_events env options s) as (s1 & Hrun & Hself & Hmaps & Hev).
  unfold getCompiledOutput. rewrite (bind_Ok _ _ _ _ _ Hrun).
  unfold bind at 1, gets. rewrite Hself. cbn [_languageService set_compilerOptions].
  rewrite Hls, Hjs. cbn [_compilerOptions set_compilerOptions]. rewrite fixup_allowJs, Hallow. cbn.
  eexists. split; [reflexivity|]. cbn. rewrite Hself, Hmaps, Hev, <- app_assoc. auto.
Qed.

Lemma compileIsolated_run env fileContent fileName isEsmMode s1 :
  let c := self s1 in
  let result :=
    if negb (isModernNodeModuleKind env (module (_initialCompilerOptions c))) then
      transpileModule (_ts c) fileContent
        {| to_fileName := fileName; to_compilerOptions := _compilerOptions c;
           to_reportDiagnostics := Some (shouldReportDiagnostics (configSet c) fileName) |}
    else
      tsTranspileModule env fileContent
        {| to_fileName := fileName; to_compilerOptions := _initialCompilerOptions c;
           to_reportDiagnostics :=
             Some (if truthy (Some fileName) then shouldReportDiagnostics (configSet c) fileName
                   else false) |} in
  let out := {| code := updateOutput env (outputText result) fileName (sourceMapText result);
                diagnostics := None |} in
  exists s2,
    self s2 = self s1 /\ maps s2 = maps s1
    /\ compileIsolated env fileContent fileName isEsmMode s1
       = (match to_diagnostics result with
          | Some ds =>
              if shouldReportDiagnostics (configSet c) fileName then
                match raiseDiagnostics (configSet c) ds fileName with
                | Some e => Throw e
                | None => Ok out
                end
              else Ok out
          | None => Ok out
          end, s2).
Proof.
  cbv zeta. unfold compileIsolated, _transpileOutput, raise.
  unfold bind, gets, modify, ret, throw. cbn.
  destruct (isEsmMode && _); cbn;
    destruct (negb (isModernNodeModuleKind _ _)); cbn;
    repeat (match goal with
            | |- context [match to_diagnostics ?x with _ => _ end] =>
                destruct (to_diagnostics x); cbn
            | |- context [if shouldReportDiagnostics ?a ?b then _ else _] =>
                destruct (shouldReportDiagnostics a b); cbn
            | |- context [match raiseDiagnostics ?a ?b ?c with _ => _ end] =>
                destruct (raiseDiagnostics a b c); cbn
            end);
    eexists; (split; [|split; [|reflexivity]]); reflexivity.
Qed.

(** ** When the reporting policy is not called *)

Lemma calm_refl s : calm s s.
Proof. split; [|reflexivity]. exists []. now rewrite app_nil_r. Qed.

Lemma calm_trans s1 s2 s3 : calm s1 s2 -> calm s2 s3 -> calm s1 s3.
Proof.
  intros ((e1 & He1 & Hf1) & Hc1) ((e2 & He2 & Hf2) & Hc2). split; [|congruence].
  exists (e1 ++ e2)%list. split; [now rewrite He2, He1, app_assoc|]. now apply Forall_app.
Qed.

Lemma calm_same s s' :
  events s' = events s -> configSet (self s') = configSet (self s) -> calm s s'.
Proof. intros He Hc. split; [|assumption]. exists []. now rewrite app_nil_r. Qed.

Lemma Calm_ret {A} (a : A) : Calm (ret a).
Proof. apply Keeps_ret, calm_refl. Qed.

Lemma Calm_throw {A} e : Calm (@throw CompilerState A e).
Proof. apply Keeps_throw, calm_refl. Qed.

Lemma Calm_gets {A} (f : CompilerState -> A) : Calm (gets f).
Proof. apply Keeps_gets, calm_refl. Qed.

Lemma Calm_bind {A B} (m : M CompilerState A) (k : A -> M CompilerState B) :
  Calm m -> (forall a, Calm (k a)) -> Calm (bind m k).
Proof. apply Keeps_bind, calm_trans. Qed.

Lemma Calm_forEach {A} (l : list A) (f : A -> M CompilerState unit) :
  (forall x, Calm (f x)) -> Calm (forEach l f).
Proof. apply Keeps_forEach; [apply calm_refl|apply calm_trans]. Qed.

Lemma Calm_getMap r : Calm (getMap r).
Proof. apply Keeps_getMap, calm_refl. Qed.

Lemma Calm_modify_self (f : TsCompiler -> TsCompiler) :
  (forall c, configSet (f c) = configSet c) -> Calm (modify (with_self f)).
Proof. intros Hf s. apply calm_same; cbn; auto. Qed.

Lemma Calm_warn m : Calm (modify (push_event (Warn m))).
Proof.
  intros s. split; [|reflexivity]. exists [Warn m]. split; [reflexivity|].
  constructor; [exact I|constructor].
Qed.

Lemma Calm_service q f : Calm (modify (push_event (Service q f))).
Proof.
  intros s. split; [|reflexivity]. exists [Service q f]. split; [reflexivity|].
  constructor; [exact I|constructor].
Qed.

Lemma Calm_setMapEntry r k v : Calm (setMapEntry r k v).
Proof.
  intros s. unfold setMapEntry. destruct (maps s !! r); [|apply calm_refl].
  now apply calm_same.
Qed.

Create HintDb calm.

#[global] Hint Resolve Calm_ret Calm_throw Calm_gets Calm_getMap Calm_warn Calm_service
  Calm_setMapEntry : calm.

Ltac calm :=
  repeat first
    [ solve [auto with calm]
    | apply Calm_modify_self; intros; reflexivity
    | apply Calm_bind; [|intros]
    | apply Calm_forEach; intros
    | match goal with
      | |- Calm (if ?b then _ else _) => destruct b
      | |- Calm (match ?x with _ => _ end) => destruct x
      | |- Calm (let _ := _ in _) => cbv zeta
      end ].

Lemma Calm_updateMemoryCache c f b : Calm (_updateMemoryCache c f b).
Proof.
  unfold _updateMemoryCache, _isFileInCache, setVersion, setContent, increment_projectVersion,
    fileVersionCache, fileContentCache.
  calm.
Qed.

Lemma Calm_getScriptSnapshot env f : Calm (getScriptSnapshot env f).
Proof.
  unfold getScriptSnapshot, _isFileInCache, setVersion, setContent, cachedReadFile,
    fileVersionCache, fileContentCache.
  calm.
Qed.

#[global] Hint Resolve Calm_updateMemoryCache Calm_getScriptSnapshot : calm.

Lemma Calm_askService env {A} q (answer : TTypeScript -> HostView -> string -> A) f :
  Calm (askService env q answer f).
Proof. unfold askService. calm. Qed.

Lemma Calm_finishOutput env c f out ds : Calm (finishOutput env c f out ds).
Proof. unfold finishOutput. calm. Qed.

#[global] Hint Resolve Calm_askService Calm_finishOutput : calm.

Lemma getDiagnostics_unreported env f s :
  shouldReportDiagnostics (configSet (self s)) f = false ->
  getDiagnostics env f s = (Ok [], s).
Proof. intros H. unfold getDiagnostics, bind, gets. cbn. now rewrite H. Qed.

Lemma Calm_getDiagnostics env f : Calm (getDiagnostics env f).
Proof. unfold getDiagnostics. calm. Qed.

#[global] Hint Resolve Calm_getDiagnostics : calm.

Lemma Calm_emitAndDiagnose_esm env c f o : Calm (emitAndDiagnose env c f o true).
Proof. unfold emitAndDiagnose. cbn [negb andb]. calm. Qed.

Lemma calm_emitAndDiagnose_unreported env c f o isEsm s :
  shouldReportDiagnostics (configSet (self s)) f = false ->
  calm s (snd (emitAndDiagnose env c f o isEsm s)).
Proof.
  intros Hrep. unfold emitAndDiagnose. unfold bind at 1, gets.
  pose proof (Calm_updateMemoryCache (Some c) f
                (bool_decide (module (_compilerOptions (self s))
                              = module (_initialCompilerOptions (self s)))) s) as HA.
  unfold bind at 1.
  destruct (_updateMemoryCache _ _ _ s) as [[u|e] sA]; cbn [snd] in HA |- *; [|exact HA].
  pose proof (Calm_askService env EmitOutputQuery getEmitOutput f sA) as HB.
  unfold bind at 1.
  destruct (askService env EmitOutputQuery getEmitOutput f sA) as [[out|e] sB];
    cbn [snd] in HB |- *; [|exact (calm_trans _ _ _ HA HB)].
  assert (HAB : calm s sB) by exact (calm_trans _ _ _ HA HB).
  assert (Hrep' : shouldReportDiagnostics (configSet (self sB)) f = false).
  { destruct HAB as (_ & Hcs). now rewrite Hcs. }
  unfold bind at 1. rewrite (getDiagnostics_unreported env f sB Hrep').
  rewrite bool_decide_eq_true_2 by reflexivity. rewrite andb_false_r. cbn. exact HAB.
Qed.

(** X22: with a language service, [getCompiledOutput] does not call the
    reporting policy in ESM mode, nor for a file whose diagnostics are not to
    be reported. *)
Theorem getCompiledOutput_no_raise env fileContent fileName options s :
  _languageService (self s) = true ->
  useESM (configSet (self s)) && opt_supportsStaticESM options = true
  \/ shouldReportDiagnostics (configSet (self s)) fileName = false ->
  noRaise s (snd (getCompiledOutput env fileContent fileName options s)).
Proof.
  intros Hls Hcase.
  destruct (prepareCompilerOptions_events env options s) as (s1 & Hrun & Hself & Hmaps & Hev).
  assert (H01 : calm s s1).
  { split; [|now rewrite Hself]. eexists. split; [exact Hev|].
    destruct (negb _ && isModernNodeModuleKind _ _); [constructor; [exact I|constructor]|constructor]. }
  enough (H : calm s1 (snd (getCompiledOutput env fileContent fileName options s)))
    by exact (proj1 (calm_trans _ _ _ H01 H)).
  unfold getCompiledOutput. rewrite (bind_Ok _ _ _ _ _ Hrun).
  unfold bind at 1, gets.
  replace (_languageService (self s1)) with true by (rewrite Hself; cbn; now rewrite Hls).
  destruct (JS_JSX_REGEX env fileName && _).
  { apply (Calm_bind _ _ (Calm_warn _) (fun _ => Calm_ret _)). }
  assert (Hemit : calm s1 (snd (emitAndDiagnose env fileContent fileName options
                                  (useESM (configSet (self s)) && opt_supportsStaticESM options)
                                  s1))).
  { destruct Hcase as [Hesm|Hrep].
    - rewrite Hesm. apply Calm_emitAndDiagnose_esm.
    - apply calm_emitAndDiagnose_unreported. rewrite Hself. exact Hrep. }
  unfold bind.
  destruct (emitAndDiagnose _ _ _ _ _ s1) as [[emitted|e] s2]; cbn [snd] in Hemit |- *;
    [|exact Hemit].
  eapply calm_trans; [exact Hemit|]. apply Calm_finishOutput.
Qed.
(** ** The resolved modules *)

Lemma is_Some_insert {A} (l : list A) i j x : is_Some (l !! i) -> is_Some (<[j := x]> l !! i).
Proof.
  intros H. apply lookup_lt_is_Some. rewrite length_insert. now apply lookup_lt_is_Some.
Qed.

Lemma getFileContentFromCache_ready env f s :
  ready s ->
  exists r s', _getFileContentFromCache env f s = (Ok r, s')
               /\ ready s' /\ configSet (self s') = configSet (self s)
               /\ _compilerOptions (self s') = _compilerOptions (self s).
Proof.
  intros (Hhost & (memo & Hmemo) & Hr & (m & Hm)).
  unfold _getFileContentFromCache, getMap, cachedReadFile, setMapEntry, bind, gets, ret, modify,
    with_self.
  cbn. unfold StringMap in *. rewrite Hm.
  destruct (truthy _).
  { eexists _, _. split; [reflexivity|]. repeat split; eauto. }
  rewrite Hhost, Hmemo.
  destruct (JsMap.get memo _) as [r0|]; cbn; rewrite Hm; cbn;
    (eexists _, _; split; [reflexivity|]); unfold ready; cbn;
    (split; [split; [assumption|]; split; [eauto|]; split; apply is_Some_insert; eauto|auto]).
Qed.

Lemma expandImportedModulePaths_ready env c0 visit acc s :
  ready s -> configSet (self s) = configSet c0 -> _compilerOptions (self s) = _compilerOptions c0 ->
  exists L s',
    expandImportedModulePaths env visit acc s = (Ok L, s')
    /\ acc `prefix_of` L
    /\ forall x, x ∈ L ->
         x ∈ acc \/ exists d content, d ∈ visit /\ x ∈ resolvedImports c0 content d.
Proof.
  revert acc s. induction visit as [|d visit IH]; intros acc s Hready Hcs Hco; cbn.
  - exists acc, s. split; [reflexivity|]. split; [reflexivity|]. auto.
  - destruct (getFileContentFromCache_ready env d s Hready) as (r & s1 & Hrun & Hready1 & Hcs1 & Hco1).
    rewrite (bind_Ok _ _ _ _ _ Hrun).
    rewrite (bind_Ok _ _ _ _ _ (getImportedModulePaths_run r d s1 (proj1 Hready1))).
    rewrite (resolvedImports_same c0 (self s1)) by congruence.
    destruct (IH (acc ++ filter (fun modulePath => modulePath ∉ acc) (resolvedImports c0 r d))%list
                s1 Hready1) as (L & s' & HL & Hpre & Hall); [congruence|congruence|].
    exists L, s'. split; [exact HL|]. split.
    + etransitivity; [|exact Hpre]. now apply prefix_app_r.
    + intros x Hx. destruct (Hall x Hx) as [Hin|(d' & content & Hd' & Hin)].
      * apply elem_of_app in Hin as [Hin|Hin]; [now left|].
        apply list_elem_of_filter in Hin as (_ & Hin). right. exists d, r. split; [left|assumption].
      * right. exists d', content. split; [now right|assumption].
Qed.

Lemma setFrom_spec seen xs :
  NoDup (setFrom seen xs)
  /\ (forall x, x ∈ setFrom seen xs <-> x ∈ xs /\ x ∉ seen).
Proof.
  revert seen. induction xs as [|y xs IH]; intros seen; cbn.
  - split; [constructor|]. intros x. split; [intros H; inversion H|intros (H & _); inversion H].
  - destruct (decide (y ∈ seen)) as [Hin|Hnin].
    + rewrite bool_decide_eq_true_2 by assumption. destruct (IH seen) as (Hnd & Hiff).
      split; [assumption|]. intros x. rewrite Hiff. split.
      * intros (Hx & Hs). split; [now right|assumption].
      * intros (Hx & Hs). split; [|assumption].
        apply elem_of_cons in Hx as [->|Hx]; [contradiction|assumption].
    + rewrite bool_decide_eq_false_2 by assumption. destruct (IH (y :: seen)) as (Hnd & Hiff).
      split.
      * constructor; [|assumption]. intros Hy. apply Hiff in Hy as (_ & Hy). apply Hy. left.
      * intros x. rewrite elem_of_cons, Hiff. split.
        -- intros [->|(Hx & Hs)].
           ++ split; [left|assumption].
           ++ split; [now right|]. intros Hxs. apply Hs. now right.
        -- intros (Hx & Hs). apply elem_of_cons in Hx as [->|Hx]; [now left|].
           destruct (decide (x = y)) as [->|Hne]; [now left|]. right. split; [assumption|].
           intros Hxy. apply elem_of_cons in Hxy as [?|?]; contradiction.
Qed.


(** ** The registry under the public methods *)

Lemma steady_refl p : steady p p.
Proof. split; [reflexivity|]. split; [lia|auto]. Qed.

Lemma steady_trans p1 p2 p3 : steady p1 p2 -> steady p2 p3 -> steady p1 p3.
Proof.
  intros (H1 & H2 & H3) (H1' & H2' & H3'). split; [|split; [lia|auto]].
  etransitivity; eassumption.
Qed.

Lemma steady_same p p' :
  _cachedConfigSets p' = _cachedConfigSets p ->
  length (heap_compilers p') = length (heap_compilers p) -> steady p p'.
Proof.
  intros Hr Hh. unfold steady, registry_wf. rewrite Hr, Hh.
  split; [reflexivity|]. split; [lia|auto].
Qed.

Lemma Steady_configsFor env o : Keeps steady (_configsFor env o).
Proof.
  intros p. destruct (_configsFor env o p) as [r p1] eqn:H. cbn.
  apply configsFor_registry in H
    as [(Hr & Hh)|[(i & sccs & ccs & Hi & Hs & Hr & Hh)|(ccs & c & Hr & Hc & Hh)]].
  - apply steady_same; congruence.
  - unfold steady, registry_wf. rewrite Hr, Hh.
    split; [now rewrite (map_session_insert _ _ _ _ Hi Hs)|]. split; [lia|].
    intros (Hlt & Hnd). split.
    + apply Forall_insert; [assumption|].
      rewrite (session_compiler _ _ Hs). eapply Forall_lookup_1 in Hlt; eauto.
    + change (NoDup (ccs_compiler <$> <[i:=ccs]> (_cachedConfigSets p))).
      rewrite list_fmap_insert, (session_compiler _ _ Hs), list_insert_id; [assumption|].
      now rewrite list_lookup_fmap, Hi.
  - unfold steady, registry_wf. rewrite Hr, Hh.
    split; [rewrite map_app; now apply prefix_app_r|].
    split; [rewrite length_app; lia|].
    intros (Hlt & Hnd). split.
    + apply Forall_app. split.
      * revert Hlt. apply Forall_impl. intros x Hx. rewrite length_app. cbn. lia.
      * constructor; [|constructor]. rewrite length_app. cbn. lia.
    + rewrite map_app. apply list.NoDup_app. split; [assumption|]. split.
      * intros x Hx Hx'. cbn in Hx'. apply list_elem_of_singleton in Hx'. subst x.
        apply list_elem_of_fmap in Hx as (y & Hy & Hin).
        pose proof (proj1 (list.Forall_forall _ _) Hlt y Hin) as Hlty. cbn in Hlty. lia.
      * cbn. apply NoDup_singleton.
Qed.

Lemma Steady_onCompiler {A} (m : M CompilerState A) : Keeps steady (onCompiler m).
Proof.
  intros p. unfold onCompiler. destruct (_compiler (this p)) as [r|]; [|apply steady_refl].
  destruct (heap_compilers p !! r); [|apply steady_refl].
  apply steady_same; cbn; [reflexivity|apply length_insert].
Qed.

Lemma Steady_depGraphsOfThis : Keeps steady depGraphsOfThis.
Proof.
  intros p. unfold depGraphsOfThis. destruct (heap_depGraphs p !! _); apply steady_refl.
Qed.

Lemma Steady_push_trace e : Keeps steady (modify (push_trace e)).
Proof. intros p. now apply steady_same. Qed.

Lemma Steady_statSync env f : Keeps steady (statSync_mtimeMs env f).
Proof. intros p. unfold statSync_mtimeMs. destruct (mtimeMs env f); apply steady_refl. Qed.

Lemma Steady_ret {A} (a : A) : Keeps steady (@ret Process A a).
Proof. apply Keeps_ret, steady_refl. Qed.

Lemma Steady_throw {A} e : Keeps steady (@throw Process A e).
Proof. apply Keeps_throw, steady_refl. Qed.

Lemma Steady_gets {A} (f : Process -> A) : Keeps steady (gets f).
Proof. apply Keeps_gets, steady_refl. Qed.

Lemma Steady_bind {A B} (m : M Process A) (k : A -> M Process B) :
  Keeps steady m -> (forall a, Keeps steady (k a)) -> Keeps steady (bind m k).
Proof. apply Keeps_bind, steady_trans. Qed.

Lemma Steady_setDepGraph f info : Keeps steady (setDepGraph f info).
Proof.
  unfold setDepGraph. apply Steady_bind; [apply Steady_depGraphsOfThis|].
  intros g p. now apply steady_same.
Qed.

Create HintDb steady.

#[global] Hint Resolve Steady_configsFor Steady_onCompiler Steady_depGraphsOfThis
  Steady_push_trace Steady_statSync Steady_ret Steady_throw Steady_gets Steady_setDepGraph
  : steady.

Ltac steady :=
  repeat first
    [ solve [auto with steady]
    | apply Steady_bind; [|intros]
    | match goal with
      | |- Keeps steady (if ?b then _ else _) => destruct b
      | |- Keeps steady (match ?x with _ => _ end) => destruct x
      | |- Keeps steady (let _ := _ in _) => cbv zeta
      end ].

Lemma Steady_pushModuleElements env L acc : Keeps steady (pushModuleElements env L acc).
Proof.
  revert acc. induction L as [|x L IH]; intros acc; cbn; steady.
Qed.

#[global] Hint Resolve Steady_pushModuleElements : steady.

Lemma Steady_processWithTs env text path o : Keeps steady (processWithTs env text path o).
Proof. unfold processWithTs. steady. Qed.

Lemma Steady_runTsJestHook env path text o r : Keeps steady (runTsJestHook env path text o r).
Proof. unfold runTsJestHook. steady. Qed.

#[global] Hint Resolve Steady_processWithTs Steady_runTsJestHook : steady.

(** X24: whatever [process], [processAsync] and [getCacheKey] return or
    throw, the sessions of the registry are still there afterwards, at the
    same places, no compiler is gone, and when every record had a compiler of
    its own that was made, this is so again. *)
Theorem public_methods_keep_registry env text path o p :
  steady p (snd (process env text path o p))
  /\ steady p (snd (processAsync env text path o p))
  /\ steady p (snd (getCacheKey env text path o p)).
Proof.
  split; [|split].
  - revert p. change (Keeps steady (process env text path o)). unfold process. steady.
  - revert p. change (Keeps steady (processAsync env text path o)). unfold processAsync. steady.
  - revert p. change (Keeps steady (getCacheKey env text path o)).
    unfold getCacheKey, cacheKeyElements, resolvedModuleNamesOf. steady.
Qed.
(** ** The example digest has no collisions *)

Lemma ones_inj n m x y :
  (Demo.ones n ++ String "0" x)%string = (Demo.ones m ++ String "0" y)%string -> n = m /\ x = y.
Proof.
  revert m. induction n as [|n IH]; intros [|m]; cbn; intros H.
  - now injection H.
  - discriminate.
  - discriminate.
  - injection H as H. destruct (IH _ H) as [-> ->]. auto.
Qed.

Lemma append_inj_length (a b x y : string) :
  String.length a = String.length b -> (a ++ x)%string = (b ++ y)%string -> a = b /\ x = y.
Proof.
  revert b. induction a as [|c a IH]; intros [|d b]; cbn; intros Hl H; try discriminate.
  - auto.
  - injection H as -> H. injection Hl as Hl. destruct (IH _ Hl H) as [-> ->]. auto.
Qed.

Lemma digest_inj a b : Demo.digest a = Demo.digest b -> a = b.
Proof.
  revert b. induction a as [|s a IH]; intros [|t b]; cbn; intros H.
  - reflexivity.
  - destruct (String.length t); discriminate.
  - destruct (String.length s); discriminate.
  - apply ones_inj in H as [Hl H]. apply append_inj_length in H as [-> H]; [|assumption].
    now rewrite (IH _ H).
Qed.

(** ** The code at the inputs where it leaves the specification *)

(** C3 (the code at the failing input): [getResolvedModules] for a.ts, which
    imports b, which imports c, which imports d, returns b and c only: the
    elements pushed during [forEach] are not visited, so the imports of c are
    never resolved although c's text imports d.  And a path that a nested
    file imports twice is listed twice. *)
Lemma getResolvedModules_not_the_closure :
  fst (getResolvedModules (world full) "import './b'" "/p/a.ts" 0 (Demo.session (world full) full))
    = Ok ["/p/b.ts"; "/p/c.ts"]
  /\ fst (_getImportedModulePaths (Demo.disk "/p/c.ts") "/p/c.ts"
            (Demo.session (world full) full))
    = Ok ["/p/d.ts"]
  /\ fst (getResolvedModules (world full) "import './twice'" "/p/a.ts" 0
            (Demo.session (world full) full))
    = Ok ["/p/twice.ts"; "/p/c.ts"; "/p/c.ts"].
Proof. repeat split; vm_compute; reflexivity. Qed.

(** C2 (the code at the failing input): one transformer resolves the
    configuration A and then the configuration B, another object with
    another serialized form.  The registry then holds two records with two
    compilers and one and the same dependency-graph map, the one of the
    transformer. *)
Lemma configsFor_shares_depGraphs :
  map (fun cs => (obj_ref (jv_value (ccs_jestConfig cs)), jv_serialized (ccs_jestConfig cs)))
      (_cachedConfigSets (snd (_configsFor (world full) bConfig (afterResolve full))))
    = [(1, "A"); (2, "B")]
  /\ map ccs_compiler
         (_cachedConfigSets (snd (_configsFor (world full) bConfig (afterResolve full))))
    = [0; 1]
  /\ map ccs_depGraphs
         (_cachedConfigSets (snd (_configsFor (world full) bConfig (afterResolve full))))
    = [0; 0].
Proof. repeat split; vm_compute; reflexivity. Qed.


(** ** Counterexamples to the claims as they are stated *)




(** C6 (counterexample): the configuration stringifies the path of a
    declaration file; the code returned is not empty. *)
Lemma processWithTs_stringifies_declaration_file :
  endsWith "/p/a.d.ts" DECLARATION_TYPE_EXT = true
  /\ fst (processWithTs (world stringifying) "declare const x: number" "/p/a.d.ts" aConfig
            Demo.start)
     = Ok {| code := "module.exports=declare const x: number"; diagnostics := None |}.
Proof. repeat split; vm_compute; reflexivity. Qed.

(** C8 (counterexample): x.js is allowed JavaScript, its emit is skipped, it
    has a diagnostic and the reporting policy throws: [getCompiledOutput]
    throws the error of the policy, it does not return the content. *)
Lemma getCompiledOutput_policy_throws_first :
  emitSkipped (getEmitOutput (compilerModule (skipping true))
                 (hostView (self (Demo.session (world (skipping true)) (skipping true))))
                 "/p/x.js") = true
  /\ TS_TSX_REGEX (world (skipping true)) "/p/x.js" = false
  /\ fst (getCompiledOutput (world (skipping true)) "x" "/p/x.js" (Demo.compileOptions [] false)
            (Demo.session (world (skipping true)) (skipping true)))
     = Throw (TSError [d2322]).
Proof. repeat split; vm_compute; reflexivity. Qed.

(** C10 (counterexample): the configuration stringifies the path of a
    JavaScript file of node_modules; the code returned is the stringified
    content, not the transpiled one. *)
Lemma processWithTs_stringifies_node_module_js :
  JS_JSX_REGEX (world stringifying) "/p/node_modules/m/i.js" = true
  /\ isNodeModule (world stringifying) "/p/node_modules/m/i.js" = true
  /\ fst (processWithTs (world stringifying) "x" "/p/node_modules/m/i.js" aConfig Demo.start)
     = Ok {| code := "module.exports=x"; diagnostics := None |}
  /\ outputText (transpileModule (ts (world stringifying)) "x"
                   {| to_fileName := "/p/node_modules/m/i.js";
                      to_compilerOptions := with_module CommonJS (Demo.compilerOptions None false);
                      to_reportDiagnostics := None |})
     = "x".
Proof. repeat split; vm_compute; reflexivity. Qed.

(** ** The theorems at concrete inputs *)

(** C6 at a declaration file of the example project. *)
Lemma processWithTs_declaration_file_witness :
  _configsFor (world full) aConfig Demo.start = (Ok full, afterResolve full)
  /\ shouldStringifyContent full "/p/a.d.ts" = false
  /\ endsWith "/p/a.d.ts" DECLARATION_TYPE_EXT = true
  /\ processWithTs (world full) "declare const x: number" "/p/a.d.ts" aConfig Demo.start
     = (Ok {| code := ""; diagnostics := None |}, afterResolve full)
  /\ process (world full) "declare const x: number" "/p/a.d.ts" aConfig Demo.start
     = (Ok {| ts_code := ""; ts_map := None |}, afterResolve full).
Proof.
  assert (Hc : _configsFor (world full) aConfig Demo.start = (Ok full, afterResolve full))
    by (vm_compute; reflexivity).
  destruct (processWithTs_declaration_file (world full) "declare const x: number" "/p/a.d.ts"
              aConfig Demo.start full (afterResolve full) Hc eq_refl eq_refl) as [H1 H2].
  split; [exact Hc|]. split; [reflexivity|]. split; [reflexivity|].
  split; [exact H1|]. exact (H2 eq_refl eq_refl).
Defined.

(** C10 at a JavaScript file under node_modules. *)
Lemma processWithTs_node_module_js_witness :
  _configsFor (world full) aConfig Demo.start = (Ok full, afterResolve full)
  /\ shouldStringifyContent full "/p/node_modules/m/i.js" = false
  /\ endsWith "/p/node_modules/m/i.js" DECLARATION_TYPE_EXT = false
  /\ JS_JSX_REGEX (world full) "/p/node_modules/m/i.js" = true
  /\ isNodeModule (world full) "/p/node_modules/m/i.js" = true
  /\ processWithTs (world full) "x" "/p/node_modules/m/i.js" aConfig Demo.start
     = (Ok {| code := "x"; diagnostics := None |}, afterResolve full)
  /\ process (world full) "x" "/p/node_modules/m/i.js" aConfig Demo.start
     = (Ok {| ts_code := "x"; ts_map := None |}, afterResolve full).
Proof.
  assert (Hc : _configsFor (world full) aConfig Demo.start = (Ok full, afterResolve full))
    by (vm_compute; reflexivity).
  destruct (processWithTs_node_module_js (world full) "x" "/p/node_modules/m/i.js"
              aConfig Demo.start full (afterResolve full) Hc eq_refl eq_refl eq_refl eq_refl)
    as [H1 H2].
  split; [exact Hc|]. split; [reflexivity|]. split; [reflexivity|].
  split; [reflexivity|]. split; [reflexivity|].
  split; [exact H1|]. exact (H2 eq_refl eq_refl).
Defined.

(** C8 at a.ts, whose emit the service skips while the policy only warns. *)
Lemma getCompiledOutput_emit_result_witness :
  prepareCompilerOptions (world (skipping false)) (Demo.compileOptions [] false)
    (Demo.session (world (skipping false)) (skipping false))
  = (Ok false, prepared (skipping false) (Demo.compileOptions [] false))
  /\ _languageService (self (prepared (skipping false) (Demo.compileOptions [] false))) = true
  /\ emitAndDiagnose (world (skipping false)) "import './b'" "/p/a.ts"
       (Demo.compileOptions [] false) false
       (prepared (skipping false) (Demo.compileOptions [] false))
     = (Ok ({| emitSkipped := true; outputFiles := [] |}, [d2322]),
        diagnosed (skipping false) "import './b'" "/p/a.ts" (Demo.compileOptions [] false))
  /\ getCompiledOutput (world (skipping false)) "import './b'" "/p/a.ts"
       (Demo.compileOptions [] false) (Demo.session (world (skipping false)) (skipping false))
     = (Throw (CannotProcessFile "/p/a.ts"),
        diagnosed (skipping false) "import './b'" "/p/a.ts" (Demo.compileOptions [] false)).
Proof.
  assert (Hp : prepareCompilerOptions (world (skipping false)) (Demo.compileOptions [] false)
                 (Demo.session (world (skipping false)) (skipping false))
               = (Ok false, prepared (skipping false) (Demo.compileOptions [] false)))
    by (vm_compute; reflexivity).
  assert (He : emitAndDiagnose (world (skipping false)) "import './b'" "/p/a.ts"
                 (Demo.compileOptions [] false) false
                 (prepared (skipping false) (Demo.compileOptions [] false))
               = (Ok ({| emitSkipped := true; outputFiles := [] |}, [d2322]),
                  diagnosed (skipping false) "import './b'" "/p/a.ts"
                    (Demo.compileOptions [] false)))
    by (vm_compute; reflexivity).
  destruct (getCompiledOutput_emit_result (world (skipping false)) "import './b'" "/p/a.ts"
              (Demo.compileOptions [] false)
              (Demo.session (world (skipping false)) (skipping false)) false
              (prepared (skipping false) (Demo.compileOptions [] false))
              {| emitSkipped := true; outputFiles := [] |} [d2322]
              (diagnosed (skipping false) "import './b'" "/p/a.ts" (Demo.compileOptions [] false))
              Hp eq_refl eq_refl He)
    as (H1 & _ & _).
  split; [exact Hp|]. split; [reflexivity|]. split; [exact He|]. exact (H1 eq_refl eq_refl).
Defined.




(** X1 at the configuration A, through other options with the same object. *)
Lemma configsFor_same_object_witness :
  _configsFor (world full) aConfig Demo.start = (Ok full, afterResolve full)
  /\ obj_ref (config (with_instrument true aConfig)) = obj_ref (config aConfig)
  /\ _configsFor (world full) (with_instrument true aConfig) (afterResolve full)
     = (Ok full, afterResolve full).
Proof.
  assert (Hc : _configsFor (world full) aConfig Demo.start = (Ok full, afterResolve full))
    by (vm_compute; reflexivity).
  split; [exact Hc|]. split; [reflexivity|].
  exact (configsFor_same_object (world full) aConfig (with_instrument true aConfig) _ _ _ Hc
           eq_refl).
Defined.

(** X2 at a copy of the configuration A, after A was resolved. *)
Lemma configsFor_by_serialized_form_witness :
  list_find (sameObject (config aCopy)) (_cachedConfigSets (afterResolve full)) = None
  /\ list_find (sameSerialized (stringify (world full) (obj_fields (config aCopy))))
               (_cachedConfigSets (afterResolve full))
     = Some (0, recordOfA)
  /\ exists p1 ccs,
       _configsFor (world full) aCopy (afterResolve full) = (Ok (ccs_configSet recordOfA), p1)
       /\ _cachedConfigSets p1 = <[0 := ccs]> (_cachedConfigSets (afterResolve full))
       /\ sessionOf ccs = sessionOf recordOfA
       /\ list_find (sameObject (config aCopy)) (_cachedConfigSets p1) = Some (0, ccs)
       /\ this p1 = adopt recordOfA (this (afterResolve full))
       /\ heap_compilers p1 = heap_compilers (afterResolve full)
       /\ heap_depGraphs p1 = heap_depGraphs (afterResolve full).
Proof.
  assert (H1 : list_find (sameObject (config aCopy)) (_cachedConfigSets (afterResolve full)) = None)
    by (vm_compute; reflexivity).
  assert (H2 : list_find (sameSerialized (stringify (world full) (obj_fields (config aCopy))))
                         (_cachedConfigSets (afterResolve full))
               = Some (0, recordOfA))
    by (vm_compute; reflexivity).
  split; [exact H1|]. split; [exact H2|].
  exact (configsFor_by_serialized_form (world full) aCopy (afterResolve full) 0 recordOfA H1 H2).
Defined.

(** X4 at the configuration B, after A was resolved. *)
Lemma configsFor_distinct_compilers_witness :
  registry_wf (afterResolve full)
  /\ registry_wf (snd (_configsFor (world full) bConfig (afterResolve full))).
Proof.
  assert (H : registry_wf (afterResolve full)).
  { split.
    - change (_cachedConfigSets (afterResolve full)) with [recordOfA].
      constructor; [|constructor]. vm_compute. constructor.
    - change (_cachedConfigSets (afterResolve full)) with [recordOfA].
      apply NoDup_singleton. }
  split; [exact H|]. exact (configsFor_distinct_compilers (world full) bConfig _ H).
Defined.


(** X5 at a.ts, whose recorded module is not on the disk. *)
Lemma getCacheKey_recorded_modules_witness :
  resolved aConfig full (afterCacheKey full "import './gone'")
  /\ _transformCfgStr (this (afterCacheKey full "import './gone'")) = Some "A"
  /\ isolatedModules full = false /\ truthy (tsCacheDir full) = true
  /\ recordedFor (afterCacheKey full "import './gone'") "/p/a.ts" "import './gone'"
       ["/p/gone.ts"]
  /\ existsSync (world full) "/p/gone.ts" = false
  /\ getCacheKey (world full) "import './gone'" "/p/a.ts" aConfig
       (afterCacheKey full "import './gone'")
     = (Ok (sha1 (world full)
              (firstElements "A" (rootDir full) "import './gone'" "/p/a.ts" aConfig
               ++ moduleElements (world full)
                    (filter (fun m => existsSync (world full) m = true) ["/p/gone.ts"]))%list),
        afterCacheKey full "import './gone'").
Proof.
  assert (Hres : resolved aConfig full (afterCacheKey full "import './gone'")).
  { exists 0, recordOfA. split; [vm_compute; reflexivity|]. split; [reflexivity|].
    vm_compute. reflexivity. }
  assert (Hrec : recordedFor (afterCacheKey full "import './gone'") "/p/a.ts" "import './gone'"
                   ["/p/gone.ts"]).
  { eexists _, _. split; [vm_compute; reflexivity|]. split; [vm_compute; reflexivity|].
    split; reflexivity. }
  assert (Hs : _transformCfgStr (this (afterCacheKey full "import './gone'")) = Some "A")
    by (vm_compute; reflexivity).
  split; [exact Hres|]. split; [exact Hs|]. split; [reflexivity|]. split; [reflexivity|].
  split; [exact Hrec|]. split; [reflexivity|].
  exact (getCacheKey_recorded_modules (world full) "import './gone'" "/p/a.ts" aConfig _ full "A"
           ["/p/gone.ts"] Hres Hs eq_refl eq_refl Hrec).
Defined.

(** X7 at a.ts after one compile, with another content. *)
Lemma updateMemoryCache_file_version_witness :
  inCache (self (compiledOnce full "import './b'" "/p/a.ts")) "/p/a.ts"
  /\ _fileContentCache (self (compiledOnce full "import './b'" "/p/a.ts"))
     = Some [("/p/a.ts", Some "import './b'")]
  /\ versionOf (self (compiledOnce full "import './b'" "/p/a.ts")) "/p/a.ts" = Some 1
  /\ exists s',
       _updateMemoryCache (Some "import './c'") "/p/a.ts" true
         (compiledOnce full "import './b'" "/p/a.ts") = (Ok tt, s')
       /\ versionOf (self s') "/p/a.ts" = Some 2.
Proof.
  assert (Hin : inCache (self (compiledOnce full "import './b'" "/p/a.ts")) "/p/a.ts").
  { exists [("/p/a.ts", Some "import './b'")], [("/p/a.ts", 1)].
    repeat split; try (vm_compute; reflexivity). vm_compute. discriminate. }
  assert (Hc : _fileContentCache (self (compiledOnce full "import './b'" "/p/a.ts"))
               = Some [("/p/a.ts", Some "import './b'")]) by (vm_compute; reflexivity).
  assert (Hv : versionOf (self (compiledOnce full "import './b'" "/p/a.ts")) "/p/a.ts" = Some 1)
    by (vm_compute; reflexivity).
  split; [exact Hin|]. split; [exact Hc|]. split; [exact Hv|].
  destruct (updateMemoryCache_file_version (Some "import './c'") "/p/a.ts" true _ _ 1 Hin Hc Hv)
    as (s' & Hrun & Hver & _).
  exists s'. split; [exact Hrun|exact Hver].
Defined.

(** X8 at a TypeScript file under a configuration that stringifies it. *)
Lemma process_stringified_witness :
  _configsFor (world stringifying) aConfig Demo.start
  = (Ok stringifying, afterResolve stringifying)
  /\ shouldStringifyContent stringifying "/p/a.ts" = true
  /\ processWithTs (world stringifying) "import './b'" "/p/a.ts" aConfig Demo.start
     = (Ok {| code := "module.exports=import './b'"; diagnostics := None |},
        afterResolve stringifying)
  /\ process (world stringifying) "import './b'" "/p/a.ts" aConfig Demo.start
     = (Ok {| ts_code := "module.exports=import './b'"; ts_map := None |},
        afterResolve stringifying)
  /\ processAsync (world stringifying) "import './b'" "/p/a.ts" aConfig Demo.start
     = (Ok {| ts_code := "module.exports=import './b'"; ts_map := None |},
        afterResolve stringifying).
Proof.
  assert (Hc : _configsFor (world stringifying) aConfig Demo.start
               = (Ok stringifying, afterResolve stringifying))
    by (vm_compute; reflexivity).
  destruct (process_stringified (world stringifying) "import './b'" "/p/a.ts" aConfig Demo.start
              stringifying (afterResolve stringifying) Hc eq_refl) as [H1 H2].
  destruct (H2 eq_refl) as [H3 H4].
  split; [exact Hc|]. split; [reflexivity|]. split; [exact H1|]. split; [exact H3|exact H4].
Defined.

(** X9 at a style sheet. *)
Lemma process_unknown_file_type_witness :
  _configsFor (world full) aConfig Demo.start = (Ok full, afterResolve full)
  /\ shouldStringifyContent full "/p/style.css" = false
  /\ endsWith "/p/style.css" DECLARATION_TYPE_EXT = false
  /\ JS_JSX_REGEX (world full) "/p/style.css" = false
  /\ TS_TSX_REGEX (world full) "/p/style.css" = false
  /\ processWithTs (world full) "a { }" "/p/style.css" aConfig Demo.start
     = (Ok {| code := "a { }"; diagnostics := None |},
        push_trace (Warn (GotUnknownFileTypeWithoutBabel "/p/style.css")) (afterResolve full))
  /\ process (world full) "a { }" "/p/style.css" aConfig Demo.start
     = (Ok {| ts_code := "a { }"; ts_map := None |},
        push_trace (Warn (GotUnknownFileTypeWithoutBabel "/p/style.css")) (afterResolve full)).
Proof.
  assert (Hc : _configsFor (world full) aConfig Demo.start = (Ok full, afterResolve full))
    by (vm_compute; reflexivity).
  destruct (process_unknown_file_type (world full) "a { }" "/p/style.css" aConfig Demo.start
              full (afterResolve full) Hc eq_refl eq_refl eq_refl eq_refl) as [H1 H2].
  destruct (H2 eq_refl eq_refl) as [H3 _].
  split; [exact Hc|]. split; [reflexivity|]. split; [reflexivity|]. split; [reflexivity|].
  split; [reflexivity|]. split; [exact H1|exact H3].
Defined.


(** X11 at a.ts with isolated modules. *)
Lemma getCacheKey_without_modules_witness :
  _configsFor (world isolated) aConfig Demo.start = (Ok isolated, afterResolve isolated)
  /\ isolatedModules isolated = true
  /\ exists s,
       _transformCfgStr (this (afterResolve isolated)) = Some s
       /\ getCacheKey (world isolated) "import './b'" "/p/a.ts" aConfig Demo.start
          = (Ok (sha1 (world isolated)
                   (firstElements s (rootDir isolated) "import './b'" "/p/a.ts" aConfig)),
             afterResolve isolated).
Proof.
  assert (Hc : _configsFor (world isolated) aConfig Demo.start
               = (Ok isolated, afterResolve isolated))
    by (vm_compute; reflexivity).
  split; [exact Hc|]. split; [reflexivity|].
  exact (getCacheKey_without_modules (world isolated) "import './b'" "/p/a.ts" aConfig Demo.start
           isolated (afterResolve isolated) Hc (or_introl eq_refl)).
Defined.

(** X12 at a.ts with the language service. *)
Lemma getCacheKey_records_modules_witness :
  _configsFor (world full) aConfig Demo.start = (Ok full, afterResolve full)
  /\ isolatedModules full = false /\ truthy (tsCacheDir full) = true
  /\ getCacheKey (world full) "import './b'" "/p/a.ts" aConfig Demo.start
     = (Ok (value "" (fst (getCacheKey (world full) "import './b'" "/p/a.ts" aConfig Demo.start))),
        afterCacheKey full "import './b'")
  /\ (exists L, depGraphOf (afterCacheKey full "import './b'") "/p/a.ts"
               = Some {| dg_fileContent := "import './b'"; dg_resolvedModuleNames := L |})
  /\ this (afterCacheKey full "import './b'") = this (afterResolve full).
Proof.
  assert (Hc : _configsFor (world full) aConfig Demo.start = (Ok full, afterResolve full))
    by (vm_compute; reflexivity).
  assert (H1 : getCacheKey (world full) "import './b'" "/p/a.ts" aConfig Demo.start
               = (Ok (value "" (fst (getCacheKey (world full) "import './b'" "/p/a.ts" aConfig
                                       Demo.start))),
                  afterCacheKey full "import './b'"))
    by (vm_compute; reflexivity).
  destruct (getCacheKey_records_modules (world full) "import './b'" "/p/a.ts" aConfig Demo.start
              full (afterResolve full) _ _ Hc eq_refl eq_refl H1) as (H2 & _ & H3).
  split; [exact Hc|]. split; [reflexivity|]. split; [reflexivity|]. split; [exact H1|].
  split; [exact H2|exact H3].
Defined.

(** X13 at a file under node_modules. *)
Lemma isNodeModule_segment_witness :
  (path_sep (world full) = "/"%char \/ path_sep (world full) = "\"%char)
  /\ isNodeModule (world full) "/p/node_modules/m/i.js" = true
  /\ segmentOf (path_sep (world full)) "node_modules"
       (normalize (world full) "/p/node_modules/m/i.js").
Proof.
  split; [left; reflexivity|]. split; [reflexivity|].
  exact (proj1 (isNodeModule_segment (world full) "/p/node_modules/m/i.js"
                  (or_introl eq_refl)) eq_refl).
Defined.

(** X14 at b.ts, which the new compiler of the example project has not seen. *)
Lemma updateMemoryCache_new_file_witness :
  _fileContentCache (self (Demo.session (world full) full))
  = Some [("/p/a.ts", Some "import './b'")]
  /\ _fileVersionCache (self (Demo.session (world full) full)) = Some [("/p/a.ts", 1)]
  /\ hitIn [("/p/a.ts", Some "import './b'")] [("/p/a.ts", 1)] "/p/b.ts" = false
  /\ exists s',
       _updateMemoryCache (Some "import './c'") "/p/b.ts" true (Demo.session (world full) full)
       = (Ok tt, s')
       /\ versionOf (self s') "/p/b.ts" = Some 1
       /\ _fileContentCache (self s') = Some [("/p/a.ts", Some "import './b'")]
       /\ _projectVersion (self s') = S (_projectVersion (self (Demo.session (world full) full)))
       /\ fst (_isFileInCache "/p/b.ts" s') = Ok false.
Proof.
  assert (Hc : _fileContentCache (self (Demo.session (world full) full))
               = Some [("/p/a.ts", Some "import './b'")]) by (vm_compute; reflexivity).
  assert (Hv : _fileVersionCache (self (Demo.session (world full) full))
               = Some [("/p/a.ts", 1)]) by (vm_compute; reflexivity).
  split; [exact Hc|]. split; [exact Hv|]. split; [reflexivity|].
  destruct (updateMemoryCache_new_file (Some "import './c'") "/p/b.ts" true
              (Demo.session (world full) full) _ _ Hc Hv eq_refl)
    as (s' & H1 & H2 & _ & H3 & H4 & H5).
  exists s'. split; [exact H1|]. split; [exact H2|]. split; [exact H3|]. split; [exact H4|].
  exact H5.
Defined.

(** X15 at b.ts, read from the disk. *)
Lemma getScriptSnapshot_memoizes_witness :
  getScriptSnapshot (world full) "/p/b.ts" (Demo.session (world full) full)
  = (Ok (Some "import './c'"),
     snd (getScriptSnapshot (world full) "/p/b.ts" (Demo.session (world full) full)))
  /\ getScriptSnapshot (world full) "/p/b.ts"
       (snd (getScriptSnapshot (world full) "/p/b.ts" (Demo.session (world full) full)))
     = (Ok (Some "import './c'"),
        snd (getScriptSnapshot (world full) "/p/b.ts" (Demo.session (world full) full)))
  /\ inCache (self (snd (getScriptSnapshot (world full) "/p/b.ts"
                           (Demo.session (world full) full))))
             (normalize (world full) "/p/b.ts").
Proof.
  assert (H : getScriptSnapshot (world full) "/p/b.ts" (Demo.session (world full) full)
              = (Ok (Some "import './c'"),
                 snd (getScriptSnapshot (world full) "/p/b.ts" (Demo.session (world full) full))))
    by (vm_compute; reflexivity).
  destruct (getScriptSnapshot_memoizes _ _ _ _ _ H) as (H1 & H2).
  split; [exact H|]. split; [exact H1|]. exact (proj1 (H2 _ eq_refl)).
Defined.

(** X16 at b.ts, read from the disk. *)
Lemma getFileContentFromCache_memoizes_witness :
  _getFileContentFromCache (world full) "/p/b.ts" (Demo.session (world full) full)
  = (Ok (Some "import './c'"),
     snd (_getFileContentFromCache (world full) "/p/b.ts" (Demo.session (world full) full)))
  /\ _getFileContentFromCache (world full) "/p/b.ts"
       (snd (_getFileContentFromCache (world full) "/p/b.ts" (Demo.session (world full) full)))
     = (Ok (Some "import './c'"),
        snd (_getFileContentFromCache (world full) "/p/b.ts" (Demo.session (world full) full))).
Proof.
  assert (H : _getFileContentFromCache (world full) "/p/b.ts" (Demo.session (world full) full)
              = (Ok (Some "import './c'"),
                 snd (_getFileContentFromCache (world full) "/p/b.ts"
                        (Demo.session (world full) full))))
    by (vm_compute; reflexivity).
  split; [exact H|]. exact (proj1 (getFileContentFromCache_memoizes _ _ _ _ _ H)).
Defined.


(** X20 at a JavaScript file of the example project. *)
Lemma getCompiledOutput_js_without_allowJs_witness :
  _languageService (self (Demo.session (world full) full)) = true
  /\ JS_JSX_REGEX (world full) "/p/x.js" = true
  /\ is_true_opt (allowJs (_initialCompilerOptions (self (Demo.session (world full) full))))
     = false
  /\ exists s',
       getCompiledOutput (world full) "let x" "/p/x.js" (Demo.compileOptions [] false)
         (Demo.session (world full) full)
       = (Ok {| code := "let x"; diagnostics := None |}, s')
       /\ maps s' = maps (Demo.session (world full) full).
Proof.
  split; [reflexivity|]. split; [reflexivity|]. split; [reflexivity|].
  destruct (getCompiledOutput_js_without_allowJs (world full) "let x" "/p/x.js"
              (Demo.compileOptions [] false) (Demo.session (world full) full)
              eq_refl eq_refl eq_refl) as (s' & H1 & _ & H2 & _).
  exists s'. split; [exact H1|exact H2].
Defined.


(** X22 at b.ts, which has a diagnostic that is not to be reported. *)
Lemma getCompiledOutput_no_raise_witness :
  _languageService (self (Demo.session (world unreported) unreported)) = true
  /\ shouldReportDiagnostics (configSet (self (Demo.session (world unreported) unreported)))
       "/p/b.ts" = false
  /\ noRaise (Demo.session (world unreported) unreported)
       (snd (getCompiledOutput (world unreported) "import './c'" "/p/b.ts"
               (Demo.compileOptions [] false) (Demo.session (world unreported) unreported))).
Proof.
  split; [reflexivity|]. split; [reflexivity|].
  exact (getCompiledOutput_no_raise (world unreported) "import './c'" "/p/b.ts"
           (Demo.compileOptions [] false) (Demo.session (world unreported) unreported)
           eq_refl (or_intror eq_refl)).
Defined.



(** X26 at the configuration B, resolved by a new transformer after A. *)
Lemma new_transformer_own_depGraphs_witness :
  Forall (fun ccs => ccs_depGraphs ccs < length (heap_depGraphs (afterResolve full)))
         (_cachedConfigSets (afterResolve full))
  /\ list_find (sameObject (config bConfig)) (_cachedConfigSets (afterResolve full)) = None
  /\ list_find (sameSerialized (stringify (world full) (obj_fields (config bConfig))))
               (_cachedConfigSets (afterResolve full)) = None
  /\ _configsFor (world full) bConfig (newTsJestTransformer None (afterResolve full))
     = (Ok full, snd (_configsFor (world full) bConfig
                        (newTsJestTransformer None (afterResolve full))))
  /\ exists ccs,
       _cachedConfigSets (snd (_configsFor (world full) bConfig
                                 (newTsJestTransformer None (afterResolve full))))
       = (_cachedConfigSets (afterResolve full) ++ [ccs])%list
       /\ ccs_depGraphs ccs = 1
       /\ Forall (fun other => ccs_depGraphs other <> ccs_depGraphs ccs)
                 (_cachedConfigSets (afterResolve full)).
Proof.
  assert (H0 : Forall (fun ccs => ccs_depGraphs ccs < length (heap_depGraphs (afterResolve full)))
                      (_cachedConfigSets (afterResolve full))).
  { change (_cachedConfigSets (afterResolve full)) with [recordOfA].
    constructor; [|constructor]. vm_compute. constructor. }
  assert (H1 : list_find (sameObject (config bConfig)) (_cachedConfigSets (afterResolve full))
               = None) by (vm_compute; reflexivity).
  assert (H2 : list_find (sameSerialized (stringify (world full) (obj_fields (config bConfig))))
                         (_cachedConfigSets (afterResolve full)) = None)
    by (vm_compute; reflexivity).
  assert (H3 : _configsFor (world full) bConfig (newTsJestTransformer None (afterResolve full))
               = (Ok full, snd (_configsFor (world full) bConfig
                                  (newTsJestTransformer None (afterResolve full)))))
    by (vm_compute; reflexivity).
  split; [exact H0|]. split; [exact H1|]. split; [exact H2|]. split; [exact H3|].
  destruct (new_transformer_own_depGraphs (world full) None bConfig (afterResolve full) full _
              H0 H1 H2 H3) as (ccs & Hr & _ & Hd & _ & Hne).
  exists ccs. split; [exact Hr|]. split; [exact Hd|exact Hne].
Defined.
